(** * particle-som-gnss: the GNSS acquisition engine of [SomLocation]

    A shallow embedding of [location.cpp], [location.h], [location_options.h]
    and [location_point.h], with the statements of the specification that
    were checked against it.

    Conventions of the embedding.
    - A C string is a [string]: the characters before the terminating NUL.
    - [unsigned int], [system_tick_t] and [uint64_t] values are [Z] with the
      wrap-around written out ([u32], [u64]); the target is a 32-bit ARM
      core, so [unsigned long] is 32 bits wide as well.
    - [float] and [double] are IEEE-754 binary32 and binary64 values,
      represented by [spec_float] and computed with the operations of
      [SpecFloat] at precision 24/128 and 53/1024.
    - [sscanf], [strlcpy] and [mktime] belong to the C library and not to the
      repository; they are modelled in the modules [Scan] and [Calendar] to
      the extent the three format strings of the source need.
    - What the outside world supplies (modem power, clock readings, the lines
      of an AT reply, the result of a publish) is an argument of the
      function that consumes it; logging, pin writes and the transmission
      of AT commands leave no trace in the modelled state. *)

From Stdlib Require Import ZArith List String Ascii Bool Lia QArith Qabs.
From Stdlib Require Import Floats.SpecFloat.
Import ListNotations.

Local Open Scope string_scope.
Local Open Scope Z_scope.

(** ** Machine integers *)

Definition u32 (x : Z) : Z := x mod 2 ^ 32.
Definition u64 (x : Z) : Z := x mod 2 ^ 64.

(** Conversion of a 32-bit pattern to [int] (two's complement). *)
Definition s32 (x : Z) : Z := (x + 2 ^ 31) mod 2 ^ 32 - 2 ^ 31.

Definition UINT_MAX : Z := 2 ^ 32 - 1.
Definition INT_MAX : Z := 2 ^ 31 - 1.

(** ** Floating point *)

Definition float : Type := spec_float.
Definition double : Type := spec_float.

Module F32.
Definition prec : Z := 24.
Definition emax : Z := 128.
Definition of_Z (z : Z) : float := binary_normalize prec emax z 0 false.
Definition leb (x y : float) : bool := SFleb x y.
Definition zero : float := S754_zero false.
End F32.

Module F64.
Definition prec : Z := 53.
Definition emax : Z := 1024.
Definition of_Z (z : Z) : double := binary_normalize prec emax z 0 false.
Definition add (x y : double) : double := SFadd prec emax x y.
Definition mul (x y : double) : double := SFmul prec emax x y.
Definition div (x y : double) : double := SFdiv prec emax x y.
Definition ltb (x y : double) : bool := SFltb x y.
End F64.

(** [float] to [double]: exact, the mantissa is only re-aligned. *)
Definition widen (x : float) : double :=
  match x with
  | S754_finite s m e => binary_round F64.prec F64.emax s m e
  | _ => x
  end.

(** [double] to [float]: rounds to nearest, ties to even. *)
Definition narrow (x : double) : float :=
  match x with
  | S754_finite s m e => binary_round F32.prec F32.emax s m e
  | _ => x
  end.

(** The exact rational value of a finite float (0 for the others). *)
Definition SF2Q (x : spec_float) : Q :=
  match x with
  | S754_finite s m e =>
      let v := if (0 <=? e)%Z then inject_Z (Zpos m * 2 ^ e)
               else Qmake (Zpos m) (Z.to_pos (2 ^ (- e))) in
      if s then Qopp v else v
  | _ => 0%Q
  end.

Definition is_finite (x : spec_float) : bool :=
  match x with
  | S754_finite _ _ _ | S754_zero _ => true
  | _ => false
  end.

(** ** The C library: character classes, [strtoul], [strtod], [sscanf] *)

Module Scan.

Definition isspace (c : ascii) : bool :=
  let n := nat_of_ascii c in
  Nat.eqb n 32 || (Nat.leb 9 n && Nat.leb n 13).

Definition isdigit (c : ascii) : bool :=
  let n := nat_of_ascii c in
  Nat.leb 48 n && Nat.leb n 57.

Definition digit_val (c : ascii) : Z := Z.of_nat (nat_of_ascii c) - 48.

Definition is_sign (c : ascii) : bool :=
  Ascii.eqb c "+" || Ascii.eqb c "-".

Definition tolower (c : ascii) : ascii :=
  let n := nat_of_ascii c in
  if Nat.leb 65 n && Nat.leb n 90 then ascii_of_nat (n + 32) else c.

Fixpoint skip_space (s : string) : string :=
  match s with
  | String c s' => if isspace c then skip_space s' else s
  | EmptyString => s
  end.

(** Reads at most [width] decimal digits: their value (continuing [acc]),
    how many were read, and the unread rest. *)
Fixpoint scan_digits (width : nat) (s : string) (acc : Z) (n : nat)
  : Z * nat * string :=
  match width, s with
  | S w, String c s' =>
      if isdigit c then scan_digits w s' (10 * acc + digit_val c) (S n)
      else (acc, n, s)
  | _, _ => (acc, n, s)
  end.

(** [strtoul] in base 10 on a sign and the value of the digits: saturates
    at [ULONG_MAX], otherwise negates modulo 2^32 under a minus sign. *)
Definition strtoul_value (neg : bool) (v : Z) : Z :=
  if UINT_MAX <? v then UINT_MAX
  else if neg then u32 (- v) else v.

(** The [%u] conversion: an optional sign and at least one digit, in at
    most [width] characters. *)
Definition scan_uint (width : nat) (s : string) : option (Z * string) :=
  match s with
  | EmptyString => None
  | String c s' =>
      let '(v, n, rest) :=
        if is_sign c then scan_digits (Nat.pred width) s' 0 0
        else scan_digits width s 0 0 in
      match n with
      | O => None
      | S _ => Some (strtoul_value (Ascii.eqb c "-") v, rest)
      end
  end.

(** [strtod]: the binary64 value nearest to [(-1)^neg * d * 10^e10]. *)
Definition strtod_value (neg : bool) (d : Z) (e10 : Z) : double :=
  match d with
  | Z0 => S754_zero neg
  | _ =>
      if 0 <=? e10 then
        binary_normalize F64.prec F64.emax
          ((if neg then - d else d) * 10 ^ e10) 0 neg
      else
        let '(q, e, l) :=
          SFdiv_core_binary F64.prec F64.emax d 0 (10 ^ (- e10)) 0 in
        binary_round_aux F64.prec F64.emax neg q e l
  end.

Fixpoint starts_with_ci (p s : string) : option string :=
  match p, s with
  | EmptyString, _ => Some s
  | String a p', String b s' =>
      if Ascii.eqb a (tolower b) then starts_with_ci p' s' else None
  | String _ _, EmptyString => None
  end.

(** The exponent part of a decimal floating constant. When no digit follows
    the [e] (and its sign) the exponent is not part of the number. *)
Definition scan_exponent (s : string) : Z * string :=
  match s with
  | String c s1 =>
      if Ascii.eqb (tolower c) "e" then
        let '(neg, s2) :=
          match s1 with
          | String c' s2 => if is_sign c' then (Ascii.eqb c' "-", s2)
                            else (false, s1)
          | EmptyString => (false, s1)
          end in
        let '(v, n, rest) := scan_digits (String.length s2) s2 0 0 in
        match n with
        | O => (0, s)
        | S _ => ((if neg then - v else v), rest)
        end
      else (0, s)
  | EmptyString => (0, s)
  end.

(** The [%f] and [%lf] conversions: an optional sign, then [inf],
    [infinity], [nan], or decimal digits with an optional point and an
    optional exponent. *)
Definition scan_float (s : string) : option (double * string) :=
  let '(neg, s0) :=
    match s with
    | String c s' => if is_sign c then (Ascii.eqb c "-", s') else (false, s)
    | EmptyString => (false, s)
    end in
  match starts_with_ci "nan" s0 with
  | Some rest => Some (S754_nan, rest)
  | None =>
  match starts_with_ci "infinity" s0 with
  | Some rest => Some (S754_infinity neg, rest)
  | None =>
  match starts_with_ci "inf" s0 with
  | Some rest => Some (S754_infinity neg, rest)
  | None =>
      let '(v1, n1, s1) := scan_digits (String.length s0) s0 0 0 in
      let '(v2, n2, s2) :=
        match s1 with
        | String c s1' =>
            if Ascii.eqb c "." then scan_digits (String.length s1') s1' v1 0
            else (v1, O, s1)
        | EmptyString => (v1, O, s1)
        end in
      match (n1 + n2)%nat with
      | O => None
      | S _ =>
          let '(ex, rest) := scan_exponent s2 in
          Some (strtod_value neg v2 (ex - Z.of_nat n2), rest)
      end
  end end end.

(** *** Formats *)

Inductive conv := ConvU | ConvF | ConvLF.

Inductive directive :=
| DSpace
| DLit (c : ascii)
| DConv (suppress : bool) (width : option nat) (c : conv).

Inductive fstate :=
| Plain
| Spec (suppress : bool) (width : option nat) (long : bool).

(** Reads a format string into its directives. Only what the formats of
    the source use is recognised: white space, ordinary characters, and
    [%] with an optional [*], an optional width, an optional [l] and one
    of [u] and [f]. *)
Fixpoint parse_format (st : fstate) (fmt : string) : list directive :=
  match fmt with
  | EmptyString => []
  | String c rest =>
      match st with
      | Plain =>
          if Ascii.eqb c "%" then parse_format (Spec false None false) rest
          else if isspace c then DSpace :: parse_format Plain rest
          else DLit c :: parse_format Plain rest
      | Spec sup w l =>
          if Ascii.eqb c "*" then parse_format (Spec true w l) rest
          else if isdigit c then
            let d := Z.to_nat (digit_val c) in
            let w' := match w with
                      | None => d
                      | Some n => (10 * n + d)%nat
                      end in
            parse_format (Spec sup (Some w') l) rest
          else if Ascii.eqb c "l" then parse_format (Spec sup w true) rest
          else if Ascii.eqb c "u" then
            DConv sup w ConvU :: parse_format Plain rest
          else if Ascii.eqb c "f" then
            DConv sup w (if l then ConvLF else ConvF)
              :: parse_format Plain rest
          else []
      end
  end.

(** A value stored through one of the pointer arguments. *)
Inductive arg :=
| ArgU (v : Z)
| ArgF (v : float)
| ArgD (v : double).

Definition EOF : Z := -1.

Definition scan_conv (c : conv) (width : option nat) (s : string)
  : option (arg * string) :=
  let w := match width with
           | Some (S n) => S n
           | _ => String.length s
           end in
  match c with
  | ConvU =>
      match scan_uint w s with
      | Some (v, rest) => Some (ArgU v, rest)
      | None => None
      end
  | ConvF =>
      match scan_float s with
      | Some (v, rest) => Some (ArgF (narrow v), rest)
      | None => None
      end
  | ConvLF =>
      match scan_float s with
      | Some (v, rest) => Some (ArgD v, rest)
      | None => None
      end
  end.

(** The value [sscanf] returns when the input ends: the number of
    assignments made, or [EOF] when there was none. *)
Definition input_failure (acc : list arg) : Z * list arg :=
  match acc with
  | [] => (EOF, acc)
  | _ => (Z.of_nat (List.length acc), acc)
  end.

Definition matching_failure (acc : list arg) : Z * list arg :=
  (Z.of_nat (List.length acc), acc).

(** Runs the directives over the input. The result is the return value of
    [sscanf] and the values assigned, in the order of the arguments. *)
Fixpoint run (ds : list directive) (inp : string) (acc : list arg)
  : Z * list arg :=
  match ds with
  | [] => (Z.of_nat (List.length acc), acc)
  | DSpace :: ds' => run ds' (skip_space inp) acc
  | DLit c :: ds' =>
      match inp with
      | EmptyString => input_failure acc
      | String x inp' =>
          if Ascii.eqb x c then run ds' inp' acc
          else matching_failure acc
      end
  | DConv sup w c :: ds' =>
      match skip_space inp with
      | EmptyString => input_failure acc
      | inp1 =>
          match scan_conv c w inp1 with
          | None => matching_failure acc
          | Some (v, rest) =>
              run ds' rest (if sup then acc else acc ++ [v])
          end
      end
  end.

Definition sscanf (buf fmt : string) : Z * list arg :=
  run (parse_format Plain fmt) buf [].

(** [strlcpy(dst, src, size)]: at most [size - 1] characters are copied;
    with [size = 0] the destination is left as it is. *)
Fixpoint take (n : nat) (s : string) : string :=
  match n, s with
  | S n', String c s' => String c (take n' s')
  | _, _ => EmptyString
  end.

Definition strlcpy (dst src : string) (size : Z) : string :=
  if size <=? 0 then dst else take (Z.to_nat (size - 1)) src.

End Scan.

(** ** The C library: [struct tm] and [mktime]

    The device keeps no time zone, so [mktime] reads its argument as UTC.
    Fields out of their range carry over into the next larger unit, as the
    library's normalisation does; the month carries into the year first,
    and the day count is the cumulative table plus a walk over the years
    since 1970. *)

Module Calendar.

Record tm := {
  tm_sec : Z;
  tm_min : Z;
  tm_hour : Z;
  tm_mday : Z;
  tm_mon : Z;
  tm_year : Z
}.

Definition zero_tm : tm :=
  {| tm_sec := 0; tm_min := 0; tm_hour := 0;
     tm_mday := 0; tm_mon := 0; tm_year := 0 |}.

(** [y] counts from 1900, as [tm_year] does. *)
Definition ISLEAP (y : Z) : bool :=
  (Z.rem y 4 =? 0)
  && (negb (Z.rem y 100 =? 0) || (Z.rem (y + 1900) 400 =? 0)).

Definition DAYS_IN_YEAR (y : Z) : Z := if ISLEAP y then 366 else 365.

Definition DAYS_BEFORE_MONTH : list Z :=
  [0; 31; 59; 90; 120; 151; 181; 212; 243; 273; 304; 334].

(** The days of the [n] years that start with [year]. *)
Fixpoint days_of_years (n : nat) (year : Z) : Z :=
  match n with
  | O => 0
  | S k => DAYS_IN_YEAR year + days_of_years k (year + 1)
  end.

Definition days_before_year (year : Z) : Z :=
  if 70 <? year then days_of_years (Z.to_nat (year - 70)) 70
  else - days_of_years (Z.to_nat (70 - year)) year.

Definition mktime (t : tm) : Z :=
  let year := tm_year t + tm_mon t / 12 in
  let mon := tm_mon t mod 12 in
  if (10000 <? year) || (year <? -10000) then -1
  else
    let yday :=
      tm_mday t - 1 + nth (Z.to_nat mon) DAYS_BEFORE_MONTH 0
      + (if (1 <? mon) && ISLEAP year then 1 else 0) in
    let days := yday + days_before_year year in
    tm_sec t + tm_min t * 60 + tm_hour t * 3600 + days * 86400.

(** The conversion of a civil date (full year, month 1 to 12) and a time
    of day to seconds since 1970-01-01T00:00:00Z, by the era arithmetic of
    the proleptic Gregorian calendar; the statement about the epoch time
    of a fix is made against this definition. *)
Definition days_from_civil (y m d : Z) : Z :=
  let y' := if m <=? 2 then y - 1 else y in
  let era := y' / 400 in
  let yoe := y' - era * 400 in
  let doy := (153 * (if 2 <? m then m - 3 else m + 9) + 2) / 5 + d - 1 in
  let doe := yoe * 365 + yoe / 4 - yoe / 100 + doy in
  era * 146097 + doe - 719468.

Definition utc_epoch (year month day hour minute second : Z) : Z :=
  days_from_civil year month day * 86400
  + hour * 3600 + minute * 60 + second.

End Calendar.

(** ** Data model *)

(** [location_point.h] *)

Definition LOCATION_FIX_NONE : Z := 0.
Definition LOCATION_FIX_2D : Z := 1.
Definition LOCATION_FIX_3D : Z := 2.

(** The field [fix] of the source is [fix_] here. *)
Record LocationPoint := {
  fix_ : Z;
  epochTime : Z;
  systemTime : Z;
  latitude : double;
  longitude : double;
  altitude : float;
  speed : float;
  heading : float;
  horizontalAccuracy : float;
  horizontalDop : float;
  verticalAccuracy : float;
  verticalDop : float;
  timeToFirstFix : float;
  satsInUse : Z
}.

(** [LocationPoint point = {}] *)
Definition empty_point : LocationPoint :=
  {| fix_ := 0; epochTime := 0; systemTime := 0;
     latitude := S754_zero false; longitude := S754_zero false;
     altitude := F32.zero; speed := F32.zero; heading := F32.zero;
     horizontalAccuracy := F32.zero; horizontalDop := F32.zero;
     verticalAccuracy := F32.zero; verticalDop := F32.zero;
     timeToFirstFix := F32.zero; satsInUse := 0 |}.

(** [location_options.h] *)

Definition LOCATION_CONST_GPS_ONLY : Z := 0.
Definition LOCATION_CONST_GPS_GLONASS : Z := Z.shiftl 1 0.
Definition LOCATION_CONST_GPS_BEIDOU : Z := Z.shiftl 1 1.
Definition LOCATION_CONST_GPS_GALILEO : Z := Z.shiftl 1 2.
Definition LOCATION_CONST_GPS_QZSS : Z := Z.shiftl 1 3.

Definition LocationConstellationDefault : Z := LOCATION_CONST_GPS_GLONASS.
Definition LocationHdopDefault : Z := 100.
Definition LocationHaccDefault : float := F32.of_Z 50.
Definition LocationFixTimeDefault : Z := 90.

(** The pin number that stands for no pin. *)
Definition PIN_INVALID : Z := 65535.

Record LocationConfiguration := {
  _constellations : Z;
  _antennaPin : Z;
  _hdop : Z;
  _hacc : float;
  _maxFixSeconds : Z
}.

(** The default constructor. *)
Definition LocationConfiguration_default : LocationConfiguration :=
  {| _constellations := LOCATION_CONST_GPS_GLONASS;
     _antennaPin := PIN_INVALID;
     _hdop := LocationHdopDefault;
     _hacc := LocationHaccDefault;
     _maxFixSeconds := LocationFixTimeDefault |}.

(** The setters; each getter of the class is the field itself. *)
Definition set_constellations (constellations : Z) (c : LocationConfiguration)
  : LocationConfiguration :=
  {| _constellations := constellations; _antennaPin := _antennaPin c;
     _hdop := _hdop c; _hacc := _hacc c;
     _maxFixSeconds := _maxFixSeconds c |}.

Definition set_enableAntennaPower (pin : Z) (c : LocationConfiguration)
  : LocationConfiguration :=
  {| _constellations := _constellations c; _antennaPin := pin;
     _hdop := _hdop c; _hacc := _hacc c;
     _maxFixSeconds := _maxFixSeconds c |}.

Definition set_hdopThreshold (hdop : Z) (c : LocationConfiguration)
  : LocationConfiguration :=
  let hdop := if hdop <? 0 then 0 else if 100 <? hdop then 100 else hdop in
  {| _constellations := _constellations c; _antennaPin := _antennaPin c;
     _hdop := hdop; _hacc := _hacc c;
     _maxFixSeconds := _maxFixSeconds c |}.

Definition set_haccThreshold (hacc : float) (c : LocationConfiguration)
  : LocationConfiguration :=
  {| _constellations := _constellations c; _antennaPin := _antennaPin c;
     _hdop := _hdop c; _hacc := hacc;
     _maxFixSeconds := _maxFixSeconds c |}.

Definition set_maximumFixTime (fixSeconds : Z) (c : LocationConfiguration)
  : LocationConfiguration :=
  {| _constellations := _constellations c; _antennaPin := _antennaPin c;
     _hdop := _hdop c; _hacc := _hacc c;
     _maxFixSeconds := fixSeconds |}.

Definition constellations := _constellations.
Definition enableAntennaPower := _antennaPin.
Definition hdopThreshold := _hdop.
Definition haccThreshold := _hacc.
Definition maximumFixTime := _maxFixSeconds.

(** [LocationConfiguration::operator=]: [this] receives four of the fields of
    [rhs]. The test [this == &rhs] needs no case of its own, assigning an
    object its own fields leaves it as it is. *)
Definition assign (this rhs : LocationConfiguration) : LocationConfiguration :=
  {| _constellations := _constellations rhs;
     _antennaPin := _antennaPin rhs;
     _hdop := _hdop rhs;
     _hacc := _hacc this;
     _maxFixSeconds := _maxFixSeconds rhs |}.

(** [location.h] *)

Module LocationCommand.
Inductive t := None | Acquire | Exit.
End LocationCommand.

Module LocationResults.
Inductive t :=
| Unavailable | Unsupported | Idle | Acquiring | Pending | Fixed | TimedOut.

Definition eqb (a b : t) : bool :=
  match a, b with
  | Unavailable, Unavailable | Unsupported, Unsupported | Idle, Idle
  | Acquiring, Acquiring | Pending, Pending | Fixed, Fixed
  | TimedOut, TimedOut => true
  | _, _ => false
  end.
End LocationResults.

Module CME_Error.
Inductive t :=
| NONE
| FIX
| SESSION_IS_ONGOING
| SESSION_NOT_ACTIVE
| OPERATION_TIMEOUT
| NO_FIX
| GNSS_IS_WORKING
| UNKNOWN_ERROR
| UNDEFINED.

(** The enumerators' values. *)
Definition code (e : t) : Z :=
  match e with
  | NONE => 0
  | FIX => 1
  | SESSION_IS_ONGOING => 504
  | SESSION_NOT_ACTIVE => 505
  | OPERATION_TIMEOUT => 506
  | NO_FIX => 516
  | GNSS_IS_WORKING => 522
  | UNKNOWN_ERROR => 549
  | UNDEFINED => 999
  end.

Definition eqb (a b : t) : bool := code a =? code b.
End CME_Error.

Module ModemType.
Inductive t := Unavailable | Unsupported | BG95_M5 | EG91.

Definition eqb (a b : t) : bool :=
  match a, b with
  | Unavailable, Unavailable | Unsupported, Unsupported
  | BG95_M5, BG95_M5 | EG91, EG91 => true
  | _, _ => false
  end.
End ModemType.

(** [std::function<void(LocationResults)>]: a callback is known by a number;
    [None] is the empty function object. *)
Definition LocationDone : Type := option nat.

(** [point] is the address of the caller's [LocationPoint]. *)
Record LocationCommandContext := {
  command : LocationCommand.t;
  sendResponse : bool;
  doneCallback : LocationDone;
  publish : bool;
  point : option nat
}.

(** [LocationCommandContext event {}] *)
Definition empty_command : LocationCommandContext :=
  {| command := LocationCommand.None; sendResponse := false;
     doneCallback := None; publish := false; point := None |}.

Module QlocContext.
Record t := {
  tm_hour : Z;
  tm_min : Z;
  tm_sec : Z;
  tm_day : Z;
  tm_month : Z;
  tm_year : Z;
  latitude : double;
  longitude : double;
  fix_ : Z;
  hdop : float;
  altitude : float;
  cogDegrees : Z;
  cogMinutes : Z;
  speedKmph : float;
  speedKnots : float;
  nsat : Z;
  timeinfo : Calendar.tm
}.

Definition empty : t :=
  {| tm_hour := 0; tm_min := 0; tm_sec := 0;
     tm_day := 0; tm_month := 0; tm_year := 0;
     latitude := S754_zero false; longitude := S754_zero false;
     fix_ := 0; hdop := F32.zero; altitude := F32.zero;
     cogDegrees := 0; cogMinutes := 0;
     speedKmph := F32.zero; speedKnots := F32.zero; nsat := 0;
     timeinfo := Calendar.zero_tm |}.
End QlocContext.

Record EpeContext := {
  h_acc : float;
  v_acc : float;
  speed_acc : float;
  head_acc : float
}.

Definition empty_epe : EpeContext :=
  {| h_acc := F32.zero; v_acc := F32.zero;
     speed_acc := F32.zero; head_acc := F32.zero |}.

(** The members of [SomLocation]. Each queue was created with room for one
    item. *)
Record SomLocation := {
  _commandQueue : list LocationCommandContext;
  _responseQueue : list LocationResults.t;
  _acquiring : bool;
  _locBuffer : string;
  _epeBuffer : string;
  _qlocContext : QlocContext.t;
  _epeContext : EpeContext;
  _conf : LocationConfiguration;
  _antennaPowerPin : Z;
  _modemType : ModemType.t;
  _reqid : Z
}.

(** The engine as its constructor and member initialisers leave it. *)
Definition SomLocation_new : SomLocation :=
  {| _commandQueue := []; _responseQueue := [];
     _acquiring := false;
     _locBuffer := EmptyString; _epeBuffer := EmptyString;
     _qlocContext := QlocContext.empty; _epeContext := empty_epe;
     _conf := LocationConfiguration_default;
     _antennaPowerPin := PIN_INVALID;
     _modemType := ModemType.Unavailable;
     _reqid := 1 |}.

(** ** [location.cpp]: constants *)

Definition LOCATION_PERIOD_SUCCESS_MS : Z := 1 * 1000.
Definition LOCATION_INACTIVE_PERIOD_SUCCESS_MS : Z := 120 * 1000.
Definition LOCATION_PERIOD_ACQUIRE_MS : Z := 1 * 1000.
Definition ANTENNA_POWER_SETTLING_MS : Z := 100.
Definition LOCATION_REQUIRED_SETTLING_COUNT : Z := 2.

(** [sizeof(SomLocation::_locBuffer)] and [sizeof(SomLocation::_epeBuffer)] *)
Definition LOC_BUFFER_SIZE : Z := 256.
Definition EPE_BUFFER_SIZE : Z := 256.

(** The kinds of reply line the modem driver hands to a callback; the source
    tells two of them from the rest. *)
Inductive RespType := TYPE_PLUS | TYPE_ERROR | TYPE_OTHER.

(** One invocation of a reply callback: [type], [buf] and [len]. *)
Definition ReplyLine : Type := (RespType * string * Z)%type.

Definition dquote : string := String (ascii_of_nat 34) EmptyString.

Definition CME_FORMAT : string := " +CME ERROR: %u".

Definition QLOC_FORMAT : string :=
  " +QGPSLOC: %02u%02u%02u.%*03u,%lf,%lf,%f,%f,%u,%03u.%02u,%f,%f,%02u%02u%02u,%u".

Definition EPE_FORMAT : string :=
  (" +QGPSCFG: " ++ dquote ++ "estimation_error" ++ dquote ++ ",%f,%f,%f,%f")%string.

(** ** [location.cpp]: the response parser *)

Fixpoint stripLfCr (str : string) : string :=
  match str with
  | EmptyString => EmptyString
  | String c rest =>
      if negb (Ascii.eqb c (ascii_of_nat 10)) && negb (Ascii.eqb c (ascii_of_nat 13))
      then String c (stripLfCr rest)
      else stripLfCr rest
  end.

Definition glocCallback (type : RespType) (buf : string) (len : Z)
  (locBuffer : string) : string :=
  match type with
  | TYPE_PLUS | TYPE_ERROR =>
      stripLfCr (Scan.strlcpy locBuffer buf (Z.min (u32 len) LOC_BUFFER_SIZE))
  | TYPE_OTHER => locBuffer
  end.

Definition epeCallback (type : RespType) (buf : string) (len : Z)
  (epeBuffer : string) : string :=
  match type with
  | TYPE_PLUS | TYPE_ERROR =>
      stripLfCr (Scan.strlcpy epeBuffer buf (Z.min (u32 len) EPE_BUFFER_SIZE))
  | TYPE_OTHER => epeBuffer
  end.

(** The value [sscanf] stored through its [i]-th pointer, or [old] when the
    scan did not get that far. *)
Definition argU (vals : list Scan.arg) (i : nat) (old : Z) : Z :=
  match nth_error vals i with
  | Some (Scan.ArgU v) => v
  | _ => old
  end.

Definition argF (vals : list Scan.arg) (i : nat) (old : float) : float :=
  match nth_error vals i with
  | Some (Scan.ArgF v) => v
  | _ => old
  end.

Definition argD (vals : list Scan.arg) (i : nat) (old : double) : double :=
  match nth_error vals i with
  | Some (Scan.ArgD v) => v
  | _ => old
  end.

Definition parseCmeError (buf : string) : CME_Error.t :=
  let '(nargs, vals) := Scan.sscanf buf CME_FORMAT in
  let error_code := argU vals 0 0 in
  if nargs =? 0 then CME_Error.NONE
  else
    match error_code with
    | 504 => CME_Error.SESSION_IS_ONGOING
    | 505 => CME_Error.SESSION_NOT_ACTIVE
    | 506 => CME_Error.OPERATION_TIMEOUT
    | 516 => CME_Error.NO_FIX
    | 522 => CME_Error.GNSS_IS_WORKING
    | 549 => CME_Error.UNKNOWN_ERROR
    | _ => CME_Error.UNDEFINED
    end.

(** The pointer arguments of the [sscanf] call of [parseQloc], in order. *)
Definition store_qloc (vals : list Scan.arg) (c : QlocContext.t)
  : QlocContext.t :=
  {| QlocContext.tm_hour := argU vals 0 (QlocContext.tm_hour c);
     QlocContext.tm_min := argU vals 1 (QlocContext.tm_min c);
     QlocContext.tm_sec := argU vals 2 (QlocContext.tm_sec c);
     QlocContext.latitude := argD vals 3 (QlocContext.latitude c);
     QlocContext.longitude := argD vals 4 (QlocContext.longitude c);
     QlocContext.hdop := argF vals 5 (QlocContext.hdop c);
     QlocContext.altitude := argF vals 6 (QlocContext.altitude c);
     QlocContext.fix_ := argU vals 7 (QlocContext.fix_ c);
     QlocContext.cogDegrees := argU vals 8 (QlocContext.cogDegrees c);
     QlocContext.cogMinutes := argU vals 9 (QlocContext.cogMinutes c);
     QlocContext.speedKmph := argF vals 10 (QlocContext.speedKmph c);
     QlocContext.speedKnots := argF vals 11 (QlocContext.speedKnots c);
     QlocContext.tm_day := argU vals 12 (QlocContext.tm_day c);
     QlocContext.tm_month := argU vals 13 (QlocContext.tm_month c);
     QlocContext.tm_year := argU vals 14 (QlocContext.tm_year c);
     QlocContext.nsat := argU vals 15 (QlocContext.nsat c);
     QlocContext.timeinfo := QlocContext.timeinfo c |}.

(** The six assignments to [context.timeinfo]: unsigned arithmetic, then
    the conversion to [int]. *)
Definition qloc_timeinfo (c : QlocContext.t) : Calendar.tm :=
  {| Calendar.tm_year := s32 (u32 (QlocContext.tm_year c + 2000 - 1900));
     Calendar.tm_mon := s32 (u32 (QlocContext.tm_month c - 1));
     Calendar.tm_mday := s32 (QlocContext.tm_day c);
     Calendar.tm_hour := s32 (QlocContext.tm_hour c);
     Calendar.tm_min := s32 (QlocContext.tm_min c);
     Calendar.tm_sec := s32 (QlocContext.tm_sec c) |}.

Definition set_timeinfo (ti : Calendar.tm) (c : QlocContext.t)
  : QlocContext.t :=
  {| QlocContext.tm_hour := QlocContext.tm_hour c;
     QlocContext.tm_min := QlocContext.tm_min c;
     QlocContext.tm_sec := QlocContext.tm_sec c;
     QlocContext.latitude := QlocContext.latitude c;
     QlocContext.longitude := QlocContext.longitude c;
     QlocContext.hdop := QlocContext.hdop c;
     QlocContext.altitude := QlocContext.altitude c;
     QlocContext.fix_ := QlocContext.fix_ c;
     QlocContext.cogDegrees := QlocContext.cogDegrees c;
     QlocContext.cogMinutes := QlocContext.cogMinutes c;
     QlocContext.speedKmph := QlocContext.speedKmph c;
     QlocContext.speedKnots := QlocContext.speedKnots c;
     QlocContext.tm_day := QlocContext.tm_day c;
     QlocContext.tm_month := QlocContext.tm_month c;
     QlocContext.tm_year := QlocContext.tm_year c;
     QlocContext.nsat := QlocContext.nsat c;
     QlocContext.timeinfo := ti |}.

(** [context.speedKmph * 1000.0] *)
Definition qloc_speed (speedKmph : float) : float :=
  narrow (F64.mul (widen speedKmph) (F64.of_Z 1000)).

(** [(float)context.cogDegrees + (float)context.cogMinutes / 60.0] *)
Definition qloc_heading (cogDegrees cogMinutes : Z) : float :=
  narrow (F64.add (widen (F32.of_Z cogDegrees))
                  (F64.div (widen (F32.of_Z cogMinutes)) (F64.of_Z 60))).

(** Returns the [int] result, the context and the point after the call. *)
Definition parseQloc (buf : string) (context : QlocContext.t)
  (point : LocationPoint) : Z * QlocContext.t * LocationPoint :=
  let '(nargs, vals) := Scan.sscanf buf QLOC_FORMAT in
  let context := store_qloc vals context in
  if nargs =? 0 then (-1, context, point)
  else
    let context := set_timeinfo (qloc_timeinfo context) context in
    let point :=
      {| epochTime := Calendar.mktime (QlocContext.timeinfo context);
         fix_ := QlocContext.fix_ context;
         latitude := QlocContext.latitude context;
         longitude := QlocContext.longitude context;
         altitude := QlocContext.altitude context;
         speed := qloc_speed (QlocContext.speedKmph context);
         heading := qloc_heading (QlocContext.cogDegrees context)
                                 (QlocContext.cogMinutes context);
         horizontalDop := QlocContext.hdop context;
         satsInUse := QlocContext.nsat context;
         systemTime := systemTime point;
         horizontalAccuracy := horizontalAccuracy point;
         verticalAccuracy := verticalAccuracy point;
         verticalDop := verticalDop point;
         timeToFirstFix := timeToFirstFix point |} in
    (0, context, point).

Definition set_fix (v : Z) (p : LocationPoint) : LocationPoint :=
  {| fix_ := v; epochTime := epochTime p; systemTime := systemTime p;
     latitude := latitude p; longitude := longitude p;
     altitude := altitude p; speed := speed p; heading := heading p;
     horizontalAccuracy := horizontalAccuracy p;
     horizontalDop := horizontalDop p;
     verticalAccuracy := verticalAccuracy p; verticalDop := verticalDop p;
     timeToFirstFix := timeToFirstFix p; satsInUse := satsInUse p |}.

Definition parseQlocResponse (buf : string) (context : QlocContext.t)
  (point : LocationPoint) : CME_Error.t * QlocContext.t * LocationPoint :=
  let result := parseCmeError buf in
  if CME_Error.eqb CME_Error.NO_FIX result then
    (result, context, set_fix 0 point)
  else if negb (CME_Error.eqb CME_Error.NONE result) then
    (CME_Error.NONE, context, point)
  else
    let '(_, context, point) := parseQloc buf context point in
    (CME_Error.FIX, context, point).

Definition store_epe (vals : list Scan.arg) (c : EpeContext) : EpeContext :=
  {| h_acc := argF vals 0 (h_acc c);
     v_acc := argF vals 1 (v_acc c);
     speed_acc := argF vals 2 (speed_acc c);
     head_acc := argF vals 3 (head_acc c) |}.

Definition set_accuracy (h v : float) (p : LocationPoint) : LocationPoint :=
  {| fix_ := fix_ p; epochTime := epochTime p; systemTime := systemTime p;
     latitude := latitude p; longitude := longitude p;
     altitude := altitude p; speed := speed p; heading := heading p;
     horizontalAccuracy := h;
     horizontalDop := horizontalDop p;
     verticalAccuracy := v; verticalDop := verticalDop p;
     timeToFirstFix := timeToFirstFix p; satsInUse := satsInUse p |}.

Definition parseEpeResponse (buf : string) (context : EpeContext)
  (point : LocationPoint) : EpeContext * LocationPoint :=
  let result := parseCmeError buf in
  if negb (CME_Error.eqb CME_Error.NONE result) then (context, point)
  else
    let '(nargs, vals) := Scan.sscanf buf EPE_FORMAT in
    let context := store_epe vals context in
    if negb (nargs =? 0) then
      (context, set_accuracy (h_acc context) (v_acc context) point)
    else (context, point).

(** ** [location.cpp]: the session coordinator *)

Definition set_commandQueue (q : list LocationCommandContext)
  (loc : SomLocation) : SomLocation :=
  {| _commandQueue := q; _responseQueue := _responseQueue loc;
     _acquiring := _acquiring loc;
     _locBuffer := _locBuffer loc; _epeBuffer := _epeBuffer loc;
     _qlocContext := _qlocContext loc; _epeContext := _epeContext loc;
     _conf := _conf loc; _antennaPowerPin := _antennaPowerPin loc;
     _modemType := _modemType loc; _reqid := _reqid loc |}.

Definition set_responseQueue (q : list LocationResults.t)
  (loc : SomLocation) : SomLocation :=
  {| _commandQueue := _commandQueue loc; _responseQueue := q;
     _acquiring := _acquiring loc;
     _locBuffer := _locBuffer loc; _epeBuffer := _epeBuffer loc;
     _qlocContext := _qlocContext loc; _epeContext := _epeContext loc;
     _conf := _conf loc; _antennaPowerPin := _antennaPowerPin loc;
     _modemType := _modemType loc; _reqid := _reqid loc |}.

Definition set_acquiring (b : bool) (loc : SomLocation) : SomLocation :=
  {| _commandQueue := _commandQueue loc;
     _responseQueue := _responseQueue loc;
     _acquiring := b;
     _locBuffer := _locBuffer loc; _epeBuffer := _epeBuffer loc;
     _qlocContext := _qlocContext loc; _epeContext := _epeContext loc;
     _conf := _conf loc; _antennaPowerPin := _antennaPowerPin loc;
     _modemType := _modemType loc; _reqid := _reqid loc |}.

Definition set_loc (buf : string) (c : QlocContext.t) (loc : SomLocation)
  : SomLocation :=
  {| _commandQueue := _commandQueue loc;
     _responseQueue := _responseQueue loc;
     _acquiring := _acquiring loc;
     _locBuffer := buf; _epeBuffer := _epeBuffer loc;
     _qlocContext := c; _epeContext := _epeContext loc;
     _conf := _conf loc; _antennaPowerPin := _antennaPowerPin loc;
     _modemType := _modemType loc; _reqid := _reqid loc |}.

Definition set_epe (buf : string) (c : EpeContext) (loc : SomLocation)
  : SomLocation :=
  {| _commandQueue := _commandQueue loc;
     _responseQueue := _responseQueue loc;
     _acquiring := _acquiring loc;
     _locBuffer := _locBuffer loc; _epeBuffer := buf;
     _qlocContext := _qlocContext loc; _epeContext := c;
     _conf := _conf loc; _antennaPowerPin := _antennaPowerPin loc;
     _modemType := _modemType loc; _reqid := _reqid loc |}.

Definition set_conf (c : LocationConfiguration) (loc : SomLocation)
  : SomLocation :=
  {| _commandQueue := _commandQueue loc;
     _responseQueue := _responseQueue loc;
     _acquiring := _acquiring loc;
     _locBuffer := _locBuffer loc; _epeBuffer := _epeBuffer loc;
     _qlocContext := _qlocContext loc; _epeContext := _epeContext loc;
     _conf := c; _antennaPowerPin := _antennaPowerPin loc;
     _modemType := _modemType loc; _reqid := _reqid loc |}.

Definition set_antennaPowerPin (pin : Z) (loc : SomLocation) : SomLocation :=
  {| _commandQueue := _commandQueue loc;
     _responseQueue := _responseQueue loc;
     _acquiring := _acquiring loc;
     _locBuffer := _locBuffer loc; _epeBuffer := _epeBuffer loc;
     _qlocContext := _qlocContext loc; _epeContext := _epeContext loc;
     _conf := _conf loc; _antennaPowerPin := pin;
     _modemType := _modemType loc; _reqid := _reqid loc |}.

Definition set_modemType (m : ModemType.t) (loc : SomLocation) : SomLocation :=
  {| _commandQueue := _commandQueue loc;
     _responseQueue := _responseQueue loc;
     _acquiring := _acquiring loc;
     _locBuffer := _locBuffer loc; _epeBuffer := _epeBuffer loc;
     _qlocContext := _qlocContext loc; _epeContext := _epeContext loc;
     _conf := _conf loc; _antennaPowerPin := _antennaPowerPin loc;
     _modemType := m; _reqid := _reqid loc |}.

Definition set_reqid (n : Z) (loc : SomLocation) : SomLocation :=
  {| _commandQueue := _commandQueue loc;
     _responseQueue := _responseQueue loc;
     _acquiring := _acquiring loc;
     _locBuffer := _locBuffer loc; _epeBuffer := _epeBuffer loc;
     _qlocContext := _qlocContext loc; _epeContext := _epeContext loc;
     _conf := _conf loc; _antennaPowerPin := _antennaPowerPin loc;
     _modemType := _modemType loc; _reqid := n |}.

(** What [cellular_device_info] reports in [celldev.dev], as far as
    [detectModemType] tells the values apart: 0, the BG95-M5, any other. *)
Inductive CellularDev := DEV_UNKNOWN | DEV_QUECTEL_BG95_M5 | DEV_OTHER.

(** What one call of the public interface reads from outside the engine.
    [arrival] is the next item another thread puts in the queue the call
    waits on, with the time in milliseconds from the start of the wait to
    that moment. *)
Record Env := {
  isModemOn : bool;
  dev : CellularDev;
  isConnected : bool;
  published : bool;
  arrival : option (Z * LocationResults.t)
}.

(** [os_queue_put] with a zero timeout on a queue of one slot. *)
Definition os_queue_put {A : Type} (q : list A) (item : A) : list A :=
  match q with
  | [] => [item]
  | _ => q
  end.

(** [os_queue_take] with [timeout] milliseconds: the time the caller was
    blocked, the item if there was one in time, and the queue afterwards.
    An item already queued is taken at once. *)
Definition os_queue_take {A : Type} (q : list A) (arrival : option (Z * A))
  (timeout : Z) : Z * option A * list A :=
  match q with
  | item :: q' => (0, Some item, q')
  | [] =>
      match arrival with
      | Some (t, item) =>
          if t <=? timeout then (t, Some item, []) else (timeout, None, [])
      | None => (timeout, None, [])
      end
  end.

(** The timeout value under which [os_queue_take] blocks without limit. *)
Definition CONCURRENT_WAIT_FOREVER : Z := UINT_MAX.

Definition modemNotDetected (loc : SomLocation) : bool :=
  ModemType.eqb ModemType.Unavailable (_modemType loc).

Definition detectModemType (env : Env) (loc : SomLocation)
  : bool * SomLocation :=
  if modemNotDetected loc && isModemOn env then
    match dev env with
    | DEV_UNKNOWN => (false, loc)
    | DEV_QUECTEL_BG95_M5 => (true, set_modemType ModemType.BG95_M5 loc)
    | DEV_OTHER => (false, set_modemType ModemType.Unsupported loc)
    end
  else if negb (modemNotDetected loc)
          && negb (ModemType.eqb ModemType.Unsupported (_modemType loc))
  then (true, loc)
  else (false, loc).

(** The number [setConstellationBg95] puts in its AT command. *)
Definition setConstellationBg95 (flags : Z) : Z :=
  if negb (Z.land flags LOCATION_CONST_GPS_ONLY =? 0)
     || negb (Z.land flags LOCATION_CONST_GPS_GLONASS =? 0) then 1
  else if negb (Z.land flags LOCATION_CONST_GPS_BEIDOU =? 0) then 2
  else if negb (Z.land flags LOCATION_CONST_GPS_GALILEO =? 0) then 3
  else if negb (Z.land flags LOCATION_CONST_GPS_QZSS =? 0) then 4
  else 1.

Definition begin (env : Env) (configuration : LocationConfiguration)
  (loc : SomLocation) : Z * SomLocation :=
  let loc := set_conf (assign (_conf loc) configuration) loc in
  let loc := set_antennaPowerPin (enableAntennaPower (_conf loc)) loc in
  let loc :=
    if isModemOn env && modemNotDetected loc
    then snd (detectModemType env loc)
    else loc in
  (0, loc).

Definition waitOnResponseEvent (arrival : option (Z * LocationResults.t))
  (timeout : Z) (loc : SomLocation) : Z * LocationResults.t * SomLocation :=
  let '(elapsed, ret, q) := os_queue_take (_responseQueue loc) arrival timeout in
  match ret with
  | Some event => (elapsed, event, set_responseQueue q loc)
  | None => (elapsed, LocationResults.Idle, set_responseQueue q loc)
  end.

(** What a call of [getLocation] leaves: its return value, the engine, and
    the time the caller was blocked in the call. *)
Record Call := {
  result : LocationResults.t;
  after : SomLocation;
  waited : Z
}.

(** The timeout of the blocking wait:
    [(system_tick_t)_conf.maximumFixTime() * 1000 + LOCATION_PERIOD_ACQUIRE_MS]. *)
Definition response_timeout (loc : SomLocation) : Z :=
  u32 (u32 (u32 (maximumFixTime (_conf loc)) * 1000)
       + LOCATION_PERIOD_ACQUIRE_MS).

(** [getLocation(point, publish)], the synchronous overload. The engine
    returned is the one this call leaves; what the worker does to it while
    the caller waits is the worker's own step. *)
Definition getLocation (env : Env) (point : nat) (publish : bool)
  (loc : SomLocation) : Call :=
  if negb (isModemOn env) then
    {| result := LocationResults.Unavailable; after := loc; waited := 0 |}
  else
    let '(detected, loc) :=
      if modemNotDetected loc then detectModemType env loc else (true, loc) in
    if negb detected then
      {| result := LocationResults.Unsupported; after := loc; waited := 0 |}
    else if _acquiring loc then
      {| result := LocationResults.Pending; after := loc; waited := 0 |}
    else
      let event :=
        {| command := LocationCommand.Acquire; point := Some point;
           sendResponse := true; doneCallback := None; publish := false |} in
      let loc := set_commandQueue (os_queue_put (_commandQueue loc) event) loc in
      let '(elapsed, result, loc) :=
        waitOnResponseEvent (arrival env) (response_timeout loc) loc in
      let loc :=
        if publish && LocationResults.eqb LocationResults.Fixed result
           && isConnected env
        then if published env then set_reqid (u32 (_reqid loc + 1)) loc
             else loc
        else loc in
      {| result := result; after := loc; waited := elapsed |}.

(** [getLocation(point, callback, publish)], the asynchronous overload. *)
Definition getLocation_callback (env : Env) (point : nat)
  (callback : LocationDone) (publish : bool) (loc : SomLocation) : Call :=
  if negb (isModemOn env) then
    {| result := LocationResults.Unavailable; after := loc; waited := 0 |}
  else
    let '(detected, loc) :=
      if modemNotDetected loc then detectModemType env loc else (true, loc) in
    if negb detected then
      {| result := LocationResults.Unsupported; after := loc; waited := 0 |}
    else if _acquiring loc then
      {| result := LocationResults.Pending; after := loc; waited := 0 |}
    else
      let event :=
        {| command := LocationCommand.Acquire; point := Some point;
           sendResponse := false; doneCallback := callback;
           publish := publish |} in
      let loc := set_commandQueue (os_queue_put (_commandQueue loc) event) loc in
      {| result := LocationResults.Acquiring; after := loc; waited := 0 |}.

Definition getStatus (loc : SomLocation) : LocationResults.t :=
  if _acquiring loc then LocationResults.Acquiring else LocationResults.Idle.

(** ** [location.cpp]: the acquisition worker *)

(** What one pass of the polling loop of [threadLoop] reads from outside:
    [power] is [isModemOn()] in the loop condition, [now] the reading of
    [System.millis()] that follows, [locLines] and [epeLines] the reply
    lines the two AT commands hand to their callbacks, [fixMillis] and
    [timeNow] the readings of [System.millis()] and [Time.now()] taken at
    the first fix. *)
Record Cycle := {
  power : bool;
  now : Z;
  locLines : list ReplyLine;
  fixMillis : Z;
  timeNow : Z;
  epeLines : list ReplyLine
}.

(** The engine, the caller's point [*event.point], and the locals
    [fixCount] and [firstFix] between two passes of the loop. *)
Record LoopState := {
  eng : SomLocation;
  pt : LocationPoint;
  fixCount : Z;
  firstFix : Z
}.

Definition set_systemTime (v : Z) (p : LocationPoint) : LocationPoint :=
  {| fix_ := fix_ p; epochTime := epochTime p; systemTime := v;
     latitude := latitude p; longitude := longitude p;
     altitude := altitude p; speed := speed p; heading := heading p;
     horizontalAccuracy := horizontalAccuracy p;
     horizontalDop := horizontalDop p;
     verticalAccuracy := verticalAccuracy p; verticalDop := verticalDop p;
     timeToFirstFix := timeToFirstFix p; satsInUse := satsInUse p |}.

Definition set_timeToFirstFix (v : float) (p : LocationPoint) : LocationPoint :=
  {| fix_ := fix_ p; epochTime := epochTime p; systemTime := systemTime p;
     latitude := latitude p; longitude := longitude p;
     altitude := altitude p; speed := speed p; heading := heading p;
     horizontalAccuracy := horizontalAccuracy p;
     horizontalDop := horizontalDop p;
     verticalAccuracy := verticalAccuracy p; verticalDop := verticalDop p;
     timeToFirstFix := v; satsInUse := satsInUse p |}.

(** A command with a callback: each reply line goes through the callback,
    which rewrites the buffer. *)
Definition command_with (cb : RespType -> string -> Z -> string -> string)
  (lines : list ReplyLine) (buffer : string) : string :=
  fold_left (fun b (l : ReplyLine) => let '(type, buf, len) := l in cb type buf len b)
            lines buffer.

(** The test that ends the loop with [Fixed]. *)
Definition fix_settled (ret : CME_Error.t) (fixCount : Z)
  (point : LocationPoint) (conf : LocationConfiguration) : bool :=
  CME_Error.eqb CME_Error.FIX ret
  && (LOCATION_REQUIRED_SETTLING_COUNT =? fixCount)
  && F32.leb (horizontalDop point) (F32.of_Z (hdopThreshold conf))
  && F32.leb (horizontalAccuracy point) (haccThreshold conf).

(** One pass of [while ((power = isModemOn()))]. The first component is
    [Some (response, power)] when the pass leaves the loop. *)
Definition poll_cycle (start maxTime : Z) (c : Cycle) (st : LoopState)
  : option (LocationResults.t * bool) * LoopState :=
  if negb (power c) then (Some (LocationResults.TimedOut, false), st)
  else if maxTime <=? u64 (now c - start) then
    (Some (LocationResults.TimedOut, true), st)
  else
    let loc := eng st in
    let locBuffer := command_with glocCallback (locLines c) (_locBuffer loc) in
    let '(ret, qctx, point) :=
      parseQlocResponse locBuffer (_qlocContext loc) (pt st) in
    let loc := set_loc locBuffer qctx loc in
    let isfix := CME_Error.eqb CME_Error.FIX ret in
    let fixCount := if isfix then s32 (fixCount st + 1) else fixCount st in
    let first := isfix && (0 =? firstFix st) in
    let firstFix := if first then fixMillis c else firstFix st in
    let point := if first then set_systemTime (timeNow c) point else point in
    let '(loc, point) :=
      if ModemType.eqb ModemType.BG95_M5 (_modemType loc) then
        let epeBuffer := command_with epeCallback (epeLines c) (_epeBuffer loc) in
        let '(ectx, point) := parseEpeResponse epeBuffer (_epeContext loc) point in
        (set_epe epeBuffer ectx loc, point)
      else (loc, point) in
    let st' := {| eng := loc; pt := point;
                  fixCount := fixCount; firstFix := firstFix |} in
    if fix_settled ret fixCount point (_conf loc) then
      (Some (LocationResults.Fixed, true), st')
    else (None, st').

Inductive loop_result :=
| Stopped (response : LocationResults.t) (power : bool) (st : LoopState)
| Running (st : LoopState).

(** The loop over the passes the environment describes; [Running] when
    the loop has not ended by the last of them. *)
Fixpoint poll_loop (start maxTime : Z) (cycles : list Cycle) (st : LoopState)
  : loop_result :=
  match cycles with
  | [] => Running st
  | c :: rest =>
      match poll_cycle start maxTime c st with
      | (Some (response, power), st') => Stopped response power st'
      | (None, st') => poll_loop start maxTime rest st'
      end
  end.

(** What one acquisition reads from outside: the reading of
    [System.millis()] before the loop, the passes of the loop, and the
    connectivity and publish results of the asynchronous completion. *)
Record AcquireEnv := {
  start : Z;
  cycles : list Cycle;
  connected : bool;
  publish_ok : bool
}.

(** What one acquisition leaves: the response, the engine, the caller's
    point, and the callback invoked with its argument, if any. *)
Record Completion := {
  response : LocationResults.t;
  engine : SomLocation;
  fixed_point : LocationPoint;
  called : option (nat * LocationResults.t)
}.

(** The response after the loop: a modem that lost power without a fix is
    [Unavailable]. *)
Definition final_response (response : LocationResults.t) (power : bool)
  : LocationResults.t :=
  if negb power && negb (LocationResults.eqb LocationResults.Fixed response)
  then LocationResults.Unavailable
  else response.

(** [(float)(firstFix - start) / 1000.0] *)
Definition ttff (firstFix start : Z) : float :=
  narrow (F64.div (widen (F32.of_Z (u64 (firstFix - start)))) (F64.of_Z 1000)).

(** [case LocationCommand::Acquire] of [threadLoop]; [None] when the
    passes given do not bring the loop to its end. *)
Definition acquire (env : AcquireEnv) (event : LocationCommandContext)
  (point : LocationPoint) (loc : SomLocation) : option Completion :=
  let loc := set_acquiring true loc in
  let maxTime := u64 (u32 (maximumFixTime (_conf loc)) * 1000) in
  match poll_loop (start env) maxTime (cycles env)
          {| eng := loc; pt := point; fixCount := 0; firstFix := 0 |} with
  | Running _ => None
  | Stopped response power st =>
      let response := final_response response power in
      let point :=
        if firstFix st =? 0 then pt st
        else set_timeToFirstFix (ttff (firstFix st) (start env)) (pt st) in
      let loc := eng st in
      let '(loc, called) :=
        if sendResponse event then
          (set_responseQueue (os_queue_put (_responseQueue loc) response) loc,
           None)
        else
          match doneCallback event with
          | Some cb =>
              let loc :=
                if publish event
                   && LocationResults.eqb LocationResults.Fixed response
                   && connected env
                then if publish_ok env
                     then set_reqid (u32 (_reqid loc + 1)) loc
                     else loc
                else loc in
              (loc, Some (cb, response))
          | None => (loc, None)
          end in
      Some {| response := response;
              engine := set_acquiring false loc;
              fixed_point := point;
              called := called |}
  end.

Definition waitOnCommandEvent (arrival : option (Z * LocationCommandContext))
  (timeout : Z) (loc : SomLocation) : LocationCommandContext * SomLocation :=
  let '(_, ret, q) := os_queue_take (_commandQueue loc) arrival timeout in
  match ret with
  | Some event => (event, set_commandQueue q loc)
  | None => (empty_command, set_commandQueue q loc)
  end.

(** One turn of the outer loop of [threadLoop] on the command it finds:
    whether the loop goes on, and what an acquisition left. [point] is the
    caller's point behind [event.point]. *)
Definition threadLoop_turn (arrival : option (Z * LocationCommandContext))
  (env : AcquireEnv) (point : LocationPoint) (loc : SomLocation)
  : option (bool * SomLocation * option Completion) :=
  let '(event, loc) := waitOnCommandEvent arrival LOCATION_PERIOD_SUCCESS_MS loc in
  match command event with
  | LocationCommand.None => Some (true, loc, None)
  | LocationCommand.Acquire =>
      match acquire env event point loc with
      | Some done => Some (true, engine done, Some done)
      | None => None
      end
  | LocationCommand.Exit => Some (false, loc, None)
  end.

(** ** Vocabulary of the statements *)

(** The text in [_locBuffer] once the reply lines of a pass went through
    [glocCallback], and what [parseQlocResponse] returns on it. *)
Definition pass_reply (c : Cycle) (st : LoopState) : string :=
  command_with glocCallback (locLines c) (_locBuffer (eng st)).

Definition pass_decode (c : Cycle) (st : LoopState) : CME_Error.t :=
  fst (fst (parseQlocResponse (pass_reply c st) (_qlocContext (eng st)) (pt st))).

(** The two quality thresholds on the point of a loop state, both
    inclusive. *)
Definition hdop_met (st : LoopState) : bool :=
  F32.leb (horizontalDop (pt st)) (F32.of_Z (hdopThreshold (_conf (eng st)))).

Definition hacc_met (st : LoopState) : bool :=
  F32.leb (horizontalAccuracy (pt st)) (haccThreshold (_conf (eng st))).

Definition stops_fixed (out : option (LocationResults.t * bool)) : bool :=
  match out with
  | Some (LocationResults.Fixed, _) => true
  | _ => false
  end.

(** A pass that leaves the loop before it polls: the modem is off, or the
    time of the attempt is used up. *)
Definition pass_ends (start maxTime : Z) (c : Cycle) : bool :=
  negb (power c) || (maxTime <=? u64 (now c - start)).

(** The loop state and the time limit an acquisition starts with. *)
Definition attempt_start (point : LocationPoint) (loc : SomLocation)
  : LoopState :=
  {| eng := set_acquiring true loc; pt := point;
     fixCount := 0; firstFix := 0 |}.

Definition attempt_maxTime (loc : SomLocation) : Z :=
  u64 (u32 (maximumFixTime (_conf loc)) * 1000).

(** Texts of a device error: white space, digits, the value of a run of
    digits. *)
Fixpoint all_space (s : string) : bool :=
  match s with
  | EmptyString => true
  | String c s' => Scan.isspace c && all_space s'
  end.

Fixpoint all_digits (s : string) : bool :=
  match s with
  | EmptyString => true
  | String c s' => Scan.isdigit c && all_digits s'
  end.

Fixpoint decimal (acc : Z) (s : string) : Z :=
  match s with
  | EmptyString => acc
  | String c s' => decimal (10 * acc + Scan.digit_val c) s'
  end.

Definition starts_with_digit (s : string) : bool :=
  match s with
  | String c _ => Scan.isdigit c
  | EmptyString => false
  end.

(** The fault that carries a device code: the enumerator of that value for
    the six known codes, [UNDEFINED] for every other. *)
Definition fault_of_code (n : Z) : CME_Error.t :=
  if (n =? 504) || (n =? 505) || (n =? 506) || (n =? 516) || (n =? 522)
     || (n =? 549)
  then
    if n =? 504 then CME_Error.SESSION_IS_ONGOING
    else if n =? 505 then CME_Error.SESSION_NOT_ACTIVE
    else if n =? 506 then CME_Error.OPERATION_TIMEOUT
    else if n =? 516 then CME_Error.NO_FIX
    else if n =? 522 then CME_Error.GNSS_IS_WORKING
    else CME_Error.UNKNOWN_ERROR
  else CME_Error.UNDEFINED.

(** [departs p t]: the text [t] has, at some position, a character other
    than the one the pattern [p] has there, and agrees with [p] before. *)
Inductive departs : string -> string -> Prop :=
| departs_here (c d : ascii) (p t : string) :
    c <> d -> departs (String c p) (String d t)
| departs_later (c : ascii) (p t : string) :
    departs p t -> departs (String c p) (String c t).

Definition starts_with_space (s : string) : bool :=
  match s with
  | String c _ => Scan.isspace c
  | EmptyString => false
  end.

(** The replies [parseCmeError] is specified on, each with the fault it is
    to give: a text that is, after white space, [+CME ERROR:] and a decimal
    code; and the texts that depart from the pattern: in [+CME], in
    [ERROR:], or by a character that cannot begin a number. *)
Inductive cme_reply : string -> CME_Error.t -> Prop :=
| reply_code (ws1 ws2 ws3 digits rest : string) :
    all_space ws1 = true -> all_space ws2 = true -> all_space ws3 = true ->
    all_digits digits = true -> digits <> EmptyString ->
    starts_with_digit rest = false ->
    cme_reply (ws1 ++ "+CME" ++ ws2 ++ "ERROR:" ++ ws3 ++ digits ++ rest)%string
              (fault_of_code (decimal 0 digits))
| reply_departs_head (ws1 t : string) :
    all_space ws1 = true -> starts_with_space t = false ->
    departs "+CME" t ->
    cme_reply (ws1 ++ t)%string CME_Error.NONE
| reply_departs_tail (ws1 ws2 t : string) :
    all_space ws1 = true -> all_space ws2 = true ->
    starts_with_space t = false -> departs "ERROR:" t ->
    cme_reply (ws1 ++ "+CME" ++ ws2 ++ t)%string CME_Error.NONE
| reply_no_number (ws1 ws2 ws3 : string) (c : ascii) (t : string) :
    all_space ws1 = true -> all_space ws2 = true -> all_space ws3 = true ->
    Scan.isspace c = false -> Scan.isdigit c = false ->
    Scan.is_sign c = false ->
    cme_reply (ws1 ++ "+CME" ++ ws2 ++ "ERROR:" ++ ws3 ++ String c t)%string
              CME_Error.NONE.

(** The directives of a run of ordinary characters. *)
Fixpoint lits (p : string) : list Scan.directive :=
  match p with
  | EmptyString => []
  | String c p' => Scan.DLit c :: lits p'
  end.

(** The exact value of a heading. *)
Definition heading_exact (degrees minutes : Z) : Q :=
  (inject_Z degrees + inject_Z minutes / 60)%Q.

Definition heading_close (degrees minutes : Z) : bool :=
  match Qcompare (Qabs (SF2Q (qloc_heading degrees minutes)
                        - heading_exact degrees minutes)) (1 # 32768) with
  | Gt => false
  | _ => true
  end.

Definition range (a n : nat) : list Z := map Z.of_nat (seq a n).

(** Whether the cumulative day count of [mktime] and the era arithmetic
    agree on the first day of a month of the years 2000 to 2099. *)
Definition month_start_agrees (yy mm : Z) : bool :=
  Calendar.mktime
    {| Calendar.tm_sec := 0; Calendar.tm_min := 0; Calendar.tm_hour := 0;
       Calendar.tm_mday := 1; Calendar.tm_mon := mm - 1;
       Calendar.tm_year := yy + 100 |}
  =? Calendar.utc_epoch (2000 + yy) mm 1 0 0 0.

(** The UTC fields of a parsed reply are those of a date of this century. *)
Definition utc_fields_ok (c : QlocContext.t) : Prop :=
  0 <= QlocContext.tm_year c <= 99 /\
  1 <= QlocContext.tm_month c <= 12 /\
  0 <= QlocContext.tm_day c <= 99 /\
  0 <= QlocContext.tm_hour c <= 99 /\
  0 <= QlocContext.tm_min c <= 99 /\
  0 <= QlocContext.tm_sec c <= 99.

(** ** Replies and runs used as concrete inputs *)

Definition crlf : string :=
  String (ascii_of_nat 13) (String (ascii_of_nat 10) EmptyString).

(** A reply line as the driver hands it over, [len] being its length. *)
Definition line (type : RespType) (s : string) : ReplyLine :=
  (type, s, Z.of_nat (String.length s)).

(** A position reply: 11 May 2013, 06:19:51 UTC, course 45 degrees 30
    minutes, 36 km/h. *)
Definition reply_fix : string :=
  "+QGPSLOC: 061951.000,41.12345,-87.54321,0.7,62.2,3,045.30,36.0,19.4,110513,09".

Definition reply_nofix : string := "+CME ERROR: 516".

(** A position reply cut short after the latitude. *)
Definition reply_short : string := "+QGPSLOC: 061951.000,41.12345".

(** A registration notice, as a modem sends unasked. *)
Definition reply_urc : string := "+CREG: 1,5".

Definition reply_epe (h_acc : string) : string :=
  ("+QGPSCFG: " ++ dquote ++ "estimation_error" ++ dquote ++ ","
   ++ h_acc ++ ",7.5,0.1,0.2")%string.

(** A pass at time [t] with the modem on and one line for each command. *)
Definition pass (t : Z) (loc_reply epe_reply : string) : Cycle :=
  {| power := true; now := t;
     locLines := [line TYPE_PLUS (loc_reply ++ crlf)%string];
     fixMillis := t + 300; timeNow := 1700000000;
     epeLines := [line TYPE_PLUS (epe_reply ++ crlf)%string] |}.

(** A pass that finds the modem off. *)
Definition pass_off (t : Z) : Cycle :=
  {| power := false; now := t; locLines := []; fixMillis := t;
     timeNow := 0; epeLines := [] |}.

(** An engine on a BG95-M5 with the default configuration. *)
Definition engine_bg95 : SomLocation :=
  set_modemType ModemType.BG95_M5 SomLocation_new.

Definition blocking_event : LocationCommandContext :=
  {| command := LocationCommand.Acquire; sendResponse := true;
     doneCallback := None; publish := false; point := Some 0%nat |}.

(** Two fixes with an accuracy of 80 m, above the threshold of 50 m. *)
Definition passes_unsettled : list Cycle :=
  [pass 1000 reply_fix (reply_epe "80.0");
   pass 2100 reply_fix (reply_epe "80.0")].

(** Then a pass without a fix while the accuracy estimate drops to 5 m. *)
Definition pass_nofix_accurate : Cycle :=
  pass 3200 reply_nofix (reply_epe "5.0").

(** Then a third fix with every threshold met. *)
Definition pass_third_fix : Cycle :=
  pass 3200 reply_fix (reply_epe "5.0").

Definition env_calm : Env :=
  {| isModemOn := true; dev := DEV_QUECTEL_BG95_M5; isConnected := true;
     published := true; arrival := None |}.

Definition env_modem_off : Env :=
  {| isModemOn := false; dev := DEV_QUECTEL_BG95_M5; isConnected := true;
     published := true; arrival := None |}.

(** A configuration that asks for 10 m of horizontal accuracy. *)
Definition config_hacc10 : LocationConfiguration :=
  set_haccThreshold (F32.of_Z 10) LocationConfiguration_default.

(** An engine in the middle of an acquisition. *)
Definition engine_busy : SomLocation := set_acquiring true engine_bg95.

(** The preconditions of [getLocation]: the modem is on and its model is
    known, or is found to be a supported one by the call itself. *)
Definition modem_ready (env : Env) (loc : SomLocation) : bool :=
  isModemOn env
  && (if modemNotDetected loc then fst (detectModemType env loc) else true).

(** No response reaches the caller within [timeout]: the response queue is
    empty and no response arrives in that time. *)
Definition no_delivery (env : Env) (loc : SomLocation) (timeout : Z) : bool :=
  match _responseQueue loc, arrival env with
  | [], None => true
  | [], Some (t, _) => timeout <? t
  | _ :: _, _ => false
  end.

(** An environment in which the worker answers after two seconds. *)
Definition env_answer : Env :=
  {| isModemOn := true; dev := DEV_QUECTEL_BG95_M5; isConnected := true;
     published := true; arrival := Some (2000, LocationResults.Fixed) |}.

(** Equality of two floating-point values as data. *)
Definition sf_eqb (x y : spec_float) : bool :=
  match x, y with
  | S754_zero s, S754_zero s' => Bool.eqb s s'
  | S754_infinity s, S754_infinity s' => Bool.eqb s s'
  | S754_nan, S754_nan => true
  | S754_finite s m e, S754_finite s' m' e' =>
      Bool.eqb s s' && Pos.eqb m m' && (e =? e')
  | _, _ => false
  end.

(** Whether the speed stored for a whole number of km/h is a thousand
    times that number. *)
Definition speed_is_thousandfold (kmh : Z) : bool :=
  sf_eqb (qloc_speed (F32.of_Z kmh)) (F32.of_Z (1000 * kmh)).

(** The speed in m/s of a speed in km/h, the factor being [1000/3600]. *)
Definition mps_of_kmph (speedKmph : float) : float :=
  narrow (F64.mul (widen speedKmph)
                  (F64.div (F64.of_Z 1000) (F64.of_Z 3600))).

(** The state a loop result carries. *)
Definition state_of (r : loop_result) : LoopState :=
  match r with
  | Stopped _ _ st => st
  | Running st => st
  end.

(** The loop state after [passes_unsettled], from an empty point on
    [engine_bg95] with the clock at 1000 ms: two fixes counted, the
    accuracy of 80 m above its threshold. *)
Definition state_unsettled : LoopState :=
  state_of (poll_loop 1000 90000 passes_unsettled
              (attempt_start empty_point engine_bg95)).

(** The loop state after one fix with an accuracy of 5 m. *)
Definition state_first_fix : LoopState :=
  state_of (poll_loop 1000 90000 [pass 1000 reply_fix (reply_epe "5.0")]
              (attempt_start empty_point engine_bg95)).

(** A second fix with an accuracy of 5 m. *)
Definition pass_second_fix : Cycle := pass 2100 reply_fix (reply_epe "5.0").

(** An attempt of three fixes of which only the third meets the accuracy
    threshold, a fourth good fix, and then the loss of modem power. *)
Definition env_late_accuracy : AcquireEnv :=
  {| start := 1000;
     cycles := (passes_unsettled ++ [pass_third_fix])
               ++ [pass 4300 reply_fix (reply_epe "5.0"); pass_off 5400];
     connected := true; publish_ok := true |}.

(** The kind of value a conversion stores, and the conversions of a
    format that store one, in order. *)
Definition arg_of_conv (c : Scan.conv) (a : Scan.arg) : bool :=
  match c, a with
  | Scan.ConvU, Scan.ArgU _ | Scan.ConvF, Scan.ArgF _
  | Scan.ConvLF, Scan.ArgD _ => true
  | _, _ => false
  end.

Fixpoint targets (ds : list Scan.directive) : list Scan.conv :=
  match ds with
  | [] => []
  | Scan.DConv false _ c :: ds' => c :: targets ds'
  | _ :: ds' => targets ds'
  end.

(** The fields of a position reply, read onto an empty context. *)
Definition reply_fields (buf : string) : QlocContext.t :=
  store_qloc (snd (Scan.sscanf buf QLOC_FORMAT)) QlocContext.empty.

(** A context left by an earlier reply, and a point a caller filled. *)
Definition context_stale : QlocContext.t :=
  snd (fst (parseQloc
    "+QGPSLOC: 235959.000,-33.86785,151.20732,1.9,12.0,2,359.59,88.5,47.8,311299,04"
    QlocContext.empty empty_point)).

Definition point_stale : LocationPoint :=
  snd (parseQloc
    "+QGPSLOC: 235959.000,-33.86785,151.20732,1.9,12.0,2,359.59,88.5,47.8,311299,04"
    QlocContext.empty empty_point).

(** The check of [heading_close] over all courses of up to [nd] degrees,
    with each quotient of the minutes and each widened degree computed
    once. *)
Definition heading_check (w q : double) (degrees minutes : Z) : bool :=
  match Qcompare (Qabs (SF2Q (narrow (F64.add w q))
                        - heading_exact degrees minutes)) (1 # 32768) with
  | Gt => false
  | _ => true
  end.

Definition heading_table_ok (nd : nat) : bool :=
  let qs := map (fun m => (m, F64.div (widen (F32.of_Z m)) (F64.of_Z 60)))
                (range 0 60) in
  forallb (fun d =>
             let w := widen (F32.of_Z d) in
             forallb (fun p : Z * double => heading_check w (snd p) d (fst p))
                     qs)
          (range 0 nd).


(** The configurations a caller can build: the default one, changed by
    any of the five setters. *)
Inductive built : LocationConfiguration -> Prop :=
| built_default : built LocationConfiguration_default
| built_constellations (v : Z) (c : LocationConfiguration) :
    built c -> built (set_constellations v c)
| built_enableAntennaPower (pin : Z) (c : LocationConfiguration) :
    built c -> built (set_enableAntennaPower pin c)
| built_hdopThreshold (hdop : Z) (c : LocationConfiguration) :
    built c -> built (set_hdopThreshold hdop c)
| built_haccThreshold (hacc : float) (c : LocationConfiguration) :
    built c -> built (set_haccThreshold hacc c)
| built_maximumFixTime (fixSeconds : Z) (c : LocationConfiguration) :
    built c -> built (set_maximumFixTime fixSeconds c).

(** The engine once [getLocation] has looked for the modem model. *)
Definition after_detection (env : Env) (loc : SomLocation) : SomLocation :=
  if modemNotDetected loc then snd (detectModemType env loc) else loc.

(** The commands the two overloads of [getLocation] put in the queue. *)
Definition blocking_command (point : nat) : LocationCommandContext :=
  {| command := LocationCommand.Acquire; point := Some point;
     sendResponse := true; doneCallback := None; publish := false |}.

Definition callback_command (point : nat) (callback : LocationDone)
  (publish : bool) : LocationCommandContext :=
  {| command := LocationCommand.Acquire; point := Some point;
     sendResponse := false; doneCallback := callback; publish := publish |}.

(** An environment whose modem is of a model the library does not know. *)
Definition env_other_modem : Env :=
  {| isModemOn := true; dev := DEV_OTHER; isConnected := true;
     published := true; arrival := None |}.

(** The members of the engine that the polling loop has no business with:
    [a] and [b] agree on the queues, the acquiring flag, the
    configuration, the antenna pin, the modem model and the publish
    sequence number. *)
Definition engine_frame (a b : SomLocation) : Prop :=
  _commandQueue a = _commandQueue b
  /\ _responseQueue a = _responseQueue b
  /\ _acquiring a = _acquiring b
  /\ _conf a = _conf b
  /\ _antennaPowerPin a = _antennaPowerPin b
  /\ _modemType a = _modemType b
  /\ _reqid a = _reqid b.

(** An attempt of two fixes that meet every threshold. *)
Definition env_settles : AcquireEnv :=
  {| start := 1000;
     cycles := [pass 1000 reply_fix (reply_epe "5.0"); pass_second_fix];
     connected := true; publish_ok := true |}.


Definition callback_event : LocationCommandContext :=
  callback_command 0%nat (Some 7%nat) true.

(** What [acquire] makes of the way its loop ended: the part of
    [case LocationCommand::Acquire] after the loop. *)
Definition completion_of (env : AcquireEnv) (event : LocationCommandContext)
  (response : LocationResults.t) (power : bool) (st : LoopState)
  : Completion :=
  let response := final_response response power in
  let point :=
    if firstFix st =? 0 then pt st
    else set_timeToFirstFix (ttff (firstFix st) (start env)) (pt st) in
  let loc := eng st in
  let '(loc, called) :=
    if sendResponse event then
      (set_responseQueue (os_queue_put (_responseQueue loc) response) loc,
       None)
    else
      match doneCallback event with
      | Some cb =>
          let loc :=
            if publish event
               && LocationResults.eqb LocationResults.Fixed response
               && connected env
            then if publish_ok env
                 then set_reqid (u32 (_reqid loc + 1)) loc
                 else loc
            else loc in
          (loc, Some (cb, response))
      | None => (loc, None)
      end in
  {| response := response;
     engine := set_acquiring false loc;
     fixed_point := point;
     called := called |}.


(** The engine at the moment an attempt delivers its response: the
    response has been put in the queue, or the callback is about to be
    invoked; the scope guard that clears [_acquiring] has not run yet.
    [None] when the loop has not ended or there is nobody to deliver to. *)
Definition engine_at_delivery (env : AcquireEnv)
  (event : LocationCommandContext) (point : LocationPoint) (loc : SomLocation)
  : option SomLocation :=
  match poll_loop (start env) (attempt_maxTime loc) (cycles env)
          (attempt_start point loc) with
  | Running _ => None
  | Stopped response power st =>
      let response := final_response response power in
      let loc := eng st in
      if sendResponse event then
        Some (set_responseQueue (os_queue_put (_responseQueue loc) response) loc)
      else
        match doneCallback event with
        | Some _ =>
            Some (if publish event
                     && LocationResults.eqb LocationResults.Fixed response
                     && connected env
                  then if publish_ok env
                       then set_reqid (u32 (_reqid loc + 1)) loc
                       else loc
                  else loc)
        | None => None
        end
  end.

(** * Theorems *)

(** ** Configuration *)

Lemma detectModemType_conf (env : Env) (loc : SomLocation) :
  _conf (snd (detectModemType env loc)) = _conf loc.
Proof.
  unfold detectModemType.
  destruct (modemNotDetected loc && isModemOn env).
  - destruct (dev env); reflexivity.
  - destruct (negb (modemNotDetected loc)
              && negb (ModemType.eqb ModemType.Unsupported (_modemType loc)));
      reflexivity.
Qed.

Lemma detectModemType_queue (env : Env) (loc : SomLocation) :
  _commandQueue (snd (detectModemType env loc)) = _commandQueue loc
  /\ _acquiring (snd (detectModemType env loc)) = _acquiring loc
  /\ _responseQueue (snd (detectModemType env loc)) = _responseQueue loc.
Proof.
  unfold detectModemType.
  destruct (modemNotDetected loc && isModemOn env).
  - destruct (dev env); repeat split; reflexivity.
  - destruct (negb (modemNotDetected loc)
              && negb (ModemType.eqb ModemType.Unsupported (_modemType loc)));
      repeat split; reflexivity.
Qed.

Lemma begin_conf (env : Env) (configuration : LocationConfiguration)
  (loc : SomLocation) :
  _conf (snd (begin env configuration loc)) = assign (_conf loc) configuration.
Proof.
  unfold begin; cbn [snd].
  match goal with
  | |- context [if ?b then _ else _] => destruct b
  end.
  - rewrite detectModemType_conf. reflexivity.
  - reflexivity.
Qed.

(** What [begin] stores whatever the engine held before: four options of
    the caller, and the accuracy threshold the engine already had. *)
Lemma begin_stores_four_of_five (env : Env)
  (configuration : LocationConfiguration) (loc : SomLocation) :
  let stored := _conf (snd (begin env configuration loc)) in
  constellations stored = constellations configuration
  /\ enableAntennaPower stored = enableAntennaPower configuration
  /\ hdopThreshold stored = hdopThreshold configuration
  /\ maximumFixTime stored = maximumFixTime configuration
  /\ haccThreshold stored = haccThreshold (_conf loc).
Proof.
  cbv zeta. rewrite begin_conf. repeat split; reflexivity.
Qed.

(** C2, at a failing input: [begin] on a fresh engine with a configuration
    whose accuracy threshold is 10 m leaves the default of 50 m in the
    stored configuration, while the four other options are the caller's. *)
Theorem C2_begin_drops_haccThreshold :
  let stored := _conf (snd (begin env_calm config_hacc10 SomLocation_new)) in
  haccThreshold config_hacc10 = F32.of_Z 10
  /\ haccThreshold stored = LocationHaccDefault
  /\ haccThreshold stored <> haccThreshold config_hacc10
  /\ constellations stored = constellations config_hacc10
  /\ enableAntennaPower stored = enableAntennaPower config_hacc10
  /\ hdopThreshold stored = hdopThreshold config_hacc10
  /\ maximumFixTime stored = maximumFixTime config_hacc10.
Proof.
  cbv zeta. rewrite begin_conf.
  repeat split; try reflexivity.
  vm_compute. discriminate.
Qed.

(** ** The coordinator *)

Lemma u32_le (x : Z) : 0 <= x -> u32 x <= x.
Proof.
  intros Hx. unfold u32. apply Z.mod_le; lia.
Qed.

Lemma u32_range (x : Z) : 0 <= u32 x <= UINT_MAX.
Proof.
  unfold u32, UINT_MAX.
  pose proof (Z.mod_pos_bound x (2 ^ 32) ltac:(lia)). lia.
Qed.

Lemma response_timeout_bound (loc : SomLocation) :
  0 <= maximumFixTime (_conf loc) ->
  0 <= response_timeout loc
       <= maximumFixTime (_conf loc) * 1000 + LOCATION_PERIOD_ACQUIRE_MS.
Proof.
  intros Hm. unfold response_timeout.
  set (m := maximumFixTime (_conf loc)) in *.
  pose proof (u32_range (u32 (u32 m * 1000) + LOCATION_PERIOD_ACQUIRE_MS)).
  pose proof (u32_le m Hm).
  pose proof (u32_range m).
  pose proof (u32_le (u32 m * 1000) ltac:(lia)).
  pose proof (u32_range (u32 m * 1000)).
  assert (0 <= LOCATION_PERIOD_ACQUIRE_MS) by (unfold LOCATION_PERIOD_ACQUIRE_MS; lia).
  pose proof (u32_le (u32 (u32 m * 1000) + LOCATION_PERIOD_ACQUIRE_MS) ltac:(lia)).
  lia.
Qed.

(** The timeout is a multiple of 8 and so never the value that makes
    [os_queue_take] wait without limit. *)
Lemma response_timeout_not_forever (loc : SomLocation) :
  response_timeout loc <> CONCURRENT_WAIT_FOREVER.
Proof.
  unfold response_timeout, CONCURRENT_WAIT_FOREVER, UINT_MAX,
    LOCATION_PERIOD_ACQUIRE_MS, u32.
  change (2 ^ 32) with 4294967296.
  set (c := maximumFixTime (_conf loc) mod 4294967296).
  intros H.
  pose proof (Z.mod_eq (c * 1000) 4294967296 ltac:(lia)) as E1.
  pose proof (Z.mod_eq ((c * 1000) mod 4294967296 + 1 * 1000) 4294967296
                ltac:(lia)) as E2.
  rewrite H in E2.
  generalize dependent ((c * 1000) mod 4294967296).
  intros b _ E1.
  generalize ((b + 1 * 1000) / 4294967296), (c * 1000 / 4294967296), E1.
  intros q1 q2 E1' E2. lia.
Qed.

Lemma os_queue_take_elapsed {A : Type} (q : list A) (arrival : option (Z * A))
  (timeout : Z) :
  0 <= timeout ->
  fst (fst (os_queue_take q arrival timeout)) <= timeout.
Proof.
  intros Ht. unfold os_queue_take.
  destruct q as [|x q]; cbn; [|lia].
  destruct arrival as [[t x]|]; cbn; [|lia].
  destruct (t <=? timeout) eqn:E; cbn; lia.
Qed.

Lemma waitOnResponseEvent_spec (env : Env) (timeout : Z) (loc : SomLocation) :
  0 <= timeout ->
  let '(elapsed, event, _) := waitOnResponseEvent (arrival env) timeout loc in
  elapsed <= timeout
  /\ (no_delivery env loc timeout = true ->
      event = LocationResults.Idle /\ elapsed = timeout).
Proof.
  intros Ht. unfold waitOnResponseEvent, os_queue_take, no_delivery.
  destruct (_responseQueue loc) as [|r q].
  - destruct (arrival env) as [[t r]|].
    + destruct (t <=? timeout) eqn:Et.
      * split; [apply Z.leb_le; exact Et|].
        intros Hn. apply Z.ltb_lt in Hn. apply Z.leb_le in Et. lia.
      * split; [lia|]. intros _. split; reflexivity.
    + split; [lia|]. intros _. split; reflexivity.
  - split; [exact Ht|discriminate].
Qed.

(** What a blocking call does once its preconditions hold and no
    acquisition is under way. *)
Lemma getLocation_dispatched (env : Env) (point : nat) (publish : bool)
  (loc : SomLocation) :
  modem_ready env loc = true ->
  _acquiring loc = false ->
  exists loc1,
    _conf loc1 = _conf loc /\ _responseQueue loc1 = _responseQueue loc
    /\ result (getLocation env point publish loc)
       = snd (fst (waitOnResponseEvent (arrival env) (response_timeout loc1) loc1))
    /\ waited (getLocation env point publish loc)
       = fst (fst (waitOnResponseEvent (arrival env) (response_timeout loc1) loc1)).
Proof.
  intros Hready Hacq.
  unfold modem_ready in Hready.
  apply andb_prop in Hready. destruct Hready as [Hon Hdet].
  pose proof (detectModemType_conf env loc) as Hconf.
  pose proof (detectModemType_queue env loc) as (_ & Hacq' & Hrq).
  unfold getLocation. rewrite Hon. cbn [negb].
  destruct (modemNotDetected loc).
  - destruct (detectModemType env loc) as [detected loc1] eqn:Edet.
    cbn [fst snd] in *. subst detected. cbn [negb].
    rewrite Hacq', Hacq.
    set (loc2 := set_commandQueue _ loc1).
    exists loc2. split; [exact Hconf|]. split; [exact Hrq|].
    destruct (waitOnResponseEvent (arrival env) (response_timeout loc2) loc2)
      as [[elapsed r] loc3].
    split; reflexivity.
  - cbn [negb]. rewrite Hacq.
    set (loc2 := set_commandQueue _ loc).
    exists loc2. split; [reflexivity|]. split; [reflexivity|].
    destruct (waitOnResponseEvent (arrival env) (response_timeout loc2) loc2)
      as [[elapsed r] loc3].
    split; reflexivity.
Qed.

(** C10: a blocking [getLocation] that passes its preconditions blocks the
    caller for at most the configured maximum fix time in milliseconds plus
    one poll interval, and when no response is delivered in the time it
    waits, it returns [Idle]. *)
Theorem C10_blocking_wait_bounded (env : Env) (point : nat) (publish : bool)
  (loc : SomLocation) :
  modem_ready env loc = true ->
  _acquiring loc = false ->
  0 <= maximumFixTime (_conf loc) ->
  let call := getLocation env point publish loc in
  waited call
    <= maximumFixTime (_conf loc) * 1000 + LOCATION_PERIOD_ACQUIRE_MS
  /\ (no_delivery env loc (response_timeout loc) = true ->
      result call = LocationResults.Idle
      /\ waited call = response_timeout loc).
Proof.
  intros Hready Hacq Hmax. cbv zeta.
  destruct (getLocation_dispatched env point publish loc Hready Hacq)
    as (loc1 & Hconf & Hrq & Hres & Hwait).
  rewrite Hres, Hwait.
  assert (Hsame : response_timeout loc1 = response_timeout loc).
  { unfold response_timeout. rewrite Hconf. reflexivity. }
  rewrite Hsame.
  pose proof (response_timeout_bound loc Hmax) as Hb.
  pose proof (waitOnResponseEvent_spec env (response_timeout loc) loc1
                (proj1 Hb)) as Hw.
  destruct (waitOnResponseEvent (arrival env) (response_timeout loc) loc1)
    as [[elapsed r] loc3].
  cbn [fst snd]. destruct Hw as [Hle Hidle].
  split; [lia|].
  intros Hn. apply Hidle.
  unfold no_delivery in *. rewrite Hrq. exact Hn.
Qed.

(** C10, at a concrete call: the default configuration (90 s), a worker
    that never answers. *)
Lemma C10_blocking_wait_bounded_witness :
  modem_ready env_calm engine_bg95 = true
  /\ _acquiring engine_bg95 = false
  /\ 0 <= maximumFixTime (_conf engine_bg95)
  /\ (waited (getLocation env_calm 0%nat false engine_bg95) <= 91000
      /\ (no_delivery env_calm engine_bg95 (response_timeout engine_bg95) = true ->
          result (getLocation env_calm 0%nat false engine_bg95)
            = LocationResults.Idle
          /\ waited (getLocation env_calm 0%nat false engine_bg95)
             = response_timeout engine_bg95)).
Proof.
  split; [reflexivity|]. split; [reflexivity|]. split; [discriminate|].
  apply (C10_blocking_wait_bounded env_calm 0%nat false engine_bg95).
  - reflexivity.
  - reflexivity.
  - discriminate.
Defined.

(** The outcome of the precondition checks of [getLocation] while an
    acquisition is under way. *)
Lemma getLocation_while_acquiring (env : Env) (point : nat) (publish : bool)
  (loc : SomLocation) :
  _acquiring loc = true ->
  let call := getLocation env point publish loc in
  _commandQueue (after call) = _commandQueue loc
  /\ _acquiring (after call) = true
  /\ waited call = 0
  /\ result call =
       (if negb (isModemOn env) then LocationResults.Unavailable
        else if modem_ready env loc then LocationResults.Pending
        else LocationResults.Unsupported).
Proof.
  intros Hacq. cbv zeta.
  pose proof (detectModemType_queue env loc) as (Hq & Hacq' & _).
  unfold getLocation, modem_ready.
  destruct (isModemOn env); cbn [negb andb].
  - destruct (modemNotDetected loc).
    + destruct (detectModemType env loc) as [detected loc1].
      cbn [fst snd] in *. destruct detected; cbn [negb].
      * rewrite Hacq', Hacq. cbn. repeat split; assumption || congruence.
      * cbn. repeat split; assumption || congruence.
    + cbn [negb]. rewrite Hacq. cbn. repeat split; assumption.
  - cbn. repeat split; assumption.
Qed.

Lemma getLocation_callback_while_acquiring (env : Env) (point : nat)
  (callback : LocationDone) (publish : bool) (loc : SomLocation) :
  _acquiring loc = true ->
  let call := getLocation_callback env point callback publish loc in
  _commandQueue (after call) = _commandQueue loc
  /\ _acquiring (after call) = true
  /\ waited call = 0
  /\ result call =
       (if negb (isModemOn env) then LocationResults.Unavailable
        else if modem_ready env loc then LocationResults.Pending
        else LocationResults.Unsupported).
Proof.
  intros Hacq. cbv zeta.
  pose proof (detectModemType_queue env loc) as (Hq & Hacq' & _).
  unfold getLocation_callback, modem_ready.
  destruct (isModemOn env); cbn [negb andb].
  - destruct (modemNotDetected loc).
    + destruct (detectModemType env loc) as [detected loc1].
      cbn [fst snd] in *. destruct detected; cbn [negb].
      * rewrite Hacq', Hacq. cbn. repeat split; assumption || congruence.
      * cbn. repeat split; assumption || congruence.
    + cbn [negb]. rewrite Hacq. cbn. repeat split; assumption.
  - cbn. repeat split; assumption.
Qed.

(** C8, as stated, fails: with the acquiring flag set and the modem off, a
    further call returns [Unavailable], not [Pending]. *)
Lemma C8_counterexample :
  _acquiring engine_busy = true
  /\ result (getLocation env_modem_off 0%nat false engine_busy)
     = LocationResults.Unavailable
  /\ result (getLocation_callback env_modem_off 0%nat (Some 7%nat) false engine_busy)
     = LocationResults.Unavailable
  /\ LocationResults.Unavailable <> LocationResults.Pending.
Proof.
  repeat split; try reflexivity. discriminate.
Qed.

(** C8, amended: while the acquiring flag is set, a further call of either
    overload returns at once, leaves the command queue as it found it (so
    the worker finds no second command and starts no second cycle) and
    leaves the flag set; it returns [Pending] when the modem preconditions
    hold, [Unavailable] when the modem is off, and [Unsupported] when the
    model is not a supported one. *)
Theorem C8_single_flight (env : Env) (point : nat) (callback : LocationDone)
  (publish : bool) (loc : SomLocation) :
  _acquiring loc = true ->
  let sync := getLocation env point publish loc in
  let async := getLocation_callback env point callback publish loc in
  let expected :=
    if negb (isModemOn env) then LocationResults.Unavailable
    else if modem_ready env loc then LocationResults.Pending
    else LocationResults.Unsupported in
  (result sync = expected /\ result async = expected)
  /\ (waited sync = 0 /\ waited async = 0)
  /\ (_commandQueue (after sync) = _commandQueue loc
      /\ _commandQueue (after async) = _commandQueue loc)
  /\ (_acquiring (after sync) = true /\ _acquiring (after async) = true)
  /\ (forall arrival timeout,
        fst (waitOnCommandEvent arrival timeout (after sync))
          = fst (waitOnCommandEvent arrival timeout loc)
        /\ fst (waitOnCommandEvent arrival timeout (after async))
          = fst (waitOnCommandEvent arrival timeout loc)).
Proof.
  intros Hacq. cbv zeta.
  destruct (getLocation_while_acquiring env point publish loc Hacq)
    as (Hq1 & Ha1 & Hw1 & Hr1).
  destruct (getLocation_callback_while_acquiring env point callback publish loc Hacq)
    as (Hq2 & Ha2 & Hw2 & Hr2).
  repeat split; try assumption.
  - unfold waitOnCommandEvent. rewrite Hq1.
    destruct (os_queue_take (_commandQueue loc) arrival0 timeout) as [[e r] q].
    destruct r; reflexivity.
  - unfold waitOnCommandEvent. rewrite Hq2.
    destruct (os_queue_take (_commandQueue loc) arrival0 timeout) as [[e r] q].
    destruct r; reflexivity.
Qed.

(** C8, at a concrete call: an engine in the middle of an acquisition, the
    modem on. *)
Lemma C8_single_flight_witness :
  _acquiring engine_busy = true
  /\ result (getLocation env_calm 0%nat true engine_busy)
     = LocationResults.Pending
  /\ result (getLocation_callback env_calm 0%nat (Some 7%nat) true engine_busy)
     = LocationResults.Pending
  /\ _commandQueue (after (getLocation env_calm 0%nat true engine_busy)) = []
  /\ _commandQueue
       (after (getLocation_callback env_calm 0%nat (Some 7%nat) true engine_busy))
     = [].
Proof.
  pose proof (C8_single_flight env_calm 0%nat (Some 7%nat) true engine_busy
                eq_refl) as H.
  cbv zeta in H.
  destruct H as ((Hr1 & Hr2) & _ & (Hq1 & Hq2) & _).
  split; [reflexivity|].
  split; [exact Hr1|]. split; [exact Hr2|].
  split; [exact Hq1|exact Hq2].
Defined.

(** ** The response parser *)

Lemma sf_eqb_eq (x y : spec_float) : sf_eqb x y = true -> x = y.
Proof.
  destruct x, y; cbn; try discriminate; try reflexivity.
  - intros H. apply Bool.eqb_prop in H. congruence.
  - intros H. apply Bool.eqb_prop in H. congruence.
  - intros H. apply andb_prop in H. destruct H as [H He].
    apply andb_prop in H. destruct H as [Hs Hm].
    apply Bool.eqb_prop in Hs. apply Pos.eqb_eq in Hm. apply Z.eqb_eq in He.
    congruence.
Qed.

Lemma range_forallb (f : Z -> bool) (a n : nat) :
  forallb f (range a n) = true ->
  forall z, Z.of_nat a <= z < Z.of_nat (a + n) -> f z = true.
Proof.
  intros H z Hz. rewrite forallb_forall in H. apply H.
  unfold range. apply in_map_iff. exists (Z.to_nat z). split.
  - lia.
  - apply in_seq. lia.
Qed.

(** [parseQloc] reports a failure only when [sscanf] returns 0, and then it
    leaves the point as it was. *)
Lemma parseQloc_result (buf : string) (context : QlocContext.t)
  (point : LocationPoint) :
  let nargs := fst (Scan.sscanf buf QLOC_FORMAT) in
  let '(ret, _, point') := parseQloc buf context point in
  (nargs = 0 -> ret = -1 /\ point' = point)
  /\ (nargs <> 0 -> ret = 0).
Proof.
  cbv zeta. unfold parseQloc.
  destruct (Scan.sscanf buf QLOC_FORMAT) as [nargs vals]. cbn [fst].
  destruct (nargs =? 0) eqn:E.
  - apply Z.eqb_eq in E. split; [intros _; split; reflexivity|congruence].
  - apply Z.eqb_neq in E. split; [congruence|reflexivity].
Qed.

(** The three branches of [parseQlocResponse]. *)
Lemma parseQlocResponse_branches (buf : string) (context : QlocContext.t)
  (point : LocationPoint) :
  (parseCmeError buf = CME_Error.NO_FIX ->
     parseQlocResponse buf context point
     = (CME_Error.NO_FIX, context, set_fix 0 point))
  /\ (parseCmeError buf <> CME_Error.NO_FIX ->
      parseCmeError buf <> CME_Error.NONE ->
      parseQlocResponse buf context point = (CME_Error.NONE, context, point))
  /\ (parseCmeError buf = CME_Error.NONE ->
      parseQlocResponse buf context point
      = (CME_Error.FIX, snd (fst (parseQloc buf context point)),
         snd (parseQloc buf context point))).
Proof.
  unfold parseQlocResponse.
  destruct (parseCmeError buf) eqn:E; cbn;
    repeat split; intros; try congruence; try reflexivity.
  destruct (parseQloc buf context point) as [[r c] p]. reflexivity.
Qed.

(** C3, at a failing input: on the unsolicited line [+CREG: 1,5] the sample
    parse fails ([parseQloc] returns -1 and the point stays empty), and
    [parseQlocResponse] returns [FIX] all the same. *)
Theorem C3_fix_returned_on_failed_parse :
  parseCmeError reply_urc = CME_Error.NONE
  /\ fst (fst (parseQloc reply_urc QlocContext.empty empty_point)) = -1
  /\ parseQlocResponse reply_urc QlocContext.empty empty_point
     = (CME_Error.FIX, QlocContext.empty, empty_point).
Proof.
  repeat split; vm_compute; reflexivity.
Qed.

(** C4, at a failing input: on a position reply cut short after the
    latitude [sscanf] assigns 4 of the 16 fields, [parseQloc] returns 0 and
    the point is overwritten: the latitude of the reply next to a date of
    November 1999 taken from the empty context. *)
Theorem C4_partial_reply_populates_point :
  fst (Scan.sscanf reply_short QLOC_FORMAT) = 4
  /\ fst (fst (parseQloc reply_short QlocContext.empty empty_point)) = 0
  /\ snd (parseQloc reply_short QlocContext.empty empty_point) <> empty_point
  /\ epochTime (snd (parseQloc reply_short QlocContext.empty empty_point))
     = Calendar.utc_epoch 1999 11 30 6 19 51
  /\ SF2Q (latitude (snd (parseQloc reply_short QlocContext.empty empty_point)))
     <> SF2Q (latitude empty_point).
Proof.
  repeat split; try (vm_compute; reflexivity).
  - intros H. apply (f_equal epochTime) in H. vm_compute in H. discriminate.
  - vm_compute. discriminate.
Qed.

(** For every whole number of km/h up to 1000 the speed stored is exactly
    a thousand times that number. *)
Lemma qloc_speed_thousandfold (kmh : Z) :
  0 <= kmh <= 1000 -> qloc_speed (F32.of_Z kmh) = F32.of_Z (1000 * kmh).
Proof.
  intros H. apply sf_eqb_eq.
  apply (range_forallb speed_is_thousandfold 0 1001); [|lia].
  vm_compute. reflexivity.
Qed.

(** C7, at a failing input: a reply that reports 36 km/h, which is 10 m/s,
    leaves 36000 in the speed of the point. *)
Theorem C7_speed_is_kmph_times_1000 :
  let '(_, context, point) := parseQloc reply_fix QlocContext.empty empty_point in
  QlocContext.speedKmph context = F32.of_Z 36
  /\ speed point = F32.of_Z 36000
  /\ mps_of_kmph (QlocContext.speedKmph context) = F32.of_Z 10
  /\ speed point <> mps_of_kmph (QlocContext.speedKmph context).
Proof.
  vm_compute. repeat split; try reflexivity. discriminate.
Qed.

(** ** The fix evaluator *)

Lemma s32_small (x : Z) : - 2 ^ 31 <= x < 2 ^ 31 -> s32 x = x.
Proof.
  intros H. unfold s32. rewrite Z.mod_small; lia.
Qed.

(** What a pass of the loop does, case by case. *)
Lemma poll_cycle_cases (start maxTime : Z) (c : Cycle) (st : LoopState) :
  let '(out, st') := poll_cycle start maxTime c st in
  (pass_ends start maxTime c = true ->
     st' = st /\ exists p, out = Some (LocationResults.TimedOut, p))
  /\ (pass_ends start maxTime c = false ->
      fixCount st' = (if CME_Error.eqb CME_Error.FIX (pass_decode c st)
                      then s32 (fixCount st + 1) else fixCount st)
      /\ _conf (eng st') = _conf (eng st)
      /\ out = (if fix_settled (pass_decode c st) (fixCount st') (pt st')
                                (_conf (eng st'))
                then Some (LocationResults.Fixed, true) else None)).
Proof.
  unfold poll_cycle, pass_ends, pass_decode, pass_reply.
  destruct (power c); cbn [negb orb].
  2: { split; [intros _; split; [reflexivity|eexists; reflexivity]|discriminate]. }
  destruct (maxTime <=? u64 (now c - start)).
  { split; [intros _; split; [reflexivity|eexists; reflexivity]|discriminate]. }
  destruct (parseQlocResponse _ _ _) as [[ret qctx] point]. cbn [fst snd].
  match goal with
  | |- context [if ModemType.eqb ?a ?b then _ else _] =>
      destruct (ModemType.eqb a b)
  end.
  - destruct (parseEpeResponse _ _ _) as [ectx point'].
    match goal with
    | |- context [fix_settled ?r ?n ?p ?cf] => destruct (fix_settled r n p cf) eqn:E
    end; (split; [discriminate|]); intros _; cbn [fixCount eng pt];
      rewrite E; repeat split; reflexivity.
  - match goal with
    | |- context [fix_settled ?r ?n ?p ?cf] => destruct (fix_settled r n p cf) eqn:E
    end; (split; [discriminate|]); intros _; cbn [fixCount eng pt];
      rewrite E; repeat split; reflexivity.
Qed.

Lemma fix_settled_iff (ret : CME_Error.t) (n : Z) (point : LocationPoint)
  (conf : LocationConfiguration) :
  fix_settled ret n point conf = true <->
  ret = CME_Error.FIX /\ n = LOCATION_REQUIRED_SETTLING_COUNT
  /\ F32.leb (horizontalDop point) (F32.of_Z (hdopThreshold conf)) = true
  /\ F32.leb (horizontalAccuracy point) (haccThreshold conf) = true.
Proof.
  unfold fix_settled. rewrite !andb_true_iff, Z.eqb_eq.
  split.
  - intros (((Hr & Hn) & Hd) & Ha). repeat split; try assumption.
    + destruct ret; try discriminate Hr; reflexivity.
    + symmetry; exact Hn.
  - intros (Hr & Hn & Hd & Ha). subst ret. repeat split; try assumption.
    symmetry; exact Hn.
Qed.

(** C1, as stated, fails: after two fixes that miss the accuracy threshold,
    a pass whose position reply is [+CME ERROR: 516] and whose accuracy
    estimate drops to 5 m sees [fixCount = 2] and both thresholds met, and
    yet does not leave the loop. *)
Lemma C1_counterexample :
  poll_loop 1000 90000 passes_unsettled (attempt_start empty_point engine_bg95)
  = Running state_unsettled
  /\ fst (poll_cycle 1000 90000 pass_nofix_accurate state_unsettled) = None
  /\ (let st' := snd (poll_cycle 1000 90000 pass_nofix_accurate state_unsettled) in
      fixCount st' = 2 /\ 2 <= fixCount st'
      /\ hdop_met st' = true /\ hacc_met st' = true).
Proof.
  split; [vm_compute; reflexivity|].
  split; [vm_compute; reflexivity|].
  cbv zeta. split; [vm_compute; reflexivity|].
  split; [vm_compute; discriminate|].
  split; vm_compute; reflexivity.
Qed.

(** C1, amended: a pass of the polling loop stops the attempt with [Fixed]
    only if its position reply decoded as [FIX], the fix counter is at
    least 2 and the point meets the HDOP and the accuracy threshold, both
    inclusive; and a pass that polls, decodes [FIX], brings the counter to 2
    and meets both thresholds does stop with [Fixed]. *)
Theorem C1_fixed_stop (start maxTime : Z) (c : Cycle) (st : LoopState)
  (out : option (LocationResults.t * bool)) (st' : LoopState) :
  poll_cycle start maxTime c st = (out, st') ->
  (stops_fixed out = true ->
     pass_decode c st = CME_Error.FIX
     /\ LOCATION_REQUIRED_SETTLING_COUNT <= fixCount st'
     /\ hdop_met st' = true /\ hacc_met st' = true)
  /\ (pass_ends start maxTime c = false ->
      pass_decode c st = CME_Error.FIX ->
      fixCount st' = LOCATION_REQUIRED_SETTLING_COUNT ->
      hdop_met st' = true -> hacc_met st' = true ->
      out = Some (LocationResults.Fixed, true)).
Proof.
  intros E. pose proof (poll_cycle_cases start maxTime c st) as H.
  rewrite E in H. destruct H as [Hend Hpoll].
  destruct (pass_ends start maxTime c) eqn:Ep.
  - destruct (Hend eq_refl) as (_ & p & Hout). subst out. cbn.
    split; [discriminate|discriminate].
  - destruct (Hpoll eq_refl) as (Hcount & Hconf & Hout).
    unfold hdop_met, hacc_met. split.
    + intros Hs. rewrite Hout in Hs.
      destruct (fix_settled _ _ _ _) eqn:Ef; [|discriminate Hs].
      apply fix_settled_iff in Ef. destruct Ef as (Hr & Hn & Hd & Ha).
      repeat split; try assumption. rewrite Hn. apply Z.le_refl.
    + intros _ Hr Hn Hd Ha. rewrite Hout.
      assert (Ef : fix_settled (pass_decode c st) (fixCount st') (pt st')
                     (_conf (eng st')) = true).
      { apply fix_settled_iff. repeat split; assumption. }
      rewrite Ef. reflexivity.
Qed.

(** C1, at a concrete pass: the second fix of an attempt, HDOP 0.7 against
    100 and an accuracy of 5 m against 50 m. *)
Lemma C1_fixed_stop_witness :
  poll_cycle 1000 90000 pass_second_fix state_first_fix
  = (Some (LocationResults.Fixed, true),
     snd (poll_cycle 1000 90000 pass_second_fix state_first_fix))
  /\ pass_decode pass_second_fix state_first_fix = CME_Error.FIX
  /\ LOCATION_REQUIRED_SETTLING_COUNT
     <= fixCount (snd (poll_cycle 1000 90000 pass_second_fix state_first_fix))
  /\ hdop_met (snd (poll_cycle 1000 90000 pass_second_fix state_first_fix)) = true
  /\ hacc_met (snd (poll_cycle 1000 90000 pass_second_fix state_first_fix)) = true.
Proof.
  assert (E : poll_cycle 1000 90000 pass_second_fix state_first_fix
              = (Some (LocationResults.Fixed, true),
                 snd (poll_cycle 1000 90000 pass_second_fix state_first_fix))).
  { vm_compute. reflexivity. }
  split; [exact E|].
  apply (proj1 (C1_fixed_stop 1000 90000 pass_second_fix state_first_fix _ _ E)).
  reflexivity.
Defined.

(** *** The loop as a whole *)

Lemma poll_loop_app (start maxTime : Z) (pre post : list Cycle)
  (st : LoopState) :
  poll_loop start maxTime (pre ++ post) st
  = match poll_loop start maxTime pre st with
    | Running st1 => poll_loop start maxTime post st1
    | stopped => stopped
    end.
Proof.
  revert st. induction pre as [|c pre IH]; intros st; cbn [poll_loop app].
  - reflexivity.
  - destruct (poll_cycle start maxTime c st) as [[[r p]|] st1].
    + reflexivity.
    + apply IH.
Qed.

(** The fix counter moves by at most one a pass, and never down. *)
Lemma poll_cycle_fixCount (start maxTime : Z) (c : Cycle) (st : LoopState) :
  0 <= fixCount st < INT_MAX ->
  fixCount st <= fixCount (snd (poll_cycle start maxTime c st))
              <= fixCount st + 1.
Proof.
  intros Hb. pose proof (poll_cycle_cases start maxTime c st) as H.
  destruct (poll_cycle start maxTime c st) as [out st']. cbn [snd].
  destruct H as [Hend Hpoll].
  destruct (pass_ends start maxTime c).
  - destruct (Hend eq_refl) as [-> _]. lia.
  - destruct (Hpoll eq_refl) as (Hcount & _).
    rewrite Hcount. unfold INT_MAX in Hb.
    destruct (CME_Error.eqb CME_Error.FIX (pass_decode c st)).
    + rewrite s32_small; lia.
    + lia.
Qed.

Lemma poll_loop_fixCount (start maxTime : Z) (cycles : list Cycle) :
  forall st st',
    0 <= fixCount st ->
    fixCount st + Z.of_nat (List.length cycles) <= INT_MAX ->
    poll_loop start maxTime cycles st = Running st' ->
    fixCount st <= fixCount st' <= fixCount st + Z.of_nat (List.length cycles).
Proof.
  induction cycles as [|c cycles IH]; intros st st' H0 Hmax E.
  - cbn in E. injection E as <-. cbn. lia.
  - cbn [poll_loop] in E. cbn [List.length] in *.
    pose proof (poll_cycle_fixCount start maxTime c st ltac:(lia)) as Hstep.
    destruct (poll_cycle start maxTime c st) as [[[r p]|] st1]; [discriminate|].
    cbn [snd] in Hstep.
    specialize (IH st1 st' ltac:(lia) ltac:(lia) E). lia.
Qed.

(** Past the settling count no pass stops the loop with [Fixed]. *)
Lemma poll_cycle_past_settling (start maxTime : Z) (c : Cycle) (st : LoopState) :
  LOCATION_REQUIRED_SETTLING_COUNT < fixCount st < INT_MAX ->
  exists st',
    LOCATION_REQUIRED_SETTLING_COUNT < fixCount st' <= fixCount st + 1
    /\ (poll_cycle start maxTime c st = (None, st')
        \/ exists p,
             poll_cycle start maxTime c st
             = (Some (LocationResults.TimedOut, p), st')).
Proof.
  unfold LOCATION_REQUIRED_SETTLING_COUNT. intros Hb.
  pose proof (poll_cycle_fixCount start maxTime c st ltac:(lia)) as Hstep.
  pose proof (poll_cycle_cases start maxTime c st) as H.
  destruct (poll_cycle start maxTime c st) as [out st']. cbn [snd] in Hstep.
  exists st'. split; [lia|].
  destruct H as [Hend Hpoll].
  destruct (pass_ends start maxTime c).
  - destruct (Hend eq_refl) as (_ & p & ->). right. exists p. reflexivity.
  - destruct (Hpoll eq_refl) as (_ & _ & ->).
    destruct (fix_settled _ _ _ _) eqn:Ef.
    + apply fix_settled_iff in Ef. destruct Ef as (_ & Hn & _).
      unfold LOCATION_REQUIRED_SETTLING_COUNT in Hn. lia.
    + left. reflexivity.
Qed.

Lemma poll_loop_past_settling (start maxTime : Z) (cycles : list Cycle) :
  forall st r p st',
    LOCATION_REQUIRED_SETTLING_COUNT < fixCount st ->
    fixCount st + Z.of_nat (List.length cycles) <= INT_MAX ->
    poll_loop start maxTime cycles st = Stopped r p st' ->
    r = LocationResults.TimedOut.
Proof.
  induction cycles as [|c cycles IH]; intros st r p st' Hs Hmax E.
  - discriminate E.
  - cbn [poll_loop] in E. cbn [List.length] in Hmax.
    destruct (poll_cycle_past_settling start maxTime c st ltac:(lia))
      as (st1 & Hb & [Hc|[q Hc]]); rewrite Hc in E.
    + apply (IH st1 r p st'); [lia|lia|exact E].
    + injection E as <- _ _. reflexivity.
Qed.

(** A pass that finds the modem off or the time used up ends the loop. *)
Lemma poll_loop_ends (start maxTime : Z) (cycles : list Cycle) :
  forall st,
    existsb (pass_ends start maxTime) cycles = true ->
    exists r p st', poll_loop start maxTime cycles st = Stopped r p st'.
Proof.
  induction cycles as [|c cycles IH]; intros st He.
  - discriminate He.
  - cbn [poll_loop existsb] in *.
    pose proof (poll_cycle_cases start maxTime c st) as H.
    destruct (poll_cycle start maxTime c st) as [[[r p]|] st1].
    + exists r, p, st1. reflexivity.
    + destruct H as [Hend _].
      destruct (pass_ends start maxTime c).
      * destruct (Hend eq_refl) as (_ & p & Hp). discriminate Hp.
      * apply IH. exact He.
Qed.

Lemma final_response_TimedOut (p : bool) :
  final_response LocationResults.TimedOut p = LocationResults.TimedOut
  \/ final_response LocationResults.TimedOut p = LocationResults.Unavailable.
Proof.
  destruct p; [left|right]; reflexivity.
Qed.

(** The response of an acquisition is the response of its loop. *)
Lemma acquire_response (env : AcquireEnv) (event : LocationCommandContext)
  (point : LocationPoint) (loc : SomLocation) :
  match poll_loop (start env) (attempt_maxTime loc) (cycles env)
          (attempt_start point loc) with
  | Running _ => acquire env event point loc = None
  | Stopped r p _ =>
      exists done, acquire env event point loc = Some done
                   /\ response done = final_response r p
  end.
Proof.
  unfold acquire, attempt_maxTime, attempt_start.
  change (_conf (set_acquiring true loc)) with (_conf loc).
  destruct (poll_loop _ _ _ _) as [r p st|st]; [|reflexivity].
  destruct (sendResponse event).
  - eexists. split; reflexivity.
  - destruct (doneCallback event); eexists; split; reflexivity.
Qed.

(** C6: within one attempt, once the fix counter has gone past the
    settling count of 2 while the loop is still running, the attempt cannot
    end with [Fixed] whatever the later samples are: if it ends, it ends
    with [TimedOut] or [Unavailable], and it does end as soon as a pass
    finds the time used up or the modem off. The attempt is taken to have
    fewer than 2^31 passes, so that the counter, an [int], does not
    overflow. *)
Theorem C6_no_fix_past_settling_count (env : AcquireEnv)
  (event : LocationCommandContext) (point : LocationPoint) (loc : SomLocation)
  (pre post : list Cycle) (st : LoopState) :
  cycles env = (pre ++ post)%list ->
  poll_loop (start env) (attempt_maxTime loc) pre (attempt_start point loc)
  = Running st ->
  LOCATION_REQUIRED_SETTLING_COUNT < fixCount st ->
  Z.of_nat (List.length (cycles env)) <= INT_MAX ->
  (forall done, acquire env event point loc = Some done ->
     response done = LocationResults.TimedOut
     \/ response done = LocationResults.Unavailable)
  /\ (existsb (pass_ends (start env) (attempt_maxTime loc)) post = true ->
      exists done, acquire env event point loc = Some done
                   /\ (response done = LocationResults.TimedOut
                       \/ response done = LocationResults.Unavailable)).
Proof.
  intros Hcycles Hpre Hpast Hlen.
  pose proof (acquire_response env event point loc) as Hacq.
  rewrite Hcycles, poll_loop_app, Hpre in Hacq.
  rewrite Hcycles, length_app, Nat2Z.inj_add in Hlen.
  pose proof (poll_loop_fixCount (start env) (attempt_maxTime loc) pre
                (attempt_start point loc) st ltac:(cbn; lia)
                ltac:(cbn [attempt_start fixCount]; lia) Hpre) as Hcount.
  cbn [attempt_start fixCount] in Hcount.
  assert (Hstop : forall r p st',
            poll_loop (start env) (attempt_maxTime loc) post st = Stopped r p st' ->
            r = LocationResults.TimedOut).
  { intros r p st' E.
    apply (poll_loop_past_settling (start env) (attempt_maxTime loc) post st
             r p st' Hpast); [lia|exact E]. }
  split.
  - intros done Hd.
    destruct (poll_loop (start env) (attempt_maxTime loc) post st)
      as [r p st'|st'] eqn:E.
    + destruct Hacq as (done' & Hd' & Hr). rewrite Hd in Hd'.
      injection Hd' as <-. rewrite Hr, (Hstop r p st' eq_refl).
      apply final_response_TimedOut.
    + rewrite Hd in Hacq. discriminate Hacq.
  - intros Hends.
    destruct (poll_loop_ends (start env) (attempt_maxTime loc) post st Hends)
      as (r & p & st' & E).
    rewrite E in Hacq. destruct Hacq as (done & Hd & Hr).
    exists done. split; [exact Hd|].
    rewrite Hr, (Hstop r p st' E). apply final_response_TimedOut.
Qed.

(** C6, at a concrete attempt: two fixes with an accuracy of 80 m, a third
    and a fourth with 5 m, then the modem loses power; the attempt ends
    with [Unavailable]. *)
Lemma C6_no_fix_past_settling_count_witness :
  cycles env_late_accuracy
  = ((passes_unsettled ++ [pass_third_fix])
     ++ [pass 4300 reply_fix (reply_epe "5.0"); pass_off 5400])%list
  /\ poll_loop (start env_late_accuracy) (attempt_maxTime engine_bg95)
       (passes_unsettled ++ [pass_third_fix])
       (attempt_start empty_point engine_bg95)
     = Running (state_of (poll_loop 1000 90000
                            (passes_unsettled ++ [pass_third_fix])
                            (attempt_start empty_point engine_bg95)))
  /\ LOCATION_REQUIRED_SETTLING_COUNT
     < fixCount (state_of (poll_loop 1000 90000
                             (passes_unsettled ++ [pass_third_fix])
                             (attempt_start empty_point engine_bg95)))
  /\ Z.of_nat (List.length (cycles env_late_accuracy)) <= INT_MAX
  /\ exists done,
       acquire env_late_accuracy blocking_event empty_point engine_bg95
       = Some done
       /\ (response done = LocationResults.TimedOut
           \/ response done = LocationResults.Unavailable).
Proof.
  assert (H1 : poll_loop (start env_late_accuracy) (attempt_maxTime engine_bg95)
                 (passes_unsettled ++ [pass_third_fix])
                 (attempt_start empty_point engine_bg95)
               = Running (state_of (poll_loop 1000 90000
                            (passes_unsettled ++ [pass_third_fix])
                            (attempt_start empty_point engine_bg95))))
    by (vm_compute; reflexivity).
  assert (H2 : LOCATION_REQUIRED_SETTLING_COUNT
               < fixCount (state_of (poll_loop 1000 90000
                             (passes_unsettled ++ [pass_third_fix])
                             (attempt_start empty_point engine_bg95))))
    by (vm_compute; reflexivity).
  assert (H3 : Z.of_nat (List.length (cycles env_late_accuracy)) <= INT_MAX)
    by (vm_compute; discriminate).
  split; [reflexivity|]. split; [exact H1|]. split; [exact H2|].
  split; [exact H3|].
  refine (proj2 (C6_no_fix_past_settling_count env_late_accuracy blocking_event
                   empty_point engine_bg95
                   (passes_unsettled ++ [pass_third_fix])
                   [pass 4300 reply_fix (reply_epe "5.0"); pass_off 5400]
                   _ eq_refl H1 H2 H3) _).
  vm_compute. reflexivity.
Defined.

(** The slip in isolation: a third fix that meets both thresholds, polled
    in time with the modem on, does not stop the loop. *)
Lemma third_fix_does_not_settle :
  pass_decode pass_third_fix state_unsettled = CME_Error.FIX
  /\ fst (poll_cycle 1000 90000 pass_third_fix state_unsettled) = None
  /\ (let st' := snd (poll_cycle 1000 90000 pass_third_fix state_unsettled) in
      fixCount st' = 3 /\ hdop_met st' = true /\ hacc_met st' = true).
Proof.
  repeat split; vm_compute; reflexivity.
Qed.

(** ** The scanner on the device-error pattern *)

Import Scan.

Lemma cme_directives :
  parse_format Plain CME_FORMAT
  = [DSpace; DLit "+"; DLit "C"; DLit "M"; DLit "E"; DSpace;
     DLit "E"; DLit "R"; DLit "R"; DLit "O"; DLit "R"; DLit ":"; DSpace;
     DConv false None ConvU].
Proof. reflexivity. Qed.

Lemma skip_space_app (ws s : string) :
  all_space ws = true -> skip_space (ws ++ s) = skip_space s.
Proof.
  induction ws as [|c ws IH]; cbn [all_space append skip_space]; intros H.
  - reflexivity.
  - apply andb_prop in H. destruct H as [Hc Hws]. rewrite Hc. apply IH, Hws.
Qed.

Lemma skip_space_stop (c : ascii) (s : string) :
  isspace c = false -> skip_space (String c s) = String c s.
Proof. intros H. cbn [skip_space]. rewrite H. reflexivity. Qed.

Lemma run_lit (c : ascii) (ds : list directive) (s : string) (acc : list arg) :
  run (DLit c :: ds) (String c s) acc = run ds s acc.
Proof. cbn [run]. rewrite Ascii.eqb_refl. reflexivity. Qed.

Lemma digit_class (c : ascii) :
  isdigit c = true -> isspace c = false /\ is_sign c = false.
Proof.
  destruct c as [[] [] [] [] [] [] [] []]; vm_compute; intros H;
    try discriminate H; split; reflexivity.
Qed.

Lemma scan_digits_app (digits rest : string) :
  all_digits digits = true -> starts_with_digit rest = false ->
  forall (w : nat) (acc : Z) (n : nat),
    (String.length digits <= w)%nat ->
    scan_digits w (digits ++ rest) acc n
    = (decimal acc digits, (n + String.length digits)%nat, rest).
Proof.
  intros Hd Hr. induction digits as [|c digits IH]; intros w acc n Hw.
  - cbn [append decimal String.length]. rewrite Nat.add_0_r.
    destruct w; [reflexivity|].
    destruct rest as [|c r]; [reflexivity|].
    cbn [scan_digits]. cbn [starts_with_digit] in Hr. rewrite Hr. reflexivity.
  - cbn [all_digits] in Hd. apply andb_prop in Hd. destruct Hd as [Hc Hd].
    cbn [String.length] in Hw. destruct w as [|w]; [lia|].
    cbn [append scan_digits decimal String.length]. rewrite Hc.
    rewrite (IH Hd) by lia. f_equal. f_equal. lia.
Qed.

Lemma length_append (a b : string) :
  String.length (a ++ b) = (String.length a + String.length b)%nat.
Proof.
  induction a as [|c a IH]; cbn [append String.length]; [reflexivity|].
  rewrite IH. reflexivity.
Qed.

Lemma sscanf_cme_code (ws1 ws2 ws3 digits rest : string) :
  all_space ws1 = true -> all_space ws2 = true -> all_space ws3 = true ->
  all_digits digits = true -> digits <> EmptyString ->
  starts_with_digit rest = false ->
  sscanf (ws1 ++ "+CME" ++ ws2 ++ "ERROR:" ++ ws3 ++ digits ++ rest) CME_FORMAT
  = (1, [ArgU (strtoul_value false (decimal 0 digits))]).
Proof.
  intros H1 H2 H3 Hd Hne Hr.
  unfold sscanf. rewrite cme_directives.
  cbn [run]. rewrite skip_space_app by exact H1.
  cbn [append]. rewrite skip_space_stop by reflexivity.
  cbn [Ascii.eqb Bool.eqb].
  rewrite skip_space_app by exact H2.
  cbn [append]. rewrite skip_space_stop by reflexivity.
  cbn [Ascii.eqb Bool.eqb].
  rewrite !skip_space_app by exact H3.
  destruct digits as [|c digits]; [congruence|].
  cbn [all_digits] in Hd. apply andb_prop in Hd. destruct Hd as [Hc Hd].
  destruct (digit_class c Hc) as [Hsp Hsg].
  cbn [append]. rewrite !skip_space_stop by exact Hsp.
  unfold scan_conv, scan_uint. rewrite Hsg.
  change (String c (digits ++ rest)) with (String c digits ++ rest).
  rewrite (scan_digits_app (String c digits) rest).
  - unfold is_sign in Hsg. apply orb_false_elim in Hsg. destruct Hsg as [_ Hm].
    rewrite Hm. cbn [String.length Nat.add]. reflexivity.
  - cbn [all_digits]. rewrite Hc, Hd. reflexivity.
  - exact Hr.
  - rewrite length_append. lia.
Qed.

Lemma strtoul_fault (v : Z) :
  0 <= v ->
  match strtoul_value false v with
  | 504 => CME_Error.SESSION_IS_ONGOING
  | 505 => CME_Error.SESSION_NOT_ACTIVE
  | 506 => CME_Error.OPERATION_TIMEOUT
  | 516 => CME_Error.NO_FIX
  | 522 => CME_Error.GNSS_IS_WORKING
  | 549 => CME_Error.UNKNOWN_ERROR
  | _ => CME_Error.UNDEFINED
  end = fault_of_code v.
Proof.
  intros Hv. unfold strtoul_value, fault_of_code.
  destruct (UINT_MAX <? v) eqn:E.
  - apply Z.ltb_lt in E. unfold UINT_MAX in E.
    replace (v =? 504) with false by (symmetry; apply Z.eqb_neq; lia).
    replace (v =? 505) with false by (symmetry; apply Z.eqb_neq; lia).
    replace (v =? 506) with false by (symmetry; apply Z.eqb_neq; lia).
    replace (v =? 516) with false by (symmetry; apply Z.eqb_neq; lia).
    replace (v =? 522) with false by (symmetry; apply Z.eqb_neq; lia).
    replace (v =? 549) with false by (symmetry; apply Z.eqb_neq; lia).
    reflexivity.
  - destruct (v =? 504) eqn:E1; [apply Z.eqb_eq in E1; subst; reflexivity|].
    destruct (v =? 505) eqn:E2; [apply Z.eqb_eq in E2; subst; reflexivity|].
    destruct (v =? 506) eqn:E3; [apply Z.eqb_eq in E3; subst; reflexivity|].
    destruct (v =? 516) eqn:E4; [apply Z.eqb_eq in E4; subst; reflexivity|].
    destruct (v =? 522) eqn:E5; [apply Z.eqb_eq in E5; subst; reflexivity|].
    destruct (v =? 549) eqn:E6; [apply Z.eqb_eq in E6; subst; reflexivity|].
    cbn [orb].
    apply Z.eqb_neq in E1, E2, E3, E4, E5, E6.
    destruct v as [|p|p]; try reflexivity.
    do 10 (destruct p as [p|p|]; try reflexivity; try congruence).
Qed.

Lemma decimal_nonneg (s : string) :
  all_digits s = true -> forall acc, 0 <= acc -> 0 <= decimal acc s.
Proof.
  induction s as [|c s IH]; cbn [all_digits decimal]; intros H acc Hacc.
  - exact Hacc.
  - apply andb_prop in H. destruct H as [Hc Hs]. apply (IH Hs).
    unfold isdigit in Hc. apply andb_prop in Hc. destruct Hc as [Hlo _].
    apply Nat.leb_le in Hlo. unfold digit_val. lia.
Qed.

Lemma cme_directives_lits :
  parse_format Plain CME_FORMAT
  = DSpace :: (lits "+CME" ++ DSpace :: lits "ERROR:"
               ++ [DSpace; DConv false None ConvU])%list.
Proof. reflexivity. Qed.

Lemma skip_space_start (t : string) :
  starts_with_space t = false -> skip_space t = t.
Proof.
  destruct t as [|c t]; cbn [starts_with_space skip_space]; intros H.
  - reflexivity.
  - rewrite H. reflexivity.
Qed.

(** A text that starts with a run of ordinary characters passes their
    directives. *)
Lemma run_lits (p t : string) (ds : list directive) (acc : list arg) :
  run (lits p ++ ds) (p ++ t) acc = run ds t acc.
Proof.
  induction p as [|c p IH]; cbn [lits app append].
  - reflexivity.
  - rewrite run_lit. exact IH.
Qed.

(** A text that departs from a run of ordinary characters is a matching
    failure. *)
Lemma run_departs (p t : string) (ds : list directive) (acc : list arg) :
  departs p t -> run (lits p ++ ds) t acc = matching_failure acc.
Proof.
  intros H. induction H as [c d p t Hcd|c p t H IH]; cbn [lits app].
  - cbn [run]. destruct (Ascii.eqb d c) eqn:E; [|reflexivity].
    apply Ascii.eqb_eq in E. congruence.
  - rewrite run_lit. exact IH.
Qed.

(** What [fault_of_code] is on the codes: [NO_FIX] exactly for 516, the
    enumerator of the same value for the six known codes, [UNDEFINED] and
    never [UNKNOWN_ERROR] (the fault of code 549) for the others. *)
Lemma fault_of_code_spec (n : Z) :
  (fault_of_code n = CME_Error.NO_FIX <-> n = 516)
  /\ (In n [504; 505; 506; 516; 522; 549] ->
      CME_Error.code (fault_of_code n) = n)
  /\ (~ In n [504; 505; 506; 516; 522; 549] ->
      fault_of_code n = CME_Error.UNDEFINED)
  /\ fault_of_code n <> CME_Error.NONE.
Proof.
  unfold fault_of_code.
  destruct (n =? 504) eqn:E1; [apply Z.eqb_eq in E1; subst; cbn; intuition (try discriminate; try lia)|].
  destruct (n =? 505) eqn:E2; [apply Z.eqb_eq in E2; subst; cbn; intuition (try discriminate; try lia)|].
  destruct (n =? 506) eqn:E3; [apply Z.eqb_eq in E3; subst; cbn; intuition (try discriminate; try lia)|].
  destruct (n =? 516) eqn:E4; [apply Z.eqb_eq in E4; subst; cbn; intuition (try discriminate; try lia)|].
  destruct (n =? 522) eqn:E5; [apply Z.eqb_eq in E5; subst; cbn; intuition (try discriminate; try lia)|].
  destruct (n =? 549) eqn:E6; [apply Z.eqb_eq in E6; subst; cbn; intuition (try discriminate; try lia)|].
  apply Z.eqb_neq in E1, E2, E3, E4, E5, E6. cbn [orb].
  repeat split; try discriminate; try lia.
  cbn [In]. intros H. intuition lia.
Qed.

(** C5, as stated, fails: code 100 is none of the six known codes and the
    fault returned is [UNDEFINED], not [UNKNOWN_ERROR]; and a text that
    contains the pattern of code 516 after other characters gives [NONE]. *)
Lemma C5_counterexample :
  parseCmeError "+CME ERROR: 100" = CME_Error.UNDEFINED
  /\ CME_Error.UNDEFINED <> CME_Error.UNKNOWN_ERROR
  /\ parseCmeError "OK +CME ERROR: 516" = CME_Error.NONE
  /\ CME_Error.NONE <> CME_Error.NO_FIX.
Proof.
  repeat split; try (vm_compute; reflexivity); discriminate.
Qed.

(** C5, amended: on a text that is, after optional white space,
    [+CME ERROR:] and a decimal code, [parseCmeError] returns the fault of
    the code: [NO_FIX] exactly for 516, the named fault of 504, 505, 506,
    522 and 549, and [UNDEFINED] for every other code; on a text that,
    after optional white space, departs from [+CME ERROR:] at some
    character, or goes on after it with a character that cannot begin a
    number, it returns [NONE]. *)
Theorem C5_parseCmeError_faults (buf : string) (fault : CME_Error.t) :
  cme_reply buf fault -> parseCmeError buf = fault.
Proof.
  intros H.
  destruct H as [ws1 ws2 ws3 digits rest H1 H2 H3 Hd Hne Hr
                |ws1 t H1 Ht Hdep
                |ws1 ws2 t H1 H2 Ht Hdep
                |ws1 ws2 ws3 c t H1 H2 H3 Hsp Hdg Hsg].
  - unfold parseCmeError.
    rewrite (sscanf_cme_code ws1 ws2 ws3 digits rest H1 H2 H3 Hd Hne Hr).
    cbn [Z.eqb argU nth_error].
    apply strtoul_fault. apply decimal_nonneg; [exact Hd|lia].
  - unfold parseCmeError, sscanf. rewrite cme_directives_lits.
    cbn [run]. rewrite skip_space_app by exact H1.
    rewrite (skip_space_start t Ht).
    rewrite (run_departs "+CME" t _ [] Hdep). reflexivity.
  - unfold parseCmeError, sscanf. rewrite cme_directives_lits.
    cbn [run]. rewrite skip_space_app by exact H1.
    rewrite skip_space_start by reflexivity.
    rewrite run_lits. cbn [run]. rewrite skip_space_app by exact H2.
    rewrite (skip_space_start t Ht).
    rewrite (run_departs "ERROR:" t _ [] Hdep). reflexivity.
  - unfold parseCmeError, sscanf. rewrite cme_directives_lits.
    cbn [run]. rewrite skip_space_app by exact H1.
    rewrite skip_space_start by reflexivity.
    rewrite run_lits. cbn [run]. rewrite skip_space_app by exact H2.
    rewrite skip_space_start by reflexivity.
    rewrite run_lits. cbn [run]. rewrite !skip_space_app by exact H3.
    rewrite !skip_space_stop by exact Hsp.
    unfold scan_conv, scan_uint. rewrite Hsg.
    destruct (String.length (String c t)) as [|w]; cbn [scan_digits];
      [reflexivity|]. rewrite Hdg. reflexivity.
Qed.

(** C5, at a concrete reply. *)
Lemma C5_parseCmeError_faults_witness :
  cme_reply "+CME ERROR: 516" CME_Error.NO_FIX
  /\ parseCmeError "+CME ERROR: 516" = CME_Error.NO_FIX.
Proof.
  assert (H : cme_reply "+CME ERROR: 516" CME_Error.NO_FIX).
  { refine (reply_code EmptyString " " " " "516" EmptyString
              eq_refl eq_refl eq_refl eq_refl _ eq_refl).
    discriminate. }
  split; [exact H|].
  exact (C5_parseCmeError_faults "+CME ERROR: 516" CME_Error.NO_FIX H).
Defined.

(** On a text that ends before the pattern does, here the empty text,
    [sscanf] returns [EOF] and the fault is [UNDEFINED]. *)
Lemma parseCmeError_empty :
  fst (sscanf EmptyString CME_FORMAT) = EOF
  /\ parseCmeError EmptyString = CME_Error.UNDEFINED.
Proof.
  split; reflexivity.
Qed.

(** ** Position replies with all their fields *)

Lemma scan_conv_kind (c : conv) (w : option nat) (s : string) (v : arg)
  (rest : string) :
  scan_conv c w s = Some (v, rest) -> arg_of_conv c v = true.
Proof.
  unfold scan_conv. destruct c.
  - destruct (scan_uint _ s) as [[x r]|]; [|discriminate].
    intros H. injection H as <- _. reflexivity.
  - destruct (scan_float s) as [[x r]|]; [|discriminate].
    intros H. injection H as <- _. reflexivity.
  - destruct (scan_float s) as [[x r]|]; [|discriminate].
    intros H. injection H as <- _. reflexivity.
Qed.

(** [sscanf] returns [EOF] or the number of values it assigned, and the
    values are of the kinds of the first conversions of the format. *)
Lemma run_shape (ds : list directive) :
  forall (inp : string) (acc : list arg),
    (fst (run ds inp acc) = EOF
     \/ fst (run ds inp acc) = Z.of_nat (List.length (snd (run ds inp acc))))
    /\ exists new,
         snd (run ds inp acc) = (acc ++ new)%list
         /\ Forall2 (fun c a => arg_of_conv c a = true)
                    (firstn (List.length new) (targets ds)) new.
Proof.
  assert (Hfail : forall acc : list arg,
            (fst (input_failure acc) = EOF
             \/ fst (input_failure acc)
                = Z.of_nat (List.length (snd (input_failure acc))))
            /\ snd (input_failure acc) = acc).
  { intros [|a acc]; cbn; auto. }
  induction ds as [|d ds IH]; intros inp acc.
  - cbn [run fst snd]. split; [right; reflexivity|].
    exists []. rewrite app_nil_r. split; [reflexivity|constructor].
  - destruct d as [|c|sup w c]; cbn [run].
    + destruct (IH (skip_space inp) acc) as (Hn & new & Hs & Hk).
      split; [exact Hn|]. exists new. split; [exact Hs|exact Hk].
    + destruct inp as [|x inp].
      * destruct (Hfail acc) as [Hn Hs]. split; [exact Hn|].
        exists []. rewrite app_nil_r. split; [exact Hs|constructor].
      * destruct (Ascii.eqb x c).
        -- destruct (IH inp acc) as (Hn & new & Hs & Hk).
           split; [exact Hn|]. exists new. split; [exact Hs|exact Hk].
        -- cbn [matching_failure fst snd]. split; [right; reflexivity|].
           exists []. rewrite app_nil_r. split; [reflexivity|constructor].
    + destruct (skip_space inp) as [|x inp1] eqn:E.
      * destruct (Hfail acc) as [Hn Hs]. split; [exact Hn|].
        exists []. rewrite app_nil_r. split; [exact Hs|constructor].
      * destruct (scan_conv c w (String x inp1)) as [[v rest]|] eqn:Ev.
        -- apply scan_conv_kind in Ev.
           destruct sup.
           ++ destruct (IH rest acc) as (Hn & new & Hs & Hk).
              split; [exact Hn|]. exists new. split; [exact Hs|exact Hk].
           ++ destruct (IH rest (acc ++ [v])%list) as (Hn & new & Hs & Hk).
              split; [exact Hn|]. exists (v :: new).
              rewrite <- app_assoc in Hs. split; [exact Hs|].
              cbn [List.length firstn targets]. constructor; assumption.
        -- cbn [matching_failure fst snd]. split; [right; reflexivity|].
           exists []. rewrite app_nil_r. split; [reflexivity|constructor].
Qed.

Lemma qloc_targets :
  targets (parse_format Plain QLOC_FORMAT)
  = [ConvU; ConvU; ConvU; ConvLF; ConvLF; ConvF; ConvF; ConvU;
     ConvU; ConvU; ConvF; ConvF; ConvU; ConvU; ConvU; ConvU].
Proof. reflexivity. Qed.

Ltac shape_step H :=
  match type of H with
  | Forall2 _ (_ :: _) ?l =>
      let a := fresh "a" in
      let Ha := fresh "Ha" in
      let H' := fresh "H" in
      inversion H as [|? a ? ? Ha H']; subst; clear H;
      destruct a; try discriminate Ha; clear Ha; shape_step H'
  | Forall2 _ [] ?l => inversion H; subst; clear H
  end.

(** A reply of which [sscanf] assigns all 16 fields: the values, by
    position. *)
Lemma sscanf_qloc_full (buf : string) :
  fst (sscanf buf QLOC_FORMAT) = 16 ->
  exists hh mi ss lat lon hdop alt fx deg mins kmh kn dd mm yy nsat,
    snd (sscanf buf QLOC_FORMAT)
    = [ArgU hh; ArgU mi; ArgU ss; ArgD lat; ArgD lon; ArgF hdop; ArgF alt;
       ArgU fx; ArgU deg; ArgU mins; ArgF kmh; ArgF kn;
       ArgU dd; ArgU mm; ArgU yy; ArgU nsat].
Proof.
  unfold sscanf. intros H16.
  destruct (run_shape (parse_format Plain QLOC_FORMAT) buf [])
    as (Hn & new & Hs & Hk).
  rewrite H16 in Hn. destruct Hn as [Hn|Hn]; [discriminate Hn|].
  cbn [app] in Hs. rewrite Hs in Hn |- *.
  assert (Hlen : List.length new = 16%nat) by lia.
  rewrite Hlen, qloc_targets in Hk. cbn [firstn] in Hk.
  shape_step Hk.
  repeat eexists.
Qed.

(** ** Calendar *)

Lemma month_starts_agree (yy mm : Z) :
  0 <= yy <= 99 -> 1 <= mm <= 12 -> month_start_agrees yy mm = true.
Proof.
  intros Hy Hm.
  assert (Hall : forallb (fun y => forallb (month_start_agrees y) (range 1 12))
                   (range 0 100) = true) by (vm_compute; reflexivity).
  pose proof (range_forallb _ 0 100 Hall yy ltac:(lia)) as Hrow.
  cbv beta in Hrow.
  exact (range_forallb _ 1 12 Hrow mm ltac:(lia)).
Qed.

(** [mktime] is linear in the day of the month and the time of day. *)
Lemma mktime_linear (year mon mday hour minute second : Z) :
  (10000 <? year + mon / 12) || (year + mon / 12 <? -10000) = false ->
  Calendar.mktime
    {| Calendar.tm_sec := second; Calendar.tm_min := minute;
       Calendar.tm_hour := hour; Calendar.tm_mday := mday;
       Calendar.tm_mon := mon; Calendar.tm_year := year |}
  = Calendar.mktime
      {| Calendar.tm_sec := 0; Calendar.tm_min := 0;
         Calendar.tm_hour := 0; Calendar.tm_mday := 1;
         Calendar.tm_mon := mon; Calendar.tm_year := year |}
    + (mday - 1) * 86400 + hour * 3600 + minute * 60 + second.
Proof.
  intros E. unfold Calendar.mktime.
  cbn [Calendar.tm_sec Calendar.tm_min Calendar.tm_hour Calendar.tm_mday
       Calendar.tm_mon Calendar.tm_year].
  rewrite E. lia.
Qed.

Lemma utc_epoch_linear (year month day hour minute second : Z) :
  Calendar.utc_epoch year month day hour minute second
  = Calendar.utc_epoch year month 1 0 0 0
    + (day - 1) * 86400 + hour * 3600 + minute * 60 + second.
Proof.
  unfold Calendar.utc_epoch, Calendar.days_from_civil. lia.
Qed.

(** On the dates of this century [mktime], fed the way [parseQloc] feeds
    it, is the calendar conversion of the date. *)
Lemma mktime_utc (yy mm dd hh mi ss : Z) :
  0 <= yy <= 99 -> 1 <= mm <= 12 ->
  Calendar.mktime
    {| Calendar.tm_sec := ss; Calendar.tm_min := mi; Calendar.tm_hour := hh;
       Calendar.tm_mday := dd; Calendar.tm_mon := mm - 1;
       Calendar.tm_year := yy + 100 |}
  = Calendar.utc_epoch (2000 + yy) mm dd hh mi ss.
Proof.
  intros Hy Hm.
  pose proof (month_starts_agree yy mm Hy Hm) as Hs.
  unfold month_start_agrees in Hs. apply Z.eqb_eq in Hs.
  rewrite utc_epoch_linear, <- Hs.
  apply mktime_linear.
  replace ((mm - 1) / 12) with 0 by (symmetry; apply Z.div_small; lia).
  apply orb_false_intro; apply Z.ltb_ge; lia.
Qed.

Lemma u32_small (x : Z) : 0 <= x < 2 ^ 32 -> u32 x = x.
Proof.
  intros H. unfold u32. apply Z.mod_small. exact H.
Qed.

Lemma heading_table_sound (nd : nat) (degrees minutes : Z) :
  heading_table_ok nd = true ->
  0 <= degrees < Z.of_nat nd -> 0 <= minutes < 60 ->
  heading_close degrees minutes = true.
Proof.
  unfold heading_table_ok. intros Hall Hd Hm.
  pose proof (range_forallb _ 0 nd Hall degrees ltac:(lia)) as Hrow.
  cbv beta zeta in Hrow. rewrite forallb_forall in Hrow.
  apply (Hrow (minutes, F64.div (widen (F32.of_Z minutes)) (F64.of_Z 60))).
  apply (in_map (fun m => (m, F64.div (widen (F32.of_Z m)) (F64.of_Z 60)))).
  unfold range. apply in_map_iff. exists (Z.to_nat minutes). split.
  - lia.
  - apply in_seq. lia.
Qed.

(** The heading stored is within 2^-15 of a degree of the exact value, for
    every course of up to three digits of degrees and less than 60
    minutes. *)
Lemma heading_close_all (degrees minutes : Z) :
  0 <= degrees <= 999 -> 0 <= minutes < 60 ->
  heading_close degrees minutes = true.
Proof.
  intros Hd Hm.
  apply (heading_table_sound 1000 degrees minutes); [|lia|exact Hm].
  vm_compute. reflexivity.
Qed.

(** C9: on a position reply of which all 16 fields are read, with a date
    of this century and a course of less than 60 minutes, [parseQloc]
    succeeds whatever the context and the point held before, the epoch time
    of the point is the calendar conversion of the UTC fields of the reply
    (year 2000 + yy, month 1 to 12), and the heading is
    [cogDegrees + cogMinutes / 60] computed in floating point, which is
    within 2^-15 of a degree of the exact value. *)
Theorem C9_epoch_and_heading (buf : string) (context : QlocContext.t)
  (point : LocationPoint) :
  fst (sscanf buf QLOC_FORMAT) = 16 ->
  utc_fields_ok (reply_fields buf) ->
  0 <= QlocContext.cogDegrees (reply_fields buf) <= 999 ->
  0 <= QlocContext.cogMinutes (reply_fields buf) < 60 ->
  let fields := reply_fields buf in
  let point' := snd (parseQloc buf context point) in
  fst (fst (parseQloc buf context point)) = 0
  /\ epochTime point'
     = Calendar.utc_epoch (2000 + QlocContext.tm_year fields)
         (QlocContext.tm_month fields) (QlocContext.tm_day fields)
         (QlocContext.tm_hour fields) (QlocContext.tm_min fields)
         (QlocContext.tm_sec fields)
  /\ heading point'
     = qloc_heading (QlocContext.cogDegrees fields)
                    (QlocContext.cogMinutes fields)
  /\ (Qabs (SF2Q (heading point')
            - heading_exact (QlocContext.cogDegrees fields)
                            (QlocContext.cogMinutes fields))
      <= 1 # 32768)%Q.
Proof.
  intros H16 Hutc Hdeg Hmin. cbv zeta.
  destruct (sscanf_qloc_full buf H16)
    as (hh & mi & ss & lat & lon & hdop & alt & fx & deg & mins & kmh & kn
        & dd & mm & yy & nsat & Hvals).
  unfold reply_fields in *. unfold parseQloc.
  destruct (sscanf buf QLOC_FORMAT) as [nargs vals].
  cbn [fst snd] in *. subst nargs vals.
  unfold utc_fields_ok in Hutc.
  cbn [store_qloc argU argF argD nth_error
       QlocContext.tm_year QlocContext.tm_month QlocContext.tm_day
       QlocContext.tm_hour QlocContext.tm_min QlocContext.tm_sec
       QlocContext.cogDegrees QlocContext.cogMinutes] in *.
  destruct Hutc as (Hy & Hmo & Hd & Hh & Hmi & Hs).
  change (16 =? 0) with false. cbn [fst snd epochTime heading].
  split; [reflexivity|].
  split.
  - unfold qloc_timeinfo, set_timeinfo.
    cbn [QlocContext.timeinfo QlocContext.tm_year QlocContext.tm_month
         QlocContext.tm_day QlocContext.tm_hour QlocContext.tm_min
         QlocContext.tm_sec].
    cbn [store_qloc argU nth_error QlocContext.tm_year QlocContext.tm_month
         QlocContext.tm_day QlocContext.tm_hour QlocContext.tm_min
         QlocContext.tm_sec].
    replace (yy + 2000 - 1900) with (yy + 100) by lia.
    rewrite (u32_small (yy + 100)) by lia.
    rewrite (u32_small (mm - 1)) by lia.
    rewrite !s32_small by lia.
    apply mktime_utc; assumption.
  - split.
    + reflexivity.
    + cbn [set_timeinfo store_qloc argU nth_error QlocContext.cogDegrees
           QlocContext.cogMinutes].
      pose proof (heading_close_all deg mins Hdeg Hmin) as Hc.
      unfold heading_close in Hc.
      apply Qle_alt. intros Hgt. rewrite Hgt in Hc. discriminate Hc.
Qed.

(** C9, at a concrete reply, read over a context and a point that an
    earlier reply filled. *)
Lemma C9_epoch_and_heading_witness :
  fst (sscanf reply_fix QLOC_FORMAT) = 16
  /\ utc_fields_ok (reply_fields reply_fix)
  /\ 0 <= QlocContext.cogDegrees (reply_fields reply_fix) <= 999
  /\ 0 <= QlocContext.cogMinutes (reply_fields reply_fix) < 60
  /\ epochTime (snd (parseQloc reply_fix context_stale point_stale))
     = Calendar.utc_epoch 2013 5 11 6 19 51
  /\ heading (snd (parseQloc reply_fix context_stale point_stale))
     = qloc_heading 45 30.
Proof.
  assert (H16 : fst (sscanf reply_fix QLOC_FORMAT) = 16) by (vm_compute; reflexivity).
  assert (Hutc : utc_fields_ok (reply_fields reply_fix)).
  { vm_compute. repeat split; discriminate. }
  assert (Hdeg : 0 <= QlocContext.cogDegrees (reply_fields reply_fix) <= 999).
  { vm_compute. split; discriminate. }
  assert (Hmin : 0 <= QlocContext.cogMinutes (reply_fields reply_fix) < 60).
  { vm_compute. split; [discriminate|reflexivity]. }
  pose proof (C9_epoch_and_heading reply_fix context_stale point_stale
                H16 Hutc Hdeg Hmin) as H.
  cbv zeta in H. destruct H as (_ & He & Hh & _).
  exact (conj H16 (conj Hutc (conj Hdeg (conj Hmin (conj He Hh))))).
Defined.


(** * Further properties of the code *)

(** ** Reply buffers *)

Lemma stripLfCr_length (str : string) :
  (String.length (stripLfCr str) <= String.length str)%nat.
Proof.
  induction str as [|c str IH]; cbn [stripLfCr String.length]; [lia|].
  destruct (negb _ && negb _); cbn [String.length]; lia.
Qed.





Lemma take_length (n : nat) (s : string) :
  (String.length (take n s) <= n)%nat.
Proof.
  revert s. induction n as [|n IH]; intros s; cbn [take String.length].
  - lia.
  - destruct s as [|c s]; cbn [String.length]; [lia|].
    specialize (IH s). lia.
Qed.

Lemma take_app_length (s t : string) :
  take (String.length s) (s ++ t) = s.
Proof.
  induction s as [|c s IH]; cbn [String.length append take].
  - destruct t; reflexivity.
  - rewrite IH. reflexivity.
Qed.

Lemma strlcpy_length (dst src : string) (size : Z) :
  size <= 256 -> (String.length dst <= 255)%nat ->
  (String.length (strlcpy dst src size) <= 255)%nat.
Proof.
  intros Hs Hd. unfold strlcpy. destruct (size <=? 0) eqn:E; [exact Hd|].
  apply Z.leb_gt in E.
  pose proof (take_length (Z.to_nat (size - 1)) src). lia.
Qed.

(** X2: the two reply callbacks never overrun their buffers. Whatever the
    kind of line, its text and the length passed, a buffer that held at
    most 255 characters (256 bytes with the terminator) holds at most 255
    afterwards; a line that is neither a [+] line nor an error line leaves
    the buffer as it is. *)
Theorem X2_callbacks_keep_buffer_bound (type : RespType) (buf : string)
  (len : Z) (buffer : string) :
  (String.length buffer <= 255)%nat ->
  (String.length (glocCallback type buf len buffer) <= 255)%nat
  /\ (String.length (epeCallback type buf len buffer) <= 255)%nat
  /\ glocCallback TYPE_OTHER buf len buffer = buffer
  /\ epeCallback TYPE_OTHER buf len buffer = buffer.
Proof.
  intros Hb.
  assert (H : (String.length
                 (stripLfCr (strlcpy buffer buf (Z.min (u32 len) 256))) <= 255)%nat).
  { pose proof (stripLfCr_length (strlcpy buffer buf (Z.min (u32 len) 256))).
    pose proof (strlcpy_length buffer buf (Z.min (u32 len) 256) ltac:(lia) Hb).
    lia. }
  repeat split; try reflexivity;
    destruct type; cbn [glocCallback epeCallback];
    unfold LOC_BUFFER_SIZE, EPE_BUFFER_SIZE; assumption.
Qed.

(** X2, at a concrete line. *)
Lemma X2_callbacks_keep_buffer_bound_witness :
  (String.length reply_nofix <= 255)%nat
  /\ (String.length (glocCallback TYPE_PLUS (reply_fix ++ crlf) 80 reply_nofix)
      <= 255)%nat.
Proof.
  assert (H : (String.length reply_nofix <= 255)%nat) by (vm_compute; lia).
  split; [exact H|].
  exact (proj1 (X2_callbacks_keep_buffer_bound TYPE_PLUS (reply_fix ++ crlf)
                  80 reply_nofix H)).
Defined.

(** X3: a callback handed a [+] line or an error line with [len] equal to
    the length of the line stores the line without its last character
    (the size given to [strlcpy] counts the terminator), and without line
    feeds and carriage returns; for a line of at most 256 characters
    nothing else is lost. A line that ends in a line feed is thus stored
    whole, one that does not loses its last character. *)
Theorem X3_callback_drops_last_character (s : string) (c : ascii)
  (buffer : string) :
  (String.length s < 256)%nat ->
  let whole := (s ++ String c EmptyString)%string in
  let len := Z.of_nat (String.length whole) in
  glocCallback TYPE_PLUS whole len buffer = stripLfCr s
  /\ glocCallback TYPE_ERROR whole len buffer = stripLfCr s
  /\ epeCallback TYPE_PLUS whole len buffer = stripLfCr s
  /\ epeCallback TYPE_ERROR whole len buffer = stripLfCr s.
Proof.
  intros Hs. cbv zeta.
  assert (H : strlcpy buffer (s ++ String c EmptyString)
                (Z.min (u32 (Z.of_nat (String.length (s ++ String c EmptyString))))
                       256) = s).
  { rewrite length_append. cbn [String.length].
    rewrite u32_small by (change (2 ^ 32) with 4294967296; lia).
    rewrite Z.min_l by lia.
    unfold strlcpy.
    destruct (Z.of_nat (String.length s + 1) <=? 0) eqn:E;
      [apply Z.leb_le in E; lia|].
    replace (Z.to_nat (Z.of_nat (String.length s + 1) - 1))
      with (String.length s) by lia.
    apply take_app_length. }
  unfold glocCallback, epeCallback, LOC_BUFFER_SIZE, EPE_BUFFER_SIZE.
  rewrite H. repeat split; reflexivity.
Qed.

(** X3, on a reply without a line ending: the last digit is lost. *)
Lemma X3_callback_drops_last_character_witness :
  (String.length "+CME ERROR: 51" < 256)%nat
  /\ glocCallback TYPE_ERROR reply_nofix 15 EmptyString = "+CME ERROR: 51".
Proof.
  assert (H : (String.length "+CME ERROR: 51" < 256)%nat) by (vm_compute; lia).
  split; [exact H|].
  exact (proj1 (proj2 (X3_callback_drops_last_character "+CME ERROR: 51" "6"
                         EmptyString H))).
Defined.

(** ** Configuration *)

Lemma set_hdopThreshold_value (hdop : Z) (c : LocationConfiguration) :
  hdopThreshold (set_hdopThreshold hdop c) = Z.max 0 (Z.min 100 hdop).
Proof.
  unfold set_hdopThreshold, hdopThreshold. cbn.
  destruct (hdop <? 0) eqn:E0; [apply Z.ltb_lt in E0|apply Z.ltb_ge in E0].
  - lia.
  - destruct (100 <? hdop) eqn:E1; [apply Z.ltb_lt in E1|apply Z.ltb_ge in E1];
      lia.
Qed.

(** X4: the HDOP setter clamps its argument to 0..100 and changes nothing
    else: the stored threshold is the argument when that lies in 0..100, 0
    below and 100 above; the four other options are as before. *)
Theorem X4_hdopThreshold_clamps (hdop : Z) (c : LocationConfiguration) :
  let c' := set_hdopThreshold hdop c in
  0 <= hdopThreshold c' <= 100
  /\ hdopThreshold c' = Z.max 0 (Z.min 100 hdop)
  /\ constellations c' = constellations c
  /\ enableAntennaPower c' = enableAntennaPower c
  /\ haccThreshold c' = haccThreshold c
  /\ maximumFixTime c' = maximumFixTime c.
Proof.
  cbv zeta. rewrite set_hdopThreshold_value.
  repeat split; try reflexivity; lia.
Qed.

Lemma built_hdop_range (c : LocationConfiguration) :
  built c -> 0 <= hdopThreshold c <= 100.
Proof.
  intros H. induction H; try exact IHbuilt.
  - unfold hdopThreshold. cbn. unfold LocationHdopDefault. lia.
  - rewrite set_hdopThreshold_value. lia.
Qed.

(** X5: whatever setters built the configuration handed to [begin], and
    whatever the engine held before, the HDOP threshold the engine stores
    lies in 0..100. *)
Theorem X5_stored_hdop_in_range (env : Env)
  (configuration : LocationConfiguration) (loc : SomLocation) :
  built configuration ->
  0 <= hdopThreshold (_conf (snd (begin env configuration loc))) <= 100.
Proof.
  intros Hb. rewrite begin_conf.
  change (hdopThreshold (assign (_conf loc) configuration))
    with (hdopThreshold configuration).
  apply built_hdop_range. exact Hb.
Qed.

(** X5, for a configuration that asked for a threshold of 250. *)
Lemma X5_stored_hdop_in_range_witness :
  built (set_hdopThreshold 250 LocationConfiguration_default)
  /\ 0 <= hdopThreshold
            (_conf (snd (begin env_calm
                           (set_hdopThreshold 250 LocationConfiguration_default)
                           SomLocation_new))) <= 100.
Proof.
  assert (H : built (set_hdopThreshold 250 LocationConfiguration_default))
    by (apply built_hdopThreshold, built_default).
  split; [exact H|].
  exact (X5_stored_hdop_in_range env_calm
           (set_hdopThreshold 250 LocationConfiguration_default)
           SomLocation_new H).
Defined.

(** ** Modem detection and dispatch *)

Lemma set_modemType_same (loc : SomLocation) :
  set_modemType (_modemType loc) loc = loc.
Proof. destruct loc. reflexivity. Qed.

(** X6: [detectModemType] records the modem model once. It reports success
    exactly when the model held afterwards is a supported one; a model once
    recorded, supported or not, is never changed again, nor is anything
    changed while the modem is off or its model not yet known to the
    system; and the call touches no member but [_modemType], which never
    goes back to [Unavailable]. *)
Theorem X6_detectModemType_records_once (env : Env) (loc : SomLocation) :
  let detected := fst (detectModemType env loc) in
  let loc' := snd (detectModemType env loc) in
  (detected = true <->
     _modemType loc' = ModemType.BG95_M5 \/ _modemType loc' = ModemType.EG91)
  /\ (_modemType loc <> ModemType.Unavailable -> loc' = loc)
  /\ (isModemOn env = false -> loc' = loc)
  /\ (dev env = DEV_UNKNOWN -> loc' = loc)
  /\ (_modemType loc' = ModemType.Unavailable ->
      _modemType loc = ModemType.Unavailable)
  /\ loc' = set_modemType (_modemType loc') loc.
Proof.
  cbv zeta. unfold detectModemType, modemNotDetected.
  destruct (_modemType loc) eqn:Em; cbn [ModemType.eqb andb negb];
    destruct (isModemOn env); cbn [fst snd];
    try (destruct (dev env); cbn [fst snd _modemType set_modemType]);
    rewrite <- ?Em, ?set_modemType_same;
    repeat split; intros;
    try reflexivity; try congruence; try discriminate;
    try (destruct H; congruence); try (rewrite Em; auto); auto.
Qed.

Lemma after_detection_frame (env : Env) (loc : SomLocation) :
  _commandQueue (after_detection env loc) = _commandQueue loc
  /\ _responseQueue (after_detection env loc) = _responseQueue loc
  /\ _acquiring (after_detection env loc) = _acquiring loc
  /\ _conf (after_detection env loc) = _conf loc
  /\ _reqid (after_detection env loc) = _reqid loc.
Proof.
  unfold after_detection, detectModemType.
  destruct (modemNotDetected loc); [|repeat split; reflexivity].
  cbn [andb]. destruct (isModemOn env); [destruct (dev env)|];
    cbn; repeat split; reflexivity.
Qed.

(** The two overloads once the preconditions hold and no acquisition is
    under way. *)
Lemma getLocation_callback_dispatch (env : Env) (point : nat)
  (callback : LocationDone) (publish : bool) (loc : SomLocation) :
  modem_ready env loc = true -> _acquiring loc = false ->
  getLocation_callback env point callback publish loc
  = {| result := LocationResults.Acquiring;
       after := set_commandQueue
                  (os_queue_put (_commandQueue (after_detection env loc))
                                (callback_command point callback publish))
                  (after_detection env loc);
       waited := 0 |}.
Proof.
  intros Hready Hacq. unfold modem_ready in Hready.
  apply andb_prop in Hready. destruct Hready as [Hon Hdet].
  pose proof (after_detection_frame env loc) as (_ & _ & Ha & _).
  unfold getLocation_callback, after_detection in *. rewrite Hon. cbn [negb].
  destruct (modemNotDetected loc).
  - destruct (detectModemType env loc) as [detected loc1].
    cbn [fst snd] in *. subst detected. cbn [negb]. rewrite Ha, Hacq.
    reflexivity.
  - cbn [negb]. rewrite Hacq. reflexivity.
Qed.

Lemma getLocation_dispatch (env : Env) (point : nat) (publish : bool)
  (loc : SomLocation) :
  modem_ready env loc = true -> _acquiring loc = false ->
  let loc2 := set_commandQueue
                (os_queue_put (_commandQueue (after_detection env loc))
                              (blocking_command point))
                (after_detection env loc) in
  let w := waitOnResponseEvent (arrival env) (response_timeout loc2) loc2 in
  getLocation env point publish loc
  = {| result := snd (fst w);
       after := if publish
                   && LocationResults.eqb LocationResults.Fixed (snd (fst w))
                   && isConnected env
                then if published env
                     then set_reqid (u32 (_reqid (snd w) + 1)) (snd w)
                     else snd w
                else snd w;
       waited := fst (fst w) |}.
Proof.
  intros Hready Hacq. cbv zeta. unfold modem_ready in Hready.
  apply andb_prop in Hready. destruct Hready as [Hon Hdet].
  pose proof (after_detection_frame env loc) as (_ & _ & Ha & _).
  unfold getLocation, after_detection in *. rewrite Hon. cbn [negb].
  destruct (modemNotDetected loc).
  - destruct (detectModemType env loc) as [detected loc1].
    cbn [fst snd] in *. subst detected. cbn [negb]. rewrite Ha, Hacq.
    fold (blocking_command point).
    destruct (waitOnResponseEvent _ _ _) as [[elapsed r] loc3]. reflexivity.
  - cbn [negb]. rewrite Hacq. fold (blocking_command point).
    destruct (waitOnResponseEvent _ _ _) as [[elapsed r] loc3]. reflexivity.
Qed.

(** X7: [getLocation] answers [Unsupported] only while no modem model is
    recorded. The asynchronous overload returns [Unsupported] exactly when
    the modem is on, the recorded model is still [Unavailable] and the
    model the system reports is not the BG95-M5; under the same conditions
    the synchronous overload returns [Unsupported] and queues nothing.
    Once a model is recorded, be it [Unsupported], the check is passed
    over. *)
Theorem X7_unsupported_only_while_undetected (env : Env) (point : nat)
  (callback : LocationDone) (publish : bool) (loc : SomLocation) :
  let undetected :=
    isModemOn env = true /\ _modemType loc = ModemType.Unavailable
    /\ dev env <> DEV_QUECTEL_BG95_M5 in
  (result (getLocation_callback env point callback publish loc)
   = LocationResults.Unsupported <-> undetected)
  /\ (undetected ->
      result (getLocation env point publish loc) = LocationResults.Unsupported
      /\ _commandQueue (after (getLocation env point publish loc))
         = _commandQueue loc).
Proof.
  cbv zeta. split.
  - unfold getLocation_callback, detectModemType, modemNotDetected.
    destruct (isModemOn env); cbn [negb andb].
    2: { cbn. split; [discriminate|intros (H & _); discriminate H]. }
    destruct (_modemType loc) eqn:Em; cbn [ModemType.eqb negb andb].
    + destruct (dev env); cbn [negb result _acquiring set_modemType].
      * split; [intros _; repeat split; discriminate|reflexivity].
      * destruct (_acquiring loc); cbn [result];
          (split; [discriminate|intros (_ & _ & H); congruence]).
      * split; [intros _; repeat split; discriminate|reflexivity].
    + destruct (_acquiring loc); cbn [result];
        (split; [discriminate|intros (_ & H & _); discriminate H]).
    + destruct (_acquiring loc); cbn [result];
        (split; [discriminate|intros (_ & H & _); discriminate H]).
    + destruct (_acquiring loc); cbn [result];
        (split; [discriminate|intros (_ & H & _); discriminate H]).
  - intros (Hon & Hm & Hdev).
    unfold getLocation, detectModemType, modemNotDetected.
    rewrite Hon, Hm. cbn [negb andb ModemType.eqb].
    destruct (dev env); [| congruence |]; cbn; split; reflexivity.
Qed.

(** X8: with a modem of a model the library does not know, the first call
    on a fresh engine returns [Unsupported] and records the model as
    [Unsupported]; a second call then passes the model check, returns
    [Acquiring] and puts an [Acquire] command in the queue for the worker. *)
Theorem X8_second_call_on_unsupported_modem_dispatches (env : Env)
  (point : nat) (callback : LocationDone) (publish : bool)
  (loc : SomLocation) :
  isModemOn env = true -> dev env = DEV_OTHER ->
  _modemType loc = ModemType.Unavailable ->
  _acquiring loc = false -> _commandQueue loc = [] ->
  let first := getLocation_callback env point callback publish loc in
  let second := getLocation_callback env point callback publish (after first) in
  result first = LocationResults.Unsupported
  /\ _modemType (after first) = ModemType.Unsupported
  /\ _commandQueue (after first) = []
  /\ result second = LocationResults.Acquiring
  /\ _commandQueue (after second) = [callback_command point callback publish].
Proof.
  intros Hon Hdev Hm Hacq Hq. cbv zeta.
  unfold getLocation_callback, detectModemType, modemNotDetected.
  rewrite Hon, Hm, Hdev. cbn. rewrite Hacq, Hq. cbn.
  repeat split; reflexivity.
Qed.

(** X8, on a freshly constructed engine. *)
Lemma X8_second_call_on_unsupported_modem_dispatches_witness :
  isModemOn env_other_modem = true /\ dev env_other_modem = DEV_OTHER
  /\ _modemType SomLocation_new = ModemType.Unavailable
  /\ _acquiring SomLocation_new = false /\ _commandQueue SomLocation_new = []
  /\ result (getLocation_callback env_other_modem 0%nat (Some 7%nat) false
               SomLocation_new) = LocationResults.Unsupported
  /\ result (getLocation_callback env_other_modem 0%nat (Some 7%nat) false
               (after (getLocation_callback env_other_modem 0%nat (Some 7%nat)
                         false SomLocation_new)))
     = LocationResults.Acquiring.
Proof.
  pose proof (X8_second_call_on_unsupported_modem_dispatches env_other_modem
                0%nat (Some 7%nat) false SomLocation_new
                eq_refl eq_refl eq_refl eq_refl eq_refl) as H.
  cbv zeta in H. destruct H as (H1 & _ & _ & H2 & _).
  do 5 (split; [reflexivity|]). split; [exact H1|exact H2].
Defined.

(** X9: a call of the asynchronous overload that passes the checks returns
    [Acquiring] at once and leaves the acquiring flag as it was, so that
    [getStatus] still answers [Idle] until the worker takes the command.
    The command queue has one slot: into an empty queue goes the command
    with the caller's point, callback and publish flag; when the queue
    still holds a command the new one is dropped, and the call returns
    [Acquiring] all the same. *)
Theorem X9_async_dispatch_queue_of_one (env : Env) (point : nat)
  (callback : LocationDone) (publish : bool) (loc : SomLocation) :
  modem_ready env loc = true -> _acquiring loc = false ->
  let call := getLocation_callback env point callback publish loc in
  result call = LocationResults.Acquiring
  /\ waited call = 0
  /\ getStatus (after call) = LocationResults.Idle
  /\ (_commandQueue loc = [] ->
      _commandQueue (after call) = [callback_command point callback publish])
  /\ (_commandQueue loc <> [] ->
      _commandQueue (after call) = _commandQueue loc).
Proof.
  intros Hready Hacq. cbv zeta.
  rewrite (getLocation_callback_dispatch env point callback publish loc Hready Hacq).
  pose proof (after_detection_frame env loc) as (Hq & _ & Ha & _).
  cbn [result waited after]. unfold getStatus.
  cbn [_acquiring _commandQueue set_commandQueue]. rewrite Ha, Hacq, Hq.
  repeat split; try reflexivity.
  - intros E. rewrite E. reflexivity.
  - intros E. destruct (_commandQueue loc); [congruence|reflexivity].
Qed.

(** X9, on an idle engine whose queue is empty. *)
Lemma X9_async_dispatch_queue_of_one_witness :
  modem_ready env_calm engine_bg95 = true /\ _acquiring engine_bg95 = false
  /\ result (getLocation_callback env_calm 0%nat (Some 7%nat) true engine_bg95)
     = LocationResults.Acquiring
  /\ getStatus (after (getLocation_callback env_calm 0%nat (Some 7%nat) true
                         engine_bg95)) = LocationResults.Idle.
Proof.
  pose proof (X9_async_dispatch_queue_of_one env_calm 0%nat (Some 7%nat) true
                engine_bg95 eq_refl eq_refl) as H.
  cbv zeta in H. destruct H as (H1 & _ & H2 & _).
  split; [reflexivity|]. split; [reflexivity|]. split; [exact H1|exact H2].
Defined.

Lemma waitOnResponseEvent_frame (q : option (Z * LocationResults.t))
  (t : Z) (l : SomLocation) :
  _acquiring (snd (waitOnResponseEvent q t l)) = _acquiring l
  /\ _conf (snd (waitOnResponseEvent q t l)) = _conf l
  /\ _commandQueue (snd (waitOnResponseEvent q t l)) = _commandQueue l
  /\ _reqid (snd (waitOnResponseEvent q t l)) = _reqid l
  /\ _modemType (snd (waitOnResponseEvent q t l)) = _modemType l.
Proof.
  unfold waitOnResponseEvent.
  destruct (os_queue_take _ _ _) as [[e r] q']. destruct r;
    repeat split; reflexivity.
Qed.

Lemma getLocation_frame (env : Env) (point : nat) (publish : bool)
  (loc : SomLocation) :
  _acquiring (after (getLocation env point publish loc)) = _acquiring loc
  /\ _conf (after (getLocation env point publish loc)) = _conf loc.
Proof.
  pose proof (after_detection_frame env loc) as (_ & _ & Ha & Hc & _).
  unfold after_detection in Ha, Hc. unfold getLocation.
  destruct (isModemOn env); cbn [negb]; [|split; reflexivity].
  destruct (modemNotDetected loc).
  - destruct (detectModemType env loc) as [detected loc1]. cbn [snd] in Ha, Hc.
    destruct detected; cbn [negb]; [|cbn [after]; split; assumption].
    destruct (_acquiring loc1) eqn:E1; [cbn [after]; split; [congruence|exact Hc]|].
    match goal with
    | |- context [waitOnResponseEvent ?q ?t ?l] =>
        pose proof (waitOnResponseEvent_frame q t l) as (Hwa & Hwc & _);
        destruct (waitOnResponseEvent q t l) as [[e r] l3]
    end.
    cbn [snd after] in *. cbn [_acquiring _conf set_commandQueue] in Hwa, Hwc.
    destruct (publish && LocationResults.eqb LocationResults.Fixed r
              && isConnected env); [destruct (published env)|];
      cbn [_acquiring _conf set_reqid]; rewrite Hwa, Hwc; cbn; split; congruence.
  - cbn [negb].
    destruct (_acquiring loc) eqn:E1; [cbn [after]; split; [exact E1|reflexivity]|].
    match goal with
    | |- context [waitOnResponseEvent ?q ?t ?l] =>
        pose proof (waitOnResponseEvent_frame q t l) as (Hwa & Hwc & _);
        destruct (waitOnResponseEvent q t l) as [[e r] l3]
    end.
    cbn [snd after] in *. cbn [_acquiring _conf set_commandQueue] in Hwa, Hwc.
    destruct (publish && LocationResults.eqb LocationResults.Fixed r
              && isConnected env); [destruct (published env)|];
      cbn [_acquiring _conf set_reqid]; rewrite Hwa, Hwc; cbn; split; congruence.
Qed.

Lemma getLocation_callback_frame (env : Env) (point : nat)
  (callback : LocationDone) (publish : bool) (loc : SomLocation) :
  _acquiring (after (getLocation_callback env point callback publish loc))
  = _acquiring loc
  /\ _conf (after (getLocation_callback env point callback publish loc))
     = _conf loc.
Proof.
  pose proof (after_detection_frame env loc) as (_ & _ & Ha & Hc & _).
  unfold after_detection in Ha, Hc. unfold getLocation_callback.
  destruct (isModemOn env); cbn [negb]; [|split; reflexivity].
  destruct (modemNotDetected loc).
  - destruct (detectModemType env loc) as [detected loc1]. cbn [snd] in Ha, Hc.
    destruct detected; cbn [negb]; [|cbn [after]; split; assumption].
    destruct (_acquiring loc1) eqn:E1; cbn; split; congruence.
  - cbn [negb]. destruct (_acquiring loc) eqn:E1; cbn; split; congruence.
Qed.

(** X10: [getLocation], in either overload and whatever it returns, never
    changes the acquiring flag or the stored configuration, and so never
    changes, on its own, the answer of [getStatus]; the flag belongs to
    the worker. *)
Theorem X10_calls_leave_status (env : Env) (point : nat)
  (callback : LocationDone) (publish : bool) (loc : SomLocation) :
  let sync := getLocation env point publish loc in
  let async := getLocation_callback env point callback publish loc in
  getStatus (after sync) = getStatus loc
  /\ getStatus (after async) = getStatus loc
  /\ _conf (after sync) = _conf loc
  /\ _conf (after async) = _conf loc.
Proof.
  cbv zeta. unfold getStatus.
  destruct (getLocation_frame env point publish loc) as [Ha Hc].
  destruct (getLocation_callback_frame env point callback publish loc)
    as [Ha' Hc'].
  rewrite Ha, Ha'. repeat split; assumption.
Qed.

(** ** Queues of one slot *)

Lemma os_queue_put_length {A : Type} (q : list A) (item : A) :
  (List.length q <= 1)%nat -> (List.length (os_queue_put q item) <= 1)%nat.
Proof.
  destruct q as [|x q]; cbn; lia.
Qed.

Lemma os_queue_take_length {A : Type} (q : list A) (arr : option (Z * A))
  (t : Z) :
  (List.length q <= 1)%nat ->
  (List.length (snd (os_queue_take q arr t)) <= 1)%nat.
Proof.
  unfold os_queue_take. destruct q as [|x q]; cbn.
  - destruct arr as [[z a]|]; [destruct (z <=? t)|]; cbn; lia.
  - lia.
Qed.

(** X11: a blocking call that finds a response already in the response
    queue, left there by an attempt whose caller had stopped waiting,
    returns that response at once, without waiting for the attempt it has
    just dispatched; the response is taken out of the queue. *)
Theorem X11_queued_response_returned_at_once (env : Env) (point : nat)
  (publish : bool) (loc : SomLocation) (r : LocationResults.t)
  (q : list LocationResults.t) :
  modem_ready env loc = true -> _acquiring loc = false ->
  _responseQueue loc = r :: q ->
  let call := getLocation env point publish loc in
  result call = r /\ waited call = 0
  /\ _responseQueue (after call) = q
  /\ (_commandQueue loc = [] ->
      _commandQueue (after call) = [blocking_command point]).
Proof.
  intros Hready Hacq Hq. cbv zeta.
  rewrite (getLocation_dispatch env point publish loc Hready Hacq).
  pose proof (after_detection_frame env loc) as (Hcq & Hrq & _).
  cbv zeta. unfold waitOnResponseEvent, os_queue_take.
  cbn [_responseQueue set_commandQueue]. rewrite Hrq, Hq, Hcq.
  cbn [fst snd result waited after].
  repeat split.
  - destruct (publish && LocationResults.eqb LocationResults.Fixed r
              && isConnected env); [destruct (published env)|]; reflexivity.
  - intros E. rewrite E.
    destruct (publish && LocationResults.eqb LocationResults.Fixed r
              && isConnected env); [destruct (published env)|]; reflexivity.
Qed.

(** X11, with a [TimedOut] left in the queue. *)
Lemma X11_queued_response_returned_at_once_witness :
  modem_ready env_answer (set_responseQueue [LocationResults.TimedOut] engine_bg95)
  = true
  /\ _acquiring (set_responseQueue [LocationResults.TimedOut] engine_bg95) = false
  /\ _responseQueue (set_responseQueue [LocationResults.TimedOut] engine_bg95)
     = [LocationResults.TimedOut]
  /\ result (getLocation env_answer 0%nat false
               (set_responseQueue [LocationResults.TimedOut] engine_bg95))
     = LocationResults.TimedOut
  /\ waited (getLocation env_answer 0%nat false
               (set_responseQueue [LocationResults.TimedOut] engine_bg95)) = 0.
Proof.
  pose proof (X11_queued_response_returned_at_once env_answer 0%nat false
                (set_responseQueue [LocationResults.TimedOut] engine_bg95)
                LocationResults.TimedOut [] eq_refl eq_refl eq_refl) as H.
  cbv zeta in H. destruct H as (H1 & H2 & _).
  do 3 (split; [reflexivity|]). split; [exact H1|exact H2].
Defined.

(** X12: the publish sequence number moves only on a successful publish.
    After a blocking call that passed the checks, [_reqid] is one more
    (modulo 2^32) exactly when the caller asked to publish, the result is
    [Fixed], the device is connected and the publish succeeded; in every
    other case it is as before. *)
Theorem X12_reqid_counts_successful_publishes (env : Env) (point : nat)
  (publish : bool) (loc : SomLocation) :
  modem_ready env loc = true -> _acquiring loc = false ->
  let call := getLocation env point publish loc in
  _reqid (after call)
  = if publish && LocationResults.eqb LocationResults.Fixed (result call)
       && isConnected env && published env
    then u32 (_reqid loc + 1) else _reqid loc.
Proof.
  intros Hready Hacq. cbv zeta.
  rewrite (getLocation_dispatch env point publish loc Hready Hacq).
  pose proof (after_detection_frame env loc) as (_ & _ & _ & _ & Hid).
  cbv zeta. cbn [result after].
  match goal with
  | |- context [waitOnResponseEvent ?a ?t ?l] =>
      pose proof (waitOnResponseEvent_frame a t l) as (_ & _ & _ & Hw & _);
      destruct (waitOnResponseEvent a t l) as [[e r] l3]
  end.
  cbn [fst snd] in *. cbn [_reqid set_commandQueue] in Hw.
  destruct (publish && LocationResults.eqb LocationResults.Fixed r
            && isConnected env); cbn [andb].
  - destruct (published env); cbn [_reqid set_reqid]; congruence.
  - congruence.
Qed.

(** X12, for a fix that is published. *)
Lemma X12_reqid_counts_successful_publishes_witness :
  modem_ready env_answer engine_bg95 = true /\ _acquiring engine_bg95 = false
  /\ _reqid (after (getLocation env_answer 0%nat true engine_bg95)) = 2.
Proof.
  split; [reflexivity|]. split; [reflexivity|].
  exact (X12_reqid_counts_successful_publishes env_answer 0%nat true
           engine_bg95 eq_refl eq_refl).
Defined.

(** ** The loop and its last pass *)

Lemma poll_loop_stopped (start maxTime : Z) (cycles : list Cycle) :
  forall st r p st',
    poll_loop start maxTime cycles st = Stopped r p st' ->
    exists pre c post st1,
      cycles = (pre ++ c :: post)%list
      /\ poll_loop start maxTime pre st = Running st1
      /\ poll_cycle start maxTime c st1 = (Some (r, p), st').
Proof.
  induction cycles as [|c cycles IH]; intros st r p st' E.
  - discriminate E.
  - cbn [poll_loop] in E.
    destruct (poll_cycle start maxTime c st) as [[[r1 p1]|] st1] eqn:Ec.
    + injection E as <- <- <-.
      exists [], c, cycles, st. repeat split; try reflexivity. exact Ec.
    + destruct (IH st1 r p st' E) as (pre & c' & post & st2 & Hc & Hp & Hl).
      exists (c :: pre), c', post, st2. repeat split.
      * rewrite Hc. reflexivity.
      * cbn [poll_loop]. rewrite Ec. exact Hp.
      * exact Hl.
Qed.

Lemma final_response_Fixed (r : LocationResults.t) (p : bool) :
  final_response r p = LocationResults.Fixed -> r = LocationResults.Fixed.
Proof.
  unfold final_response. destruct p, r; cbn; congruence.
Qed.


(** ** Frames of the parsers *)

(** The fields of the point that the position parser never writes. *)
Lemma parseQloc_frame (buf : string) (context : QlocContext.t)
  (point : LocationPoint) :
  let point' := snd (parseQloc buf context point) in
  systemTime point' = systemTime point
  /\ horizontalAccuracy point' = horizontalAccuracy point
  /\ verticalAccuracy point' = verticalAccuracy point
  /\ verticalDop point' = verticalDop point
  /\ timeToFirstFix point' = timeToFirstFix point.
Proof.
  cbv zeta. unfold parseQloc.
  destruct (sscanf buf QLOC_FORMAT) as [nargs vals].
  destruct (nargs =? 0); cbn; repeat split; reflexivity.
Qed.

Lemma parseQlocResponse_frame (buf : string) (context : QlocContext.t)
  (point : LocationPoint) :
  let point' := snd (parseQlocResponse buf context point) in
  systemTime point' = systemTime point
  /\ horizontalAccuracy point' = horizontalAccuracy point
  /\ verticalAccuracy point' = verticalAccuracy point
  /\ verticalDop point' = verticalDop point
  /\ timeToFirstFix point' = timeToFirstFix point.
Proof.
  cbv zeta. unfold parseQlocResponse.
  pose proof (parseQloc_frame buf context point) as H. cbv zeta in H.
  destruct (CME_Error.eqb CME_Error.NO_FIX (parseCmeError buf));
    [cbn; repeat split; reflexivity|].
  destruct (negb (CME_Error.eqb CME_Error.NONE (parseCmeError buf)));
    [cbn; repeat split; reflexivity|].
  destruct (parseQloc buf context point) as [[r c] p]. exact H.
Qed.

Lemma set_accuracy_same (p : LocationPoint) :
  set_accuracy (horizontalAccuracy p) (verticalAccuracy p) p = p.
Proof. destruct p. reflexivity. Qed.

(** The accuracy parser writes the two accuracies and nothing else. *)
Lemma parseEpeResponse_frame (buf : string) (context : EpeContext)
  (point : LocationPoint) :
  let point' := snd (parseEpeResponse buf context point) in
  point' = set_accuracy (horizontalAccuracy point') (verticalAccuracy point')
             point.
Proof.
  cbv zeta. unfold parseEpeResponse.
  destruct (negb (CME_Error.eqb CME_Error.NONE (parseCmeError buf)));
    [cbn [snd]; symmetry; apply set_accuracy_same|].
  destruct (sscanf buf EPE_FORMAT) as [nargs vals].
  destruct (negb (nargs =? 0)); cbn [snd].
  - reflexivity.
  - symmetry. apply set_accuracy_same.
Qed.

Lemma CME_eqb_FIX (ret : CME_Error.t) :
  CME_Error.eqb CME_Error.FIX ret = true <-> ret = CME_Error.FIX.
Proof.
  destruct ret; cbn; split; congruence.
Qed.

(** ** Frames of the polling loop *)

Lemma engine_frame_refl (a : SomLocation) : engine_frame a a.
Proof. repeat split. Qed.

Lemma engine_frame_trans (a b c : SomLocation) :
  engine_frame a b -> engine_frame b c -> engine_frame a c.
Proof.
  unfold engine_frame. intros (H1 & H2 & H3 & H4 & H5 & H6 & H7)
    (G1 & G2 & G3 & G4 & G5 & G6 & G7).
  repeat split; congruence.
Qed.

(** What a pass leaves alone. *)
Lemma poll_cycle_frame (start maxTime : Z) (c : Cycle) (st : LoopState) :
  let st' := snd (poll_cycle start maxTime c st) in
  engine_frame (eng st') (eng st)
  /\ verticalDop (pt st') = verticalDop (pt st)
  /\ timeToFirstFix (pt st') = timeToFirstFix (pt st)
  /\ (firstFix st <> 0 \/ pass_decode c st <> CME_Error.FIX
      \/ pass_ends start maxTime c = true ->
      firstFix st' = firstFix st /\ systemTime (pt st') = systemTime (pt st))
  /\ (pass_decode c st <> CME_Error.FIX \/ pass_ends start maxTime c = true ->
      fixCount st' = fixCount st)
  /\ (pass_ends start maxTime c = false ->
      pass_decode c st = CME_Error.FIX -> firstFix st = 0 ->
      firstFix st' = fixMillis c /\ systemTime (pt st') = timeNow c).
Proof.
  cbv zeta. unfold poll_cycle, pass_ends, pass_decode, pass_reply.
  destruct (power c); cbn [negb orb].
  2: { cbn [snd]. repeat split; try reflexivity; intros; discriminate. }
  destruct (maxTime <=? u64 (now c - start)).
  { cbn [snd]. repeat split; try reflexivity; intros; discriminate. }
  pose proof (parseQlocResponse_frame
                (command_with glocCallback (locLines c) (_locBuffer (eng st)))
                (_qlocContext (eng st)) (pt st)) as Hq.
  cbv zeta in Hq.
  destruct (parseQlocResponse _ _ _) as [[ret qctx] point].
  cbn [fst snd] in *. destruct Hq as (Hs & _ & _ & Hv & Ht).
  set (loc1 := set_loc _ qctx (eng st)).
  assert (Hl1 : engine_frame loc1 (eng st)) by (repeat split).
  set (isfirst := CME_Error.eqb CME_Error.FIX ret && (0 =? firstFix st)).
  set (point1 := if isfirst then set_systemTime (timeNow c) point else point).
  assert (Hp1 : verticalDop point1 = verticalDop (pt st)
                /\ timeToFirstFix point1 = timeToFirstFix (pt st)
                /\ systemTime point1
                   = if isfirst then timeNow c else systemTime (pt st)).
  { unfold point1. destruct isfirst; cbn; repeat split; assumption. }
  destruct Hp1 as (Hv1 & Ht1 & Hs1).
  assert (Hepe : forall l p,
            (if ModemType.eqb ModemType.BG95_M5 (_modemType loc1)
             then let epeBuffer := command_with epeCallback (epeLines c)
                                     (_epeBuffer loc1) in
                  let '(ectx, p') := parseEpeResponse epeBuffer
                                       (_epeContext loc1) point1 in
                  (set_epe epeBuffer ectx loc1, p')
             else (loc1, point1)) = (l, p) ->
            engine_frame l (eng st)
            /\ verticalDop p = verticalDop (pt st)
            /\ timeToFirstFix p = timeToFirstFix (pt st)
            /\ systemTime p = systemTime point1).
  { intros l p E.
    destruct (ModemType.eqb ModemType.BG95_M5 (_modemType loc1)).
    - cbv zeta in E.
      pose proof (parseEpeResponse_frame
                    (command_with epeCallback (epeLines c) (_epeBuffer loc1))
                    (_epeContext loc1) point1) as He.
      cbv zeta in He.
      destruct (parseEpeResponse _ _ _) as [ectx p']. cbn [snd] in He.
      injection E as <- <-. rewrite He. cbn.
      repeat split; assumption.
    - injection E as <- <-. repeat split; assumption. }
  destruct (if ModemType.eqb ModemType.BG95_M5 (_modemType loc1)
            then _ else _) as [l p] eqn:El.
  destruct (Hepe l p eq_refl) as (Hl & Hvp & Htp & Hsp).
  assert (Hgoal :
    engine_frame l (eng st)
    /\ verticalDop p = verticalDop (pt st)
    /\ timeToFirstFix p = timeToFirstFix (pt st)
    /\ (firstFix st <> 0 \/ ret <> CME_Error.FIX \/ false = true ->
        (if isfirst then fixMillis c else firstFix st) = firstFix st
        /\ systemTime p = systemTime (pt st))
    /\ (ret <> CME_Error.FIX \/ false = true ->
        (if CME_Error.eqb CME_Error.FIX ret then s32 (fixCount st + 1)
         else fixCount st) = fixCount st)
    /\ (false = false -> ret = CME_Error.FIX -> firstFix st = 0 ->
        (if isfirst then fixMillis c else firstFix st) = fixMillis c
        /\ systemTime p = timeNow c)).
  { split; [exact Hl|]. split; [exact Hvp|]. split; [exact Htp|].
    rewrite Hsp, Hs1. unfold isfirst.
    split; [|split].
    - intros [H|[H|H]]; [| |discriminate H].
      + replace (0 =? firstFix st) with false
          by (symmetry; apply Z.eqb_neq; congruence).
        rewrite andb_false_r. split; reflexivity.
      + destruct (CME_Error.eqb CME_Error.FIX ret) eqn:E;
          [apply CME_eqb_FIX in E; contradiction|]. split; reflexivity.
    - intros [H|H]; [|discriminate H].
      destruct (CME_Error.eqb CME_Error.FIX ret) eqn:E;
        [apply CME_eqb_FIX in E; contradiction|reflexivity].
    - intros _ Hr H0. apply CME_eqb_FIX in Hr. rewrite Hr, H0. cbn.
      split; reflexivity. }
  destruct (fix_settled _ _ _ _); cbn [snd eng pt fixCount firstFix];
    exact Hgoal.
Qed.

Lemma poll_loop_frame (start maxTime : Z) (cycles : list Cycle) :
  forall st,
    let st' := state_of (poll_loop start maxTime cycles st) in
    engine_frame (eng st') (eng st)
    /\ verticalDop (pt st') = verticalDop (pt st)
    /\ timeToFirstFix (pt st') = timeToFirstFix (pt st)
    /\ (firstFix st <> 0 ->
        firstFix st' = firstFix st /\ systemTime (pt st') = systemTime (pt st)).
Proof.
  induction cycles as [|c cycles IH]; intros st; cbv zeta; cbn [poll_loop].
  - cbn [state_of]. split; [apply engine_frame_refl|]. repeat split; reflexivity.
  - pose proof (poll_cycle_frame start maxTime c st) as H. cbv zeta in H.
    destruct (poll_cycle start maxTime c st) as [[[r p]|] st1];
      cbn [snd] in H; destruct H as (He & Hv & Ht & Hf & _).
    + cbn [state_of]. split; [exact He|]. split; [exact Hv|].
      split; [exact Ht|]. intros H0. apply Hf. left. exact H0.
    + specialize (IH st1). cbv zeta in IH.
      destruct IH as (He' & Hv' & Ht' & Hf').
      split; [exact (engine_frame_trans _ _ _ He' He)|].
      split; [congruence|]. split; [congruence|].
      intros H0. destruct (Hf (or_introl H0)) as [Hf1 Hs1].
      destruct (Hf' ltac:(congruence)) as [Hf2 Hs2]. split; congruence.
Qed.

(** The loop ends with [Fixed] and the modem on, or with [TimedOut]. *)
Lemma poll_loop_stop_kinds (start maxTime : Z) (cycles : list Cycle) :
  forall st r p st',
    poll_loop start maxTime cycles st = Stopped r p st' ->
    (r = LocationResults.Fixed /\ p = true) \/ r = LocationResults.TimedOut.
Proof.
  intros st r p st' E.
  destruct (poll_loop_stopped start maxTime cycles st r p st' E)
    as (pre & c & post & st1 & _ & _ & Hc).
  pose proof (poll_cycle_cases start maxTime c st1) as H. rewrite Hc in H.
  destruct H as [Hend Hpoll].
  destruct (pass_ends start maxTime c).
  - destruct (Hend eq_refl) as (_ & q & Hq). injection Hq as -> _. right.
    reflexivity.
  - destruct (Hpoll eq_refl) as (_ & _ & Hout).
    destruct (fix_settled _ _ _ _); [|discriminate Hout].
    injection Hout as -> ->. left. split; reflexivity.
Qed.

Lemma acquire_unfold (env : AcquireEnv) (event : LocationCommandContext)
  (point : LocationPoint) (loc : SomLocation) :
  acquire env event point loc
  = match poll_loop (start env) (attempt_maxTime loc) (cycles env)
            (attempt_start point loc) with
    | Running _ => None
    | Stopped r p st => Some (completion_of env event r p st)
    end.
Proof.
  unfold acquire, completion_of, attempt_maxTime, attempt_start.
  change (_conf (set_acquiring true loc)) with (_conf loc).
  destruct (poll_loop _ _ _ _) as [r p st|st]; [|reflexivity].
  destruct (sendResponse event); [reflexivity|].
  destruct (doneCallback event); reflexivity.
Qed.

(** What the part after the loop does to the engine and the point. *)
Lemma completion_of_frame (env : AcquireEnv) (event : LocationCommandContext)
  (r : LocationResults.t) (p : bool) (st : LoopState) :
  let done := completion_of env event r p st in
  response done = final_response r p
  /\ _acquiring (engine done) = false
  /\ _conf (engine done) = _conf (eng st)
  /\ _modemType (engine done) = _modemType (eng st)
  /\ _commandQueue (engine done) = _commandQueue (eng st)
  /\ _antennaPowerPin (engine done) = _antennaPowerPin (eng st)
  /\ _locBuffer (engine done) = _locBuffer (eng st)
  /\ fixed_point done
     = (if firstFix st =? 0 then pt st
        else set_timeToFirstFix (ttff (firstFix st) (start env)) (pt st))
  /\ (sendResponse event = true ->
      called done = None
      /\ _responseQueue (engine done)
         = os_queue_put (_responseQueue (eng st)) (final_response r p)
      /\ _reqid (engine done) = _reqid (eng st))
  /\ (sendResponse event = false ->
      _responseQueue (engine done) = _responseQueue (eng st)
      /\ called done
         = match doneCallback event with
           | Some cb => Some (cb, final_response r p)
           | None => None
           end
      /\ _reqid (engine done)
         = if match doneCallback event with Some _ => true | None => false end
              && publish event
              && LocationResults.eqb LocationResults.Fixed (final_response r p)
              && connected env && publish_ok env
           then u32 (_reqid (eng st) + 1) else _reqid (eng st)).
Proof.
  cbv zeta. unfold completion_of.
  destruct (sendResponse event); [cbn; repeat split; intros; try reflexivity; discriminate|].
  destruct (doneCallback event);
    [|cbn; repeat split; intros; try reflexivity; discriminate].
  destruct (publish event); cbn [andb];
    [|cbn; repeat split; intros; try reflexivity; discriminate].
  destruct (LocationResults.eqb LocationResults.Fixed (final_response r p));
    cbn [andb];
    [|cbn; repeat split; intros; try reflexivity; discriminate].
  destruct (connected env); cbn [andb];
    [|cbn; repeat split; intros; try reflexivity; discriminate].
  destruct (publish_ok env);
    cbn; repeat split; intros; try reflexivity; discriminate.
Qed.

(** ** The acquisition as a whole *)

(** X13: an acquisition that comes to its end always gives the engine
    back: the acquiring flag is cleared and [getStatus] answers [Idle]; the
    response is [Fixed], [TimedOut] or [Unavailable]; configuration, modem
    model, antenna pin and command queue are as before. The response is
    delivered once: to the response queue (if that has room) and to no
    callback when the command asks for a response, and otherwise to the
    callback of the command, if it has one, and not to the queue. *)
Theorem X13_acquire_releases_and_delivers (env : AcquireEnv)
  (event : LocationCommandContext) (point : LocationPoint) (loc : SomLocation)
  (done : Completion) :
  acquire env event point loc = Some done ->
  (_acquiring (engine done) = false
   /\ getStatus (engine done) = LocationResults.Idle)
  /\ (response done = LocationResults.Fixed
      \/ response done = LocationResults.TimedOut
      \/ response done = LocationResults.Unavailable)
  /\ (_conf (engine done) = _conf loc
      /\ _modemType (engine done) = _modemType loc
      /\ _antennaPowerPin (engine done) = _antennaPowerPin loc
      /\ _commandQueue (engine done) = _commandQueue loc)
  /\ (sendResponse event = true ->
      called done = None
      /\ _responseQueue (engine done)
         = os_queue_put (_responseQueue loc) (response done))
  /\ (sendResponse event = false ->
      _responseQueue (engine done) = _responseQueue loc
      /\ called done
         = match doneCallback event with
           | Some cb => Some (cb, response done)
           | None => None
           end).
Proof.
  rewrite acquire_unfold. intros E.
  destruct (poll_loop _ _ _ _) as [r p st|st] eqn:El; [|discriminate E].
  injection E as <-.
  pose proof (poll_loop_frame (start env) (attempt_maxTime loc) (cycles env)
                (attempt_start point loc)) as Hf.
  cbv zeta in Hf. rewrite El in Hf. cbn [state_of attempt_start eng] in Hf.
  destruct Hf as ((Hq & Hrq & _ & Hc & Hpin & Hm & _) & _).
  cbn in Hq, Hrq, Hc, Hpin, Hm.
  pose proof (completion_of_frame env event r p st) as H. cbv zeta in H.
  destruct H as (Hr & Ha & Hc' & Hm' & Hq' & Hpin' & _ & _ & Hsend & Hcb).
  split; [split; [exact Ha|unfold getStatus; rewrite Ha; reflexivity]|].
  split.
  { rewrite Hr.
    destruct (poll_loop_stop_kinds _ _ _ _ _ _ _ El) as [[-> ->]| ->].
    - left. reflexivity.
    - destruct p; [right; left|right; right]; reflexivity. }
  split; [repeat split; congruence|].
  split.
  - intros Hs. destruct (Hsend Hs) as (H1 & H2 & _). split; [exact H1|].
    rewrite H2, Hr, Hrq. reflexivity.
  - intros Hs. destruct (Hcb Hs) as (H1 & H2 & _). split; [congruence|].
    rewrite H2, Hr. reflexivity.
Qed.

(** X13, on an attempt of two good fixes made for a blocking caller. *)
Lemma X13_acquire_releases_and_delivers_witness :
  exists done,
    acquire env_settles blocking_event empty_point engine_bg95 = Some done
    /\ _acquiring (engine done) = false
    /\ getStatus (engine done) = LocationResults.Idle
    /\ _responseQueue (engine done) = [response done].
Proof.
  assert (E : acquire env_settles blocking_event empty_point engine_bg95
              = Some (completion_of env_settles blocking_event
                        LocationResults.Fixed true
                        (state_of (poll_loop 1000 90000 (cycles env_settles)
                                     (attempt_start empty_point engine_bg95)))))
    by (vm_compute; reflexivity).
  eexists. split; [exact E|].
  pose proof (X13_acquire_releases_and_delivers env_settles blocking_event
                empty_point engine_bg95 _ E) as H.
  destruct H as ((Ha & Hs) & _ & _ & Hsend & _).
  exact (conj Ha (conj Hs (proj2 (Hsend eq_refl)))).
Defined.

(** X14: an attempt that ends with [Fixed] hands back a point whose
    horizontal DOP and horizontal accuracy are within the thresholds of the
    configuration the engine stores, and the engine still stores that
    configuration. *)
Theorem X14_fixed_point_meets_thresholds (env : AcquireEnv)
  (event : LocationCommandContext) (point : LocationPoint) (loc : SomLocation)
  (done : Completion) :
  acquire env event point loc = Some done ->
  response done = LocationResults.Fixed ->
  F32.leb (horizontalDop (fixed_point done))
          (F32.of_Z (hdopThreshold (_conf (engine done)))) = true
  /\ F32.leb (horizontalAccuracy (fixed_point done))
             (haccThreshold (_conf (engine done))) = true
  /\ _conf (engine done) = _conf loc.
Proof.
  rewrite acquire_unfold. intros E Hfixed.
  destruct (poll_loop _ _ _ _) as [r p st|st] eqn:El; [|discriminate E].
  injection E as <-.
  pose proof (completion_of_frame env event r p st) as H. cbv zeta in H.
  destruct H as (Hr & _ & Hc & _ & _ & _ & _ & Hp & _).
  rewrite Hr in Hfixed. apply final_response_Fixed in Hfixed. subst r.
  pose proof (poll_loop_frame (start env) (attempt_maxTime loc) (cycles env)
                (attempt_start point loc)) as Hf.
  cbv zeta in Hf. rewrite El in Hf. cbn [state_of attempt_start eng] in Hf.
  destruct Hf as ((_ & _ & _ & Hconf & _) & _). cbn in Hconf.
  destruct (poll_loop_stopped _ _ _ _ _ _ _ El)
    as (pre & c & post & st1 & _ & _ & Hlast).
  pose proof (poll_cycle_cases (start env) (attempt_maxTime loc) c st1) as Hc1.
  rewrite Hlast in Hc1. destruct Hc1 as [Hend Hpoll].
  destruct (pass_ends _ _ c).
  { destruct (Hend eq_refl) as (_ & q & Hq). discriminate Hq. }
  destruct (Hpoll eq_refl) as (_ & _ & Hout).
  destruct (fix_settled _ _ _ _) eqn:Ef; [|discriminate Hout].
  apply fix_settled_iff in Ef. destruct Ef as (_ & _ & Hd & Ha).
  rewrite Hc, Hp.
  destruct (firstFix st =? 0); cbn [horizontalDop horizontalAccuracy
                                    set_timeToFirstFix];
    repeat split; try assumption; congruence.
Qed.

(** X14, on an attempt of two good fixes. *)
Lemma X14_fixed_point_meets_thresholds_witness :
  exists done,
    acquire env_settles blocking_event empty_point engine_bg95 = Some done
    /\ response done = LocationResults.Fixed
    /\ F32.leb (horizontalAccuracy (fixed_point done)) (F32.of_Z 50) = true.
Proof.
  assert (E : acquire env_settles blocking_event empty_point engine_bg95
              = Some (completion_of env_settles blocking_event
                        LocationResults.Fixed true
                        (state_of (poll_loop 1000 90000 (cycles env_settles)
                                     (attempt_start empty_point engine_bg95)))))
    by (vm_compute; reflexivity).
  eexists. split; [exact E|]. split; [reflexivity|].
  exact (proj1 (proj2 (X14_fixed_point_meets_thresholds env_settles
                         blocking_event empty_point engine_bg95 _ E eq_refl))).
Defined.

Lemma acquire_first_pass_ends (env : AcquireEnv)
  (event : LocationCommandContext) (point : LocationPoint) (loc : SomLocation)
  (c : Cycle) (rest : list Cycle) :
  cycles env = c :: rest ->
  pass_ends (start env) (attempt_maxTime loc) c = true ->
  exists done,
    acquire env event point loc = Some done
    /\ response done
       = (if power c then LocationResults.TimedOut
          else LocationResults.Unavailable)
    /\ fixed_point done = point
    /\ _locBuffer (engine done) = _locBuffer loc.
Proof.
  intros Hc Hend. rewrite acquire_unfold, Hc. cbn [poll_loop].
  unfold pass_ends in Hend. unfold poll_cycle.
  pose proof (completion_of_frame env event LocationResults.TimedOut (power c)
                (attempt_start point loc)) as H. cbv zeta in H.
  destruct H as (Hr & _ & _ & _ & _ & _ & Hb & Hp & _).
  cbn [attempt_start firstFix pt eng Z.eqb] in Hp, Hb.
  destruct (power c) eqn:Ep; cbn [negb orb] in *.
  - rewrite Hend. eexists. split; [reflexivity|].
    split; [exact Hr|]. split; [exact Hp|exact Hb].
  - eexists. split; [reflexivity|].
    split; [exact Hr|]. split; [exact Hp|exact Hb].
Qed.

(** X15: an attempt whose first pass finds the modem off, or the time
    already used up, polls nothing: it ends with [Unavailable] in the
    first case and [TimedOut] in the second, and the caller's point and the
    reply buffer are as they were. *)
Theorem X15_attempt_without_a_poll (env : AcquireEnv)
  (event : LocationCommandContext) (point : LocationPoint) (loc : SomLocation)
  (c : Cycle) (rest : list Cycle) :
  cycles env = c :: rest ->
  pass_ends (start env) (attempt_maxTime loc) c = true ->
  exists done,
    acquire env event point loc = Some done
    /\ response done
       = (if power c then LocationResults.TimedOut
          else LocationResults.Unavailable)
    /\ fixed_point done = point
    /\ _locBuffer (engine done) = _locBuffer loc.
Proof.
  exact (acquire_first_pass_ends env event point loc c rest).
Qed.

(** X15, with the modem off from the start. *)
Lemma X15_attempt_without_a_poll_witness :
  pass_ends 1000 (attempt_maxTime engine_bg95) (pass_off 1000) = true
  /\ exists done,
       acquire {| start := 1000; cycles := [pass_off 1000];
                  connected := true; publish_ok := true |}
               blocking_event empty_point engine_bg95 = Some done
       /\ response done = LocationResults.Unavailable
       /\ fixed_point done = empty_point
       /\ _locBuffer (engine done) = _locBuffer engine_bg95.
Proof.
  split; [reflexivity|].
  exact (X15_attempt_without_a_poll
           {| start := 1000; cycles := [pass_off 1000];
              connected := true; publish_ok := true |}
           blocking_event empty_point engine_bg95 (pass_off 1000) []
           eq_refl eq_refl).
Defined.

(** X16: with a maximum fix time of zero every attempt ends at its first
    pass without a poll, [TimedOut] with the modem on and [Unavailable]
    with it off, and the caller's point is not touched. *)
Theorem X16_zero_fix_time_never_polls (env : AcquireEnv)
  (event : LocationCommandContext) (point : LocationPoint) (loc : SomLocation)
  (c : Cycle) (rest : list Cycle) :
  maximumFixTime (_conf loc) = 0 ->
  cycles env = c :: rest ->
  exists done,
    acquire env event point loc = Some done
    /\ response done
       = (if power c then LocationResults.TimedOut
          else LocationResults.Unavailable)
    /\ fixed_point done = point.
Proof.
  intros H0 Hc.
  destruct (acquire_first_pass_ends env event point loc c rest Hc)
    as (done & Hd & Hr & Hp & _).
  - unfold pass_ends, attempt_maxTime. rewrite H0.
    change (u64 (u32 0 * 1000)) with 0.
    assert (0 <= u64 (now c - start env))
      by (unfold u64; apply Z.mod_pos_bound; lia).
    replace (0 <=? u64 (now c - start env)) with true
      by (symmetry; apply Z.leb_le; assumption).
    apply orb_true_r.
  - exists done. repeat split; assumption.
Qed.

(** X16, after [begin] with a fix time of zero seconds. *)
Lemma X16_zero_fix_time_never_polls_witness :
  maximumFixTime
    (_conf (set_conf (set_maximumFixTime 0 LocationConfiguration_default)
              engine_bg95)) = 0
  /\ exists done,
       acquire {| start := 1000; cycles := [pass_second_fix];
                  connected := true; publish_ok := true |}
               blocking_event empty_point
               (set_conf (set_maximumFixTime 0 LocationConfiguration_default)
                  engine_bg95) = Some done
       /\ response done = LocationResults.TimedOut
       /\ fixed_point done = empty_point.
Proof.
  split; [reflexivity|].
  exact (X16_zero_fix_time_never_polls
           {| start := 1000; cycles := [pass_second_fix];
              connected := true; publish_ok := true |}
           blocking_event empty_point
           (set_conf (set_maximumFixTime 0 LocationConfiguration_default)
              engine_bg95)
           pass_second_fix [] eq_refl eq_refl).
Defined.

(** ** Attempts without a fix *)









(** ** The first fix of an attempt *)





(** ** A call and the worker's next turn *)

Lemma acquire_engine (env : AcquireEnv) (event : LocationCommandContext)
  (point : LocationPoint) (loc : SomLocation) (done : Completion) :
  acquire env event point loc = Some done ->
  _acquiring (engine done) = false
  /\ _commandQueue (engine done) = _commandQueue loc
  /\ (sendResponse event = false ->
      _responseQueue (engine done) = _responseQueue loc
      /\ called done
         = match doneCallback event with
           | Some cb => Some (cb, response done)
           | None => None
           end).
Proof.
  rewrite acquire_unfold. intros E.
  destruct (poll_loop _ _ _ _) as [r p st|st] eqn:El; [|discriminate E].
  injection E as <-.
  pose proof (poll_loop_frame (start env) (attempt_maxTime loc) (cycles env)
                (attempt_start point loc)) as Hf.
  cbv zeta in Hf. rewrite El in Hf. cbn [state_of attempt_start eng] in Hf.
  destruct Hf as ((Hq & Hrq & _) & _). cbn in Hq, Hrq.
  pose proof (completion_of_frame env event r p st) as H. cbv zeta in H.
  destruct H as (Hr & Ha & _ & _ & Hq' & _ & _ & _ & _ & Hcb).
  split; [exact Ha|]. split; [congruence|].
  intros Hs. destruct (Hcb Hs) as (H1 & H2 & _).
  split; [congruence|]. rewrite H2, Hr. reflexivity.
Qed.

(** X19: a command that the asynchronous call queued is the one the
    worker's next turn runs, whatever else arrives meanwhile. If the
    attempt ends, the worker goes on, the callback, if one was given, is
    invoked once with the response of the attempt, nothing is put in the
    response queue, and the engine is left idle with an empty command
    queue. *)
Theorem X19_queued_command_runs_on_next_turn (env : Env) (aenv : AcquireEnv)
  (point : nat) (callback : LocationDone) (publish : bool)
  (p : LocationPoint) (loc : SomLocation)
  (arrival : option (Z * LocationCommandContext))
  (go : bool) (loc' : SomLocation) (out : option Completion) :
  modem_ready env loc = true -> _acquiring loc = false ->
  _commandQueue loc = [] ->
  threadLoop_turn arrival aenv p
    (after (getLocation_callback env point callback publish loc))
  = Some (go, loc', out) ->
  go = true
  /\ exists done,
       out = Some done /\ loc' = engine done
       /\ called done = match callback with
                        | Some cb => Some (cb, response done)
                        | None => None
                        end
       /\ _commandQueue loc' = []
       /\ _responseQueue loc' = _responseQueue loc
       /\ getStatus loc' = LocationResults.Idle.
Proof.
  intros Hready Hacq Hq.
  rewrite (getLocation_callback_dispatch env point callback publish loc
             Hready Hacq).
  pose proof (after_detection_frame env loc) as (Hq' & Hrq & _).
  cbn [after]. rewrite Hq', Hq. unfold threadLoop_turn, waitOnCommandEvent.
  cbn [os_queue_put _commandQueue set_commandQueue os_queue_take
       callback_command command].
  destruct (acquire aenv _ p _) as [done|] eqn:E; [|discriminate].
  intros H. injection H as <- <- <-.
  split; [reflexivity|]. exists done.
  destruct (acquire_engine _ _ _ _ _ E) as (Ha & Hcq & Hcb).
  destruct (Hcb eq_refl) as [Hr Hcalled].
  cbn [_commandQueue _responseQueue set_commandQueue doneCallback] in *.
  unfold getStatus. rewrite Ha, Hcq, Hr, Hrq.
  repeat split; try reflexivity. exact Hcalled.
Qed.

(** X19, on a fresh engine with a BG95-M5 and an attempt of two good
    fixes. *)
Lemma X19_queued_command_runs_on_next_turn_witness :
  exists done,
    threadLoop_turn None env_settles empty_point
      (after (getLocation_callback env_calm 0%nat (Some 7%nat) true
                SomLocation_new))
    = Some (true, engine done, Some done)
    /\ called done = Some (7%nat, response done)
    /\ _commandQueue (engine done) = []
    /\ getStatus (engine done) = LocationResults.Idle.
Proof.
  destruct (threadLoop_turn None env_settles empty_point
              (after (getLocation_callback env_calm 0%nat (Some 7%nat) true
                        SomLocation_new)))
    as [[[go loc'] out]|] eqn:E;
    [|exfalso; vm_compute in E; discriminate E].
  destruct (X19_queued_command_runs_on_next_turn env_calm env_settles 0%nat
              (Some 7%nat) true empty_point SomLocation_new None go loc' out
              eq_refl eq_refl eq_refl E)
    as (-> & done & -> & -> & Hc & Hq & _ & Hs).
  exists done. split; [reflexivity|]. split; [exact Hc|].
  split; [exact Hq|exact Hs].
Defined.

(** ** How an attempt ends *)





(** ** [begin] and the constellation number *)

Lemma assign_twice (this rhs : LocationConfiguration) :
  assign (assign this rhs) rhs = assign this rhs.
Proof. reflexivity. Qed.

(** X21: [begin] stores the antenna pin of the configuration it is given
    and leaves the two queues, the acquiring flag and the publish sequence
    number alone; a modem model already recorded stays; and a second
    [begin] with the same configuration, in the same environment, changes
    nothing. *)
Theorem X21_begin_twice_is_begin_once (env : Env)
  (configuration : LocationConfiguration) (loc : SomLocation) :
  let once := snd (begin env configuration loc) in
  snd (begin env configuration once) = once
  /\ fst (begin env configuration loc) = 0
  /\ _antennaPowerPin once = enableAntennaPower configuration
  /\ _commandQueue once = _commandQueue loc
  /\ _responseQueue once = _responseQueue loc
  /\ _acquiring once = _acquiring loc
  /\ _reqid once = _reqid loc
  /\ (_modemType loc <> ModemType.Unavailable ->
      _modemType once = _modemType loc).
Proof.
  cbv zeta. unfold begin, detectModemType, modemNotDetected.
  destruct loc as [cq rq ac lb eb qc ec cf pin mt rid].
  destruct configuration as [k a h x m].
  destruct cf as [k0 a0 h0 x0 m0].
  destruct (isModemOn env) eqn:Eon, mt;
    cbn [snd fst set_conf set_antennaPowerPin assign _conf _modemType
         enableAntennaPower _antennaPin _constellations _hdop _hacc
         _maxFixSeconds ModemType.eqb andb negb _commandQueue _responseQueue
         _acquiring _reqid _antennaPowerPin];
    try (destruct (dev env) eqn:Ed;
         cbn [snd fst set_modemType _modemType ModemType.eqb andb negb
              set_conf set_antennaPowerPin assign _conf enableAntennaPower
              _antennaPin _constellations _hdop _hacc _maxFixSeconds
              _commandQueue _responseQueue _acquiring _reqid
              _antennaPowerPin];
         rewrite ?Ed;
         cbn [snd fst set_modemType _modemType ModemType.eqb andb negb]);
    repeat split; intros; try reflexivity; try congruence.
Qed.

Lemma land_bit (flags k : Z) :
  0 <= k -> (Z.land flags (Z.shiftl 1 k) =? 0) = negb (Z.testbit flags k).
Proof.
  intros Hk. rewrite Z.shiftl_1_l.
  destruct (Z.testbit flags k) eqn:Eb; cbn [negb].
  - apply Z.eqb_neq. intros H.
    assert (Hb : Z.testbit (Z.land flags (2 ^ k)) k = true)
      by (rewrite Z.land_spec, Eb, Z.pow2_bits_true; [reflexivity|exact Hk]).
    rewrite H, Z.bits_0 in Hb. discriminate Hb.
  - apply Z.eqb_eq. apply Z.bits_inj'. intros n Hn.
    rewrite Z.land_spec, Z.bits_0, Z.pow2_bits_eqb by exact Hk.
    destruct (Z.eqb_spec k n) as [->|_];
      [rewrite Eb; reflexivity|apply andb_false_r].
Qed.

(** X22: of the constellations asked for, [setConstellationBg95] configures
    one: the lowest of the four flag bits that is set decides, GLONASS
    before BeiDou before Galileo before QZSS, and with none of them set,
    so also for [LOCATION_CONST_GPS_ONLY], the number is that of GPS with
    GLONASS. The number is always one of 1 to 4. *)
Theorem X22_constellation_number (flags : Z) :
  setConstellationBg95 flags
  = (if Z.testbit flags 0 then 1
     else if Z.testbit flags 1 then 2
     else if Z.testbit flags 2 then 3
     else if Z.testbit flags 3 then 4
     else 1)
  /\ 1 <= setConstellationBg95 flags <= 4
  /\ setConstellationBg95 LOCATION_CONST_GPS_ONLY
     = setConstellationBg95 LOCATION_CONST_GPS_GLONASS.
Proof.
  unfold setConstellationBg95, LOCATION_CONST_GPS_ONLY,
    LOCATION_CONST_GPS_GLONASS, LOCATION_CONST_GPS_BEIDOU,
    LOCATION_CONST_GPS_GALILEO, LOCATION_CONST_GPS_QZSS.
  rewrite Z.land_0_r, !land_bit by lia.
  split; [|split; [|reflexivity]];
    destruct (Z.testbit flags 0), (Z.testbit flags 1), (Z.testbit flags 2),
      (Z.testbit flags 3); cbn; try reflexivity; lia.
Qed.

(** ** A position reply read in full *)



(** ** The moment of delivery *)

(** X24: when an attempt delivers its response, to the queue of a blocked
    caller or to a callback, the engine still counts as acquiring: the
    guard that clears the flag runs afterwards, and what it leaves is the
    engine of that moment with the flag cleared. A request made at that
    moment, as from within the callback, is not accepted: it returns at
    once with a response other than [Acquiring] and queues nothing. *)
Theorem X24_request_at_delivery_is_refused (env : AcquireEnv)
  (event : LocationCommandContext) (point : LocationPoint) (loc : SomLocation)
  (mid : SomLocation) :
  engine_at_delivery env event point loc = Some mid ->
  getStatus mid = LocationResults.Acquiring
  /\ (exists done,
        acquire env event point loc = Some done
        /\ engine done = set_acquiring false mid)
  /\ forall (env' : Env) (point' : nat) (callback : LocationDone)
       (publish' : bool),
       let call := getLocation_callback env' point' callback publish' mid in
       result call <> LocationResults.Acquiring
       /\ waited call = 0
       /\ _commandQueue (after call) = _commandQueue loc
       /\ getStatus (after call) = LocationResults.Acquiring.
Proof.
  unfold engine_at_delivery. rewrite acquire_unfold. intros E.
  destruct (poll_loop _ _ _ _) as [r p st|st] eqn:El; [|discriminate E].
  pose proof (poll_loop_frame (start env) (attempt_maxTime loc) (cycles env)
                (attempt_start point loc)) as Hf.
  cbv zeta in Hf. rewrite El in Hf. cbn [state_of attempt_start eng] in Hf.
  destruct Hf as ((Hq & _ & Ha & _) & _). cbn in Hq, Ha.
  assert (Hmid : _acquiring mid = true /\ _commandQueue mid = _commandQueue loc
                 /\ engine (completion_of env event r p st)
                    = set_acquiring false mid).
  { cbv zeta in E. unfold completion_of.
    destruct (sendResponse event).
    - injection E as <-. cbn. repeat split; first [assumption|reflexivity].
    - destruct (doneCallback event); [|discriminate E].
      injection E as <-.
      destruct (publish event), (final_response r p), (connected env),
        (publish_ok env); cbn; repeat split;
        first [assumption|reflexivity]. }
  destruct Hmid as (Hacq & Hcq & Heng).
  split; [unfold getStatus; rewrite Hacq; reflexivity|].
  split; [eexists; split; [reflexivity|exact Heng]|].
  intros env' point' callback publish'. cbv zeta.
  destruct (getLocation_callback_while_acquiring env' point' callback publish'
              mid Hacq) as (H1 & H2 & H3 & H4).
  split.
  { rewrite H4. destruct (negb (isModemOn env')); [discriminate|].
    destruct (modem_ready env' mid); discriminate. }
  split; [exact H3|]. split; [congruence|].
  unfold getStatus. rewrite H2. reflexivity.
Qed.

(** X24, on an attempt of two good fixes made for a callback: a request
    from within the callback is answered [Pending]. *)
Lemma X24_request_at_delivery_is_refused_witness :
  exists mid,
    engine_at_delivery env_settles callback_event empty_point engine_bg95
    = Some mid
    /\ getStatus mid = LocationResults.Acquiring
    /\ result (getLocation_callback env_calm 0%nat (Some 7%nat) true mid)
       <> LocationResults.Acquiring.
Proof.
  destruct (engine_at_delivery env_settles callback_event empty_point
              engine_bg95) as [mid|] eqn:E;
    [|exfalso; vm_compute in E; discriminate E].
  exists mid. split; [reflexivity|].
  destruct (X24_request_at_delivery_is_refused env_settles callback_event
              empty_point engine_bg95 mid E) as (Hs & _ & Hcall).
  split; [exact Hs|].
  exact (proj1 (Hcall env_calm 0%nat (Some 7%nat) true)).
Defined.
